(** * progressbar: the progress-state tracker and its throttled renderer

    A shallow embedding of [progressbar.go].  The tracker's mutable fields
    are a record threaded through every operation; the clock, the output
    sink, the terminal and the third-party string helpers are an explicit
    environment; what the program does to the outside (writes, the
    completion callback) is recorded in a trace. *)

From Stdlib Require Import ZArith List String Ascii Bool Lia.
From Stdlib Require Import SpecFloat.
Import ListNotations.

Local Open Scope string_scope.
Local Open Scope Z_scope.

(** ** Machine integers

    [int64] (and [int], 64 bits wide on the platforms modelled here) is a
    [Z] with Go's wrap-around written out. *)
Module Int64.

Definition min_int : Z := - 2 ^ 63.
Definition max_int : Z := 2 ^ 63 - 1.

Definition wrap (z : Z) : Z := (z + 2 ^ 63) mod 2 ^ 64 - 2 ^ 63.

Definition in_range (z : Z) : bool := (min_int <=? z) && (z <=? max_int).

Definition add (a b : Z) : Z := wrap (a + b).
Definition sub (a b : Z) : Z := wrap (a - b).
Definition mul (a b : Z) : Z := wrap (a * b).

(** Go's [/] and [%] truncate toward zero. *)
Definition quo (a b : Z) : Z := wrap (Z.quot a b).
Definition rem (a b : Z) : Z := Z.rem a b.

End Int64.

(** ** float64

    IEEE 754 binary64 with round-to-nearest-even, through the Standard
    Library's executable specification of the format. *)
Module F64.

Definition float64 : Type := spec_float.

Definition prec : Z := 53.
Definition emax : Z := 1024.

Definition of_int (z : Z) : float64 := binary_normalize prec emax z 0 false.

Definition add : float64 -> float64 -> float64 := SFadd prec emax.
Definition sub : float64 -> float64 -> float64 := SFsub prec emax.
Definition mul : float64 -> float64 -> float64 := SFmul prec emax.
Definition div : float64 -> float64 -> float64 := SFdiv prec emax.

Definition ltb : float64 -> float64 -> bool := SFltb.
Definition eqb : float64 -> float64 -> bool := SFeqb.

Definition zero : float64 := S754_zero false.
Definition one : float64 := of_int 1.
Definition half : float64 := S754_finite false 4503599627370496 (-53).

Definition is_pos_inf (x : float64) : bool :=
  match x with S754_infinity false => true | _ => false end.

(** The integer part of the magnitude [m * 2^e] of a finite float. *)
Definition magnitude_floor (m : positive) (e : Z) : Z :=
  if 0 <=? e then Z.pos m * 2 ^ e else Z.pos m / 2 ^ (- e).

(** Conversion to an integer type truncates toward zero.  Go leaves the
    result open when the value does not fit; amd64's CVTTSD2SI, modelled
    here, yields the least int64 for those and for NaN. *)
Definition to_int (x : float64) : Z :=
  match x with
  | S754_zero _ => 0
  | S754_finite s m e =>
      let a := magnitude_floor m e in
      let v := if s then - a else a in
      if Int64.in_range v then v else Int64.min_int
  | _ => Int64.min_int
  end.

(** [math.Floor]. *)
Definition floor (x : float64) : float64 :=
  match x with
  | S754_finite s m e =>
      if 0 <=? e then x
      else
        let v := if s then - ((Z.pos m + 2 ^ (- e) - 1) / 2 ^ (- e))
                 else Z.pos m / 2 ^ (- e) in
        of_int v
  | _ => x
  end.

(** [math.Round]: nearest integer, halves away from zero. *)
Definition round (x : float64) : float64 :=
  match x with
  | S754_finite s m e =>
      if 0 <=? e then x
      else
        let v := (2 * Z.pos m + 2 ^ (- e)) / (2 * 2 ^ (- e)) in
        if v =? 0 then S754_zero s else of_int (if s then - v else v)
  | _ => x
  end.

(** [math.Mod]: the remainder of [x / y] with the sign of [x]; it is always
    exactly representable. *)
Definition fmod (x y : float64) : float64 :=
  match x, y with
  | S754_nan, _ | _, S754_nan => S754_nan
  | S754_infinity _, _ => S754_nan
  | _, S754_zero _ => S754_nan
  | _, S754_infinity _ => x
  | S754_zero _, _ => x
  | S754_finite sx mx ex, S754_finite _ my ey =>
      let e := Z.min ex ey in
      let r := Z.rem (Z.pos mx * 2 ^ (ex - e)) (Z.pos my * 2 ^ (ey - e)) in
      binary_normalize prec emax (if sx then - r else r) e sx
  end.

End F64.

(** ** The Go library calls the program makes

    [strings.Repeat], the [fmt] verbs the program uses, and
    [time.Duration]'s arithmetic and printing. *)
Module Go.

Import F64.

Fixpoint repeat_nat (s : string) (n : nat) : string :=
  match n with
  | O => ""
  | S k => s ++ repeat_nat s k
  end.

(** [strings.Repeat] at a count that is not negative (a negative count
    panics; the callers below guard it where it can happen). *)
Definition Repeat (s : string) (count : Z) : string := repeat_nat s (Z.to_nat count).

Definition len (s : string) : Z := Z.of_nat (String.length s).

Definition pad_left (width : Z) (s : string) : string :=
  Repeat " " (width - len s) ++ s.

Definition digit (d : Z) : string :=
  String (ascii_of_nat (48 + Z.to_nat d)) "".

(** Decimal digits of a natural number, most significant first; [fuel]
    bounds the number of digits. *)
Fixpoint digits_fuel (fuel : nat) (n : Z) (acc : string) : string :=
  match fuel with
  | O => acc
  | S k =>
      if n <? 10 then digit n ++ acc
      else digits_fuel k (n / 10) (digit (n mod 10) ++ acc)
  end.

Definition utoa (n : Z) : string := digits_fuel (S (Z.to_nat (Z.log2 n))) n "".

(** The verb [%d]. *)
Definition itoa (z : Z) : string :=
  if z <? 0 then "-" ++ utoa (- z) else utoa z.

(** The verb [%Nd]. *)
Definition itoa_w (width z : Z) : string := pad_left width (itoa z).

(** [m * 2^e * 10^p] rounded to the nearest integer, ties to even: the
    digits [strconv] prints for a finite float at precision [p]. *)
Definition scaled_round (m : positive) (e : Z) (p : Z) : Z :=
  if 0 <=? e then Z.pos m * 2 ^ e * 10 ^ p
  else
    let num := Z.pos m * 10 ^ p in
    let den := 2 ^ (- e) in
    let q := num / den in
    let r := num mod den in
    match 2 * r ?= den with
    | Lt => q
    | Gt => q + 1
    | Eq => if Z.even q then q else q + 1
    end.

(** The verb [%.pf]. *)
Definition ftoa (p : Z) (x : float64) : string :=
  match x with
  | S754_nan => "NaN"
  | S754_infinity false => "+Inf"
  | S754_infinity true => "-Inf"
  | S754_zero s =>
      (if s then "-" else "") ++ "0" ++ (if 0 <? p then "." ++ Repeat "0" p else "")
  | S754_finite s m e =>
      let q := scaled_round m e p in
      let ip := q / 10 ^ p in
      let fp := q mod 10 ^ p in
      (if s then "-" else "") ++ utoa ip
        ++ (if 0 <? p then "." ++ Repeat "0" (p - len (utoa fp)) ++ utoa fp else "")
  end.

(** The verb [%W.pf]. *)
Definition ftoa_w (width p : Z) (x : float64) : string := pad_left width (ftoa p x).

(** *** time.Duration: an int64 count of nanoseconds *)

Definition Nanosecond : Z := 1.
Definition Microsecond : Z := 1000.
Definition Millisecond : Z := 1000000.
Definition Second : Z := 1000000000.

(** [Duration.Seconds]. *)
Definition Seconds (d : Z) : float64 :=
  let sec := Int64.quo d Second in
  let nsec := Int64.rem d Second in
  add (of_int sec) (div (of_int nsec) (of_int 1000000000)).

(** [Duration.Nanoseconds] and [Duration.Milliseconds]. *)
Definition Nanoseconds (d : Z) : Z := d.
Definition Milliseconds (d : Z) : Z := Int64.quo d 1000000.

(** [Time.Sub] saturates at the ends of the Duration range. *)
Definition Sub (t u : Z) : Z :=
  Z.max Int64.min_int (Z.min Int64.max_int (t - u)).

(** The zero [time.Time] (January 1, year 1), in nanoseconds from the Unix
    epoch like every other instant here. *)
Definition zero_Time : Z := - 62135596800 * 1000000000.

(** [fmtFrac]: the fraction of [v / 10^prec] without trailing zeros, and no
    point when the fraction is zero; returns the text and [v / 10^prec]. *)
Fixpoint fmtFrac (prec : nat) (v : Z) (printed : bool) (acc : string) : string * Z :=
  match prec with
  | O => ((if printed then "." ++ acc else acc), v)
  | S k =>
      let d := v mod 10 in
      let printed' := printed || negb (d =? 0) in
      fmtFrac k (v / 10) printed' (if printed' then digit d ++ acc else acc)
  end.

(** [Duration.String]. *)
Definition Duration_String (d : Z) : string :=
  let neg := d <? 0 in
  let u := if neg then (- d) mod 2 ^ 64 else d in
  let body :=
    if u <? Second then
      if u =? 0 then "0s"
      else if u <? Microsecond then utoa u ++ "ns"
      else if u <? Millisecond then
        let '(f, w) := fmtFrac 3 u false "" in
        utoa w ++ f ++ String (ascii_of_nat 194) (String (ascii_of_nat 181) "s")
      else
        let '(f, w) := fmtFrac 6 u false "" in
        utoa w ++ f ++ "ms"
    else
      let '(f, secs) := fmtFrac 9 u false "" in
      let s := utoa (secs mod 60) ++ f ++ "s" in
      let mins := secs / 60 in
      if 0 <? mins then
        let ms := utoa (mins mod 60) ++ "m" ++ s in
        let hours := mins / 60 in
        if 0 <? hours then utoa hours ++ "h" ++ ms else ms
      else s in
  if neg then "-" ++ body else body.

End Go.

(** ** The tracker *)
Module Progressbar.

Import F64 Go.

(** *** The outside world *)

(** An [io.Writer] is known by whether its n-th write succeeds. *)
Definition Writer : Type := nat -> bool.

(** A completion callback is an opaque function value. *)
Inductive callback : Type := Callback (id : nat).

Inductive event : Type :=
| Wrote (str : string)           (* a write the sink accepted *)
| WriteFailed (str : string)     (* a write the sink refused *)
| Called (f : callback).         (* the completion callback ran *)

(** What the program cannot compute by itself. *)
Record env : Type := {
  clock : nat -> Z;                   (* the n-th reading of time.Now, in ns *)
  Stdout : Writer;                    (* os.Stdout *)
  Stderr : Writer;                    (* os.Stderr *)
  term_stdout : option Z;             (* term.GetSize of stdout; None = error *)
  term_stderr : option Z;             (* term.GetSize of stderr *)
  Color : string -> string;           (* colorstring.Color *)
  StringWidth : string -> Z;          (* runewidth.StringWidth *)
  spinners : list (list string)       (* the spinner table, indexed 0..75 *)
}.

Record world : Type := {
  ticks : nat;                        (* clock readings taken so far *)
  writes : nat;                       (* writes attempted so far *)
  trace : list event                  (* what happened, oldest first *)
}.

(** A call either returns or panics; both leave a world behind. *)
Inductive outcome (A : Type) : Type :=
| Done (a : A) (w : world)
| Panic (w : world).
Arguments Done {A} a w.
Arguments Panic {A} w.

Definition bind {A B : Type} (m : outcome A) (k : A -> world -> outcome B) : outcome B :=
  match m with
  | Done a w => k a w
  | Panic w => Panic w
  end.

(** Go's [error] values of this package. *)
Inductive error : Type :=
| ErrMaxZero        (* errors.New: max must be greater than 0 *)
| ErrExceedsMax     (* errors.New: current number exceeds max *)
| ErrWrite.         (* whatever the writer returned *)

Definition error_message (e : error) : string :=
  match e with
  | ErrMaxZero => "max must be greater than 0"
  | ErrExceedsMax => "current number exceeds max"
  | ErrWrite => "write failed"
  end.

(** *** The data model *)

Record Theme : Type := {
  Saucer : string;
  AltSaucerHead : string;
  SaucerHead : string;
  SaucerPadding : string;
  BarStart : string;
  BarEnd : string
}.

Record state : Type := {
  currentNum : Z;
  currentPercent : Z;
  lastPercent : Z;
  currentSaucerSize : Z;
  isAltSaucerHead : bool;
  startTime : Z;
  lastShown : Z;
  counterTime : Z;
  counterNumSinceLast : Z;
  counterLastTenRates : list float64;
  maxLineWidth : Z;
  currentBytes : float64;
  finished : bool;
  exit : bool;
  rendered : string
}.

Record config : Type := {
  max : Z;
  maxHumanized : string;
  maxHumanizedSuffix : string;
  width : Z;
  writer : Writer;
  theme : Theme;
  renderWithBlankState : bool;
  description : string;
  ignoreLength : bool;
  throttleDuration : Z;
  spinnerType : Z;
  elapsedTime : bool;
  predictTime : bool;
  showBytes : bool;
  showIterationsCount : bool;
  showDescriptionAtLineEnd : bool;
  onCompletion : option callback;
  fullWidth : bool;
  useANSICodes : bool;
  clearOnFinish : bool;
  colorCodes : bool
}.

(** Field assignments. *)
Definition set_currentNum (v : Z) (s : state) : state :=
  {| currentNum := v; currentPercent := currentPercent s; lastPercent := lastPercent s;
     currentSaucerSize := currentSaucerSize s; isAltSaucerHead := isAltSaucerHead s;
     startTime := startTime s; lastShown := lastShown s; counterTime := counterTime s;
     counterNumSinceLast := counterNumSinceLast s;
     counterLastTenRates := counterLastTenRates s; maxLineWidth := maxLineWidth s;
     currentBytes := currentBytes s; finished := finished s; exit := exit s;
     rendered := rendered s |}.

Definition set_currentPercent (v : Z) (s : state) : state :=
  {| currentNum := currentNum s; currentPercent := v; lastPercent := lastPercent s;
     currentSaucerSize := currentSaucerSize s; isAltSaucerHead := isAltSaucerHead s;
     startTime := startTime s; lastShown := lastShown s; counterTime := counterTime s;
     counterNumSinceLast := counterNumSinceLast s;
     counterLastTenRates := counterLastTenRates s; maxLineWidth := maxLineWidth s;
     currentBytes := currentBytes s; finished := finished s; exit := exit s;
     rendered := rendered s |}.

Definition set_lastPercent (v : Z) (s : state) : state :=
  {| currentNum := currentNum s; currentPercent := currentPercent s; lastPercent := v;
     currentSaucerSize := currentSaucerSize s; isAltSaucerHead := isAltSaucerHead s;
     startTime := startTime s; lastShown := lastShown s; counterTime := counterTime s;
     counterNumSinceLast := counterNumSinceLast s;
     counterLastTenRates := counterLastTenRates s; maxLineWidth := maxLineWidth s;
     currentBytes := currentBytes s; finished := finished s; exit := exit s;
     rendered := rendered s |}.

Definition set_currentSaucerSize (v : Z) (s : state) : state :=
  {| currentNum := currentNum s; currentPercent := currentPercent s;
     lastPercent := lastPercent s;
     currentSaucerSize := v; isAltSaucerHead := isAltSaucerHead s;
     startTime := startTime s; lastShown := lastShown s; counterTime := counterTime s;
     counterNumSinceLast := counterNumSinceLast s;
     counterLastTenRates := counterLastTenRates s; maxLineWidth := maxLineWidth s;
     currentBytes := currentBytes s; finished := finished s; exit := exit s;
     rendered := rendered s |}.

Definition set_isAltSaucerHead (v : bool) (s : state) : state :=
  {| currentNum := currentNum s; currentPercent := currentPercent s;
     lastPercent := lastPercent s;
     currentSaucerSize := currentSaucerSize s; isAltSaucerHead := v;
     startTime := startTime s; lastShown := lastShown s; counterTime := counterTime s;
     counterNumSinceLast := counterNumSinceLast s;
     counterLastTenRates := counterLastTenRates s; maxLineWidth := maxLineWidth s;
     currentBytes := currentBytes s; finished := finished s; exit := exit s;
     rendered := rendered s |}.

Definition set_lastShown (v : Z) (s : state) : state :=
  {| currentNum := currentNum s; currentPercent := currentPercent s;
     lastPercent := lastPercent s;
     currentSaucerSize := currentSaucerSize s; isAltSaucerHead := isAltSaucerHead s;
     startTime := startTime s; lastShown := v; counterTime := counterTime s;
     counterNumSinceLast := counterNumSinceLast s;
     counterLastTenRates := counterLastTenRates s; maxLineWidth := maxLineWidth s;
     currentBytes := currentBytes s; finished := finished s; exit := exit s;
     rendered := rendered s |}.

Definition set_counterTime (v : Z) (s : state) : state :=
  {| currentNum := currentNum s; currentPercent := currentPercent s;
     lastPercent := lastPercent s;
     currentSaucerSize := currentSaucerSize s; isAltSaucerHead := isAltSaucerHead s;
     startTime := startTime s; lastShown := lastShown s; counterTime := v;
     counterNumSinceLast := counterNumSinceLast s;
     counterLastTenRates := counterLastTenRates s; maxLineWidth := maxLineWidth s;
     currentBytes := currentBytes s; finished := finished s; exit := exit s;
     rendered := rendered s |}.

Definition set_counterNumSinceLast (v : Z) (s : state) : state :=
  {| currentNum := currentNum s; currentPercent := currentPercent s;
     lastPercent := lastPercent s;
     currentSaucerSize := currentSaucerSize s; isAltSaucerHead := isAltSaucerHead s;
     startTime := startTime s; lastShown := lastShown s; counterTime := counterTime s;
     counterNumSinceLast := v;
     counterLastTenRates := counterLastTenRates s; maxLineWidth := maxLineWidth s;
     currentBytes := currentBytes s; finished := finished s; exit := exit s;
     rendered := rendered s |}.

Definition set_counterLastTenRates (v : list float64) (s : state) : state :=
  {| currentNum := currentNum s; currentPercent := currentPercent s;
     lastPercent := lastPercent s;
     currentSaucerSize := currentSaucerSize s; isAltSaucerHead := isAltSaucerHead s;
     startTime := startTime s; lastShown := lastShown s; counterTime := counterTime s;
     counterNumSinceLast := counterNumSinceLast s;
     counterLastTenRates := v; maxLineWidth := maxLineWidth s;
     currentBytes := currentBytes s; finished := finished s; exit := exit s;
     rendered := rendered s |}.

Definition set_maxLineWidth (v : Z) (s : state) : state :=
  {| currentNum := currentNum s; currentPercent := currentPercent s;
     lastPercent := lastPercent s;
     currentSaucerSize := currentSaucerSize s; isAltSaucerHead := isAltSaucerHead s;
     startTime := startTime s; lastShown := lastShown s; counterTime := counterTime s;
     counterNumSinceLast := counterNumSinceLast s;
     counterLastTenRates := counterLastTenRates s; maxLineWidth := v;
     currentBytes := currentBytes s; finished := finished s; exit := exit s;
     rendered := rendered s |}.

Definition set_currentBytes (v : float64) (s : state) : state :=
  {| currentNum := currentNum s; currentPercent := currentPercent s;
     lastPercent := lastPercent s;
     currentSaucerSize := currentSaucerSize s; isAltSaucerHead := isAltSaucerHead s;
     startTime := startTime s; lastShown := lastShown s; counterTime := counterTime s;
     counterNumSinceLast := counterNumSinceLast s;
     counterLastTenRates := counterLastTenRates s; maxLineWidth := maxLineWidth s;
     currentBytes := v; finished := finished s; exit := exit s;
     rendered := rendered s |}.

Definition set_finished (v : bool) (s : state) : state :=
  {| currentNum := currentNum s; currentPercent := currentPercent s;
     lastPercent := lastPercent s;
     currentSaucerSize := currentSaucerSize s; isAltSaucerHead := isAltSaucerHead s;
     startTime := startTime s; lastShown := lastShown s; counterTime := counterTime s;
     counterNumSinceLast := counterNumSinceLast s;
     counterLastTenRates := counterLastTenRates s; maxLineWidth := maxLineWidth s;
     currentBytes := currentBytes s; finished := v; exit := exit s;
     rendered := rendered s |}.

Definition set_exit (v : bool) (s : state) : state :=
  {| currentNum := currentNum s; currentPercent := currentPercent s;
     lastPercent := lastPercent s;
     currentSaucerSize := currentSaucerSize s; isAltSaucerHead := isAltSaucerHead s;
     startTime := startTime s; lastShown := lastShown s; counterTime := counterTime s;
     counterNumSinceLast := counterNumSinceLast s;
     counterLastTenRates := counterLastTenRates s; maxLineWidth := maxLineWidth s;
     currentBytes := currentBytes s; finished := finished s; exit := v;
     rendered := rendered s |}.

Definition set_rendered (v : string) (s : state) : state :=
  {| currentNum := currentNum s; currentPercent := currentPercent s;
     lastPercent := lastPercent s;
     currentSaucerSize := currentSaucerSize s; isAltSaucerHead := isAltSaucerHead s;
     startTime := startTime s; lastShown := lastShown s; counterTime := counterTime s;
     counterNumSinceLast := counterNumSinceLast s;
     counterLastTenRates := counterLastTenRates s; maxLineWidth := maxLineWidth s;
     currentBytes := currentBytes s; finished := finished s; exit := exit s;
     rendered := v |}.

(** Assignments to the configuration, as the options and the constructor
    make them. *)
Definition with_max (v : Z) (c : config) : config :=
  {| max := v; maxHumanized := maxHumanized c;
     maxHumanizedSuffix := maxHumanizedSuffix c; width := width c; writer := writer c;
     theme := theme c; renderWithBlankState := renderWithBlankState c;
     description := description c; ignoreLength := ignoreLength c;
     throttleDuration := throttleDuration c; spinnerType := spinnerType c;
     elapsedTime := elapsedTime c; predictTime := predictTime c;
     showBytes := showBytes c; showIterationsCount := showIterationsCount c;
     showDescriptionAtLineEnd := showDescriptionAtLineEnd c;
     onCompletion := onCompletion c; fullWidth := fullWidth c;
     useANSICodes := useANSICodes c; clearOnFinish := clearOnFinish c;
     colorCodes := colorCodes c |}.

Definition with_maxHumanized (v : string) (c : config) : config :=
  {| max := max c; maxHumanized := v; maxHumanizedSuffix := maxHumanizedSuffix c;
     width := width c; writer := writer c; theme := theme c;
     renderWithBlankState := renderWithBlankState c; description := description c;
     ignoreLength := ignoreLength c; throttleDuration := throttleDuration c;
     spinnerType := spinnerType c; elapsedTime := elapsedTime c;
     predictTime := predictTime c; showBytes := showBytes c;
     showIterationsCount := showIterationsCount c;
     showDescriptionAtLineEnd := showDescriptionAtLineEnd c;
     onCompletion := onCompletion c; fullWidth := fullWidth c;
     useANSICodes := useANSICodes c; clearOnFinish := clearOnFinish c;
     colorCodes := colorCodes c |}.

Definition with_maxHumanizedSuffix (v : string) (c : config) : config :=
  {| max := max c; maxHumanized := maxHumanized c; maxHumanizedSuffix := v;
     width := width c; writer := writer c; theme := theme c;
     renderWithBlankState := renderWithBlankState c; description := description c;
     ignoreLength := ignoreLength c; throttleDuration := throttleDuration c;
     spinnerType := spinnerType c; elapsedTime := elapsedTime c;
     predictTime := predictTime c; showBytes := showBytes c;
     showIterationsCount := showIterationsCount c;
     showDescriptionAtLineEnd := showDescriptionAtLineEnd c;
     onCompletion := onCompletion c; fullWidth := fullWidth c;
     useANSICodes := useANSICodes c; clearOnFinish := clearOnFinish c;
     colorCodes := colorCodes c |}.

Definition with_width (v : Z) (c : config) : config :=
  {| max := max c; maxHumanized := maxHumanized c;
     maxHumanizedSuffix := maxHumanizedSuffix c; width := v; writer := writer c;
     theme := theme c; renderWithBlankState := renderWithBlankState c;
     description := description c; ignoreLength := ignoreLength c;
     throttleDuration := throttleDuration c; spinnerType := spinnerType c;
     elapsedTime := elapsedTime c; predictTime := predictTime c;
     showBytes := showBytes c; showIterationsCount := showIterationsCount c;
     showDescriptionAtLineEnd := showDescriptionAtLineEnd c;
     onCompletion := onCompletion c; fullWidth := fullWidth c;
     useANSICodes := useANSICodes c; clearOnFinish := clearOnFinish c;
     colorCodes := colorCodes c |}.

Definition with_writer (v : Writer) (c : config) : config :=
  {| max := max c; maxHumanized := maxHumanized c;
     maxHumanizedSuffix := maxHumanizedSuffix c; width := width c; writer := v;
     theme := theme c; renderWithBlankState := renderWithBlankState c;
     description := description c; ignoreLength := ignoreLength c;
     throttleDuration := throttleDuration c; spinnerType := spinnerType c;
     elapsedTime := elapsedTime c; predictTime := predictTime c;
     showBytes := showBytes c; showIterationsCount := showIterationsCount c;
     showDescriptionAtLineEnd := showDescriptionAtLineEnd c;
     onCompletion := onCompletion c; fullWidth := fullWidth c;
     useANSICodes := useANSICodes c; clearOnFinish := clearOnFinish c;
     colorCodes := colorCodes c |}.

Definition with_theme (v : Theme) (c : config) : config :=
  {| max := max c; maxHumanized := maxHumanized c;
     maxHumanizedSuffix := maxHumanizedSuffix c; width := width c; writer := writer c;
     theme := v; renderWithBlankState := renderWithBlankState c;
     description := description c; ignoreLength := ignoreLength c;
     throttleDuration := throttleDuration c; spinnerType := spinnerType c;
     elapsedTime := elapsedTime c; predictTime := predictTime c;
     showBytes := showBytes c; showIterationsCount := showIterationsCount c;
     showDescriptionAtLineEnd := showDescriptionAtLineEnd c;
     onCompletion := onCompletion c; fullWidth := fullWidth c;
     useANSICodes := useANSICodes c; clearOnFinish := clearOnFinish c;
     colorCodes := colorCodes c |}.

Definition with_renderWithBlankState (v : bool) (c : config) : config :=
  {| max := max c; maxHumanized := maxHumanized c;
     maxHumanizedSuffix := maxHumanizedSuffix c; width := width c; writer := writer c;
     theme := theme c; renderWithBlankState := v; description := description c;
     ignoreLength := ignoreLength c; throttleDuration := throttleDuration c;
     spinnerType := spinnerType c; elapsedTime := elapsedTime c;
     predictTime := predictTime c; showBytes := showBytes c;
     showIterationsCount := showIterationsCount c;
     showDescriptionAtLineEnd := showDescriptionAtLineEnd c;
     onCompletion := onCompletion c; fullWidth := fullWidth c;
     useANSICodes := useANSICodes c; clearOnFinish := clearOnFinish c;
     colorCodes := colorCodes c |}.

Definition with_description (v : string) (c : config) : config :=
  {| max := max c; maxHumanized := maxHumanized c;
     maxHumanizedSuffix := maxHumanizedSuffix c; width := width c; writer := writer c;
     theme := theme c; renderWithBlankState := renderWithBlankState c;
     description := v; ignoreLength := ignoreLength c;
     throttleDuration := throttleDuration c; spinnerType := spinnerType c;
     elapsedTime := elapsedTime c; predictTime := predictTime c;
     showBytes := showBytes c; showIterationsCount := showIterationsCount c;
     showDescriptionAtLineEnd := showDescriptionAtLineEnd c;
     onCompletion := onCompletion c; fullWidth := fullWidth c;
     useANSICodes := useANSICodes c; clearOnFinish := clearOnFinish c;
     colorCodes := colorCodes c |}.

Definition with_ignoreLength (v : bool) (c : config) : config :=
  {| max := max c; maxHumanized := maxHumanized c;
     maxHumanizedSuffix := maxHumanizedSuffix c; width := width c; writer := writer c;
     theme := theme c; renderWithBlankState := renderWithBlankState c;
     description := description c; ignoreLength := v;
     throttleDuration := throttleDuration c; spinnerType := spinnerType c;
     elapsedTime := elapsedTime c; predictTime := predictTime c;
     showBytes := showBytes c; showIterationsCount := showIterationsCount c;
     showDescriptionAtLineEnd := showDescriptionAtLineEnd c;
     onCompletion := onCompletion c; fullWidth := fullWidth c;
     useANSICodes := useANSICodes c; clearOnFinish := clearOnFinish c;
     colorCodes := colorCodes c |}.

Definition with_throttleDuration (v : Z) (c : config) : config :=
  {| max := max c; maxHumanized := maxHumanized c;
     maxHumanizedSuffix := maxHumanizedSuffix c; width := width c; writer := writer c;
     theme := theme c; renderWithBlankState := renderWithBlankState c;
     description := description c; ignoreLength := ignoreLength c;
     throttleDuration := v; spinnerType := spinnerType c; elapsedTime := elapsedTime c;
     predictTime := predictTime c; showBytes := showBytes c;
     showIterationsCount := showIterationsCount c;
     showDescriptionAtLineEnd := showDescriptionAtLineEnd c;
     onCompletion := onCompletion c; fullWidth := fullWidth c;
     useANSICodes := useANSICodes c; clearOnFinish := clearOnFinish c;
     colorCodes := colorCodes c |}.

Definition with_spinnerType (v : Z) (c : config) : config :=
  {| max := max c; maxHumanized := maxHumanized c;
     maxHumanizedSuffix := maxHumanizedSuffix c; width := width c; writer := writer c;
     theme := theme c; renderWithBlankState := renderWithBlankState c;
     description := description c; ignoreLength := ignoreLength c;
     throttleDuration := throttleDuration c; spinnerType := v;
     elapsedTime := elapsedTime c; predictTime := predictTime c;
     showBytes := showBytes c; showIterationsCount := showIterationsCount c;
     showDescriptionAtLineEnd := showDescriptionAtLineEnd c;
     onCompletion := onCompletion c; fullWidth := fullWidth c;
     useANSICodes := useANSICodes c; clearOnFinish := clearOnFinish c;
     colorCodes := colorCodes c |}.

Definition with_predictTime (v : bool) (c : config) : config :=
  {| max := max c; maxHumanized := maxHumanized c;
     maxHumanizedSuffix := maxHumanizedSuffix c; width := width c; writer := writer c;
     theme := theme c; renderWithBlankState := renderWithBlankState c;
     description := description c; ignoreLength := ignoreLength c;
     throttleDuration := throttleDuration c; spinnerType := spinnerType c;
     elapsedTime := elapsedTime c; predictTime := v; showBytes := showBytes c;
     showIterationsCount := showIterationsCount c;
     showDescriptionAtLineEnd := showDescriptionAtLineEnd c;
     onCompletion := onCompletion c; fullWidth := fullWidth c;
     useANSICodes := useANSICodes c; clearOnFinish := clearOnFinish c;
     colorCodes := colorCodes c |}.

Definition with_showBytes (v : bool) (c : config) : config :=
  {| max := max c; maxHumanized := maxHumanized c;
     maxHumanizedSuffix := maxHumanizedSuffix c; width := width c; writer := writer c;
     theme := theme c; renderWithBlankState := renderWithBlankState c;
     description := description c; ignoreLength := ignoreLength c;
     throttleDuration := throttleDuration c; spinnerType := spinnerType c;
     elapsedTime := elapsedTime c; predictTime := predictTime c; showBytes := v;
     showIterationsCount := showIterationsCount c;
     showDescriptionAtLineEnd := showDescriptionAtLineEnd c;
     onCompletion := onCompletion c; fullWidth := fullWidth c;
     useANSICodes := useANSICodes c; clearOnFinish := clearOnFinish c;
     colorCodes := colorCodes c |}.

Definition with_showIterationsCount (v : bool) (c : config) : config :=
  {| max := max c; maxHumanized := maxHumanized c;
     maxHumanizedSuffix := maxHumanizedSuffix c; width := width c; writer := writer c;
     theme := theme c; renderWithBlankState := renderWithBlankState c;
     description := description c; ignoreLength := ignoreLength c;
     throttleDuration := throttleDuration c; spinnerType := spinnerType c;
     elapsedTime := elapsedTime c; predictTime := predictTime c;
     showBytes := showBytes c; showIterationsCount := v;
     showDescriptionAtLineEnd := showDescriptionAtLineEnd c;
     onCompletion := onCompletion c; fullWidth := fullWidth c;
     useANSICodes := useANSICodes c; clearOnFinish := clearOnFinish c;
     colorCodes := colorCodes c |}.

Definition with_onCompletion (v : option callback) (c : config) : config :=
  {| max := max c; maxHumanized := maxHumanized c;
     maxHumanizedSuffix := maxHumanizedSuffix c; width := width c; writer := writer c;
     theme := theme c; renderWithBlankState := renderWithBlankState c;
     description := description c; ignoreLength := ignoreLength c;
     throttleDuration := throttleDuration c; spinnerType := spinnerType c;
     elapsedTime := elapsedTime c; predictTime := predictTime c;
     showBytes := showBytes c; showIterationsCount := showIterationsCount c;
     showDescriptionAtLineEnd := showDescriptionAtLineEnd c; onCompletion := v;
     fullWidth := fullWidth c; useANSICodes := useANSICodes c;
     clearOnFinish := clearOnFinish c; colorCodes := colorCodes c |}.

Definition with_fullWidth (v : bool) (c : config) : config :=
  {| max := max c; maxHumanized := maxHumanized c;
     maxHumanizedSuffix := maxHumanizedSuffix c; width := width c; writer := writer c;
     theme := theme c; renderWithBlankState := renderWithBlankState c;
     description := description c; ignoreLength := ignoreLength c;
     throttleDuration := throttleDuration c; spinnerType := spinnerType c;
     elapsedTime := elapsedTime c; predictTime := predictTime c;
     showBytes := showBytes c; showIterationsCount := showIterationsCount c;
     showDescriptionAtLineEnd := showDescriptionAtLineEnd c;
     onCompletion := onCompletion c; fullWidth := v; useANSICodes := useANSICodes c;
     clearOnFinish := clearOnFinish c; colorCodes := colorCodes c |}.

Definition with_colorCodes (v : bool) (c : config) : config :=
  {| max := max c; maxHumanized := maxHumanized c;
     maxHumanizedSuffix := maxHumanizedSuffix c; width := width c; writer := writer c;
     theme := theme c; renderWithBlankState := renderWithBlankState c;
     description := description c; ignoreLength := ignoreLength c;
     throttleDuration := throttleDuration c; spinnerType := spinnerType c;
     elapsedTime := elapsedTime c; predictTime := predictTime c;
     showBytes := showBytes c; showIterationsCount := showIterationsCount c;
     showDescriptionAtLineEnd := showDescriptionAtLineEnd c;
     onCompletion := onCompletion c; fullWidth := fullWidth c;
     useANSICodes := useANSICodes c; clearOnFinish := clearOnFinish c;
     colorCodes := v |}.

Definition with_elapsedTime (v : bool) (c : config) : config :=
  {| max := max c; maxHumanized := maxHumanized c;
     maxHumanizedSuffix := maxHumanizedSuffix c; width := width c; writer := writer c;
     theme := theme c; renderWithBlankState := renderWithBlankState c;
     description := description c; ignoreLength := ignoreLength c;
     throttleDuration := throttleDuration c; spinnerType := spinnerType c;
     elapsedTime := v; predictTime := predictTime c; showBytes := showBytes c;
     showIterationsCount := showIterationsCount c;
     showDescriptionAtLineEnd := showDescriptionAtLineEnd c;
     onCompletion := onCompletion c; fullWidth := fullWidth c;
     useANSICodes := useANSICodes c; clearOnFinish := clearOnFinish c;
     colorCodes := colorCodes c |}.

Definition with_showDescriptionAtLineEnd (v : bool) (c : config) : config :=
  {| max := max c; maxHumanized := maxHumanized c;
     maxHumanizedSuffix := maxHumanizedSuffix c; width := width c; writer := writer c;
     theme := theme c; renderWithBlankState := renderWithBlankState c;
     description := description c; ignoreLength := ignoreLength c;
     throttleDuration := throttleDuration c; spinnerType := spinnerType c;
     elapsedTime := elapsedTime c; predictTime := predictTime c;
     showBytes := showBytes c; showIterationsCount := showIterationsCount c;
     showDescriptionAtLineEnd := v; onCompletion := onCompletion c;
     fullWidth := fullWidth c; useANSICodes := useANSICodes c;
     clearOnFinish := clearOnFinish c; colorCodes := colorCodes c |}.

Definition with_useANSICodes (v : bool) (c : config) : config :=
  {| max := max c; maxHumanized := maxHumanized c;
     maxHumanizedSuffix := maxHumanizedSuffix c; width := width c; writer := writer c;
     theme := theme c; renderWithBlankState := renderWithBlankState c;
     description := description c; ignoreLength := ignoreLength c;
     throttleDuration := throttleDuration c; spinnerType := spinnerType c;
     elapsedTime := elapsedTime c; predictTime := predictTime c;
     showBytes := showBytes c; showIterationsCount := showIterationsCount c;
     showDescriptionAtLineEnd := showDescriptionAtLineEnd c;
     onCompletion := onCompletion c; fullWidth := fullWidth c; useANSICodes := v;
     clearOnFinish := clearOnFinish c; colorCodes := colorCodes c |}.

Definition with_clearOnFinish (v : bool) (c : config) : config :=
  {| max := max c; maxHumanized := maxHumanized c;
     maxHumanizedSuffix := maxHumanizedSuffix c; width := width c; writer := writer c;
     theme := theme c; renderWithBlankState := renderWithBlankState c;
     description := description c; ignoreLength := ignoreLength c;
     throttleDuration := throttleDuration c; spinnerType := spinnerType c;
     elapsedTime := elapsedTime c; predictTime := predictTime c;
     showBytes := showBytes c; showIterationsCount := showIterationsCount c;
     showDescriptionAtLineEnd := showDescriptionAtLineEnd c;
     onCompletion := onCompletion c; fullWidth := fullWidth c;
     useANSICodes := useANSICodes c; clearOnFinish := v; colorCodes := colorCodes c |}.

(** *** The operations *)

Notation "x <- m ;; k" := (bind m (fun x => k))
  (at level 61, m at next level, right associativity).
Notation "' p <- m ;; k" := (bind m (fun x => match x with p => k end))
  (at level 61, p pattern, m at next level, right associativity).

Section Operations.

Variable E : env.

(** [time.Now] takes the next reading of the clock. *)
Definition time_Now (w : world) : outcome Z :=
  Done (clock E (ticks w))
       {| ticks := S (ticks w); writes := writes w; trace := trace w |}.

(** [time.Since]. *)
Definition time_Since (t : Z) (w : world) : outcome Z :=
  (now <- time_Now w ;; Done (Sub now t)).

Definition log_event (e : event) (w : world) : world :=
  {| ticks := ticks w; writes := writes w; trace := trace w ++ [e] |}.

(** [writeString]: one write to the configured sink.  The [Sync] that
    follows a write to an [*os.File] has its error dropped and leaves
    nothing to observe. *)
Definition writeString (c : config) (str : string) (w : world) : outcome (option error) :=
  let w' := {| ticks := ticks w; writes := S (writes w); trace := trace w |} in
  if writer c (writes w)
  then Done None (log_event (Wrote str) w')
  else Done (Some ErrWrite) (log_event (WriteFailed str) w').

Definition ESC : string := String (ascii_of_nat 27) "".
Definition CR : string := String (ascii_of_nat 13) "".

Definition clearProgressBar (c : config) (s : state) (w : world) : outcome (option error) :=
  if maxLineWidth s =? 0 then Done None w
  else if useANSICodes c then writeString c (ESC ++ "[2K" ++ CR) w
  else if maxLineWidth s <? 0 then Panic w   (* strings.Repeat: negative count *)
  else writeString c (CR ++ Repeat " " (maxLineWidth s) ++ CR) w.

Definition sizes : list string := [" B"; " KB"; " MB"; " GB"; " TB"; " PB"; " EB"].

(** [math.Floor(logn(s, 1024))].  [math.Log] is the Go library's; its
    quotient is taken exact here, so this is the largest [e] with
    [1024^e <= s] for a positive finite [s] (the quotient of equal
    logarithms at [s = 1024] is exactly 1 in floating point as well). *)
Definition floor_logn (s : float64) : float64 :=
  match s with
  | S754_finite false m e => of_int ((Z.log2 (Z.pos m) + e) / 10)
  | S754_finite true _ _ => S754_nan
  | S754_zero _ => S754_infinity true
  | S754_infinity false => S754_infinity false
  | S754_infinity true => S754_nan
  | S754_nan => S754_nan
  end.

(** [math.Pow(1024, e)] at the integral [e] that index [sizes]. *)
Definition pow_base (e : float64) : float64 := of_int (1024 ^ to_int e).

(** [None] is the index-out-of-range panic of [sizes[int(e)]]. *)
Definition humanizeBytes (s : float64) : option (string * string) :=
  if ltb s (of_int 10) then Some (ftoa_w 2 0 s, " B")
  else
    let e := floor_logn s in
    if to_int e <? 0 then None
    else
      match nth_error sizes (Z.to_nat (to_int e)) with
      | None => None
      | Some suffix =>
          let val := div (floor (add (mul (div s (pow_base e)) (of_int 10)) half)) (of_int 10) in
          Some ((if ltb val (of_int 10) then ftoa 1 val else ftoa 0 val), suffix)
      end.

Definition average (xs : list float64) : float64 :=
  div (fold_left add xs zero) (of_int (Z.of_nat (List.length xs))).

(** [termWidth]: its last return drops the error, so it never fails. *)
Definition termWidth : Z * option error :=
  match term_stdout E with
  | Some width => (width, None)
  | None =>
      match term_stderr E with
      | Some width => (width, None)
      | None => (0, None)
      end
  end.

(** Removal of every carriage return. *)
Fixpoint drop_CR (str : string) : string :=
  match str with
  | EmptyString => EmptyString
  | String a rest => if Ascii.eqb a (ascii_of_nat 13) then drop_CR rest else String a (drop_CR rest)
  end.

Definition is_param (a : ascii) : bool :=
  let n := nat_of_ascii a in
  ((48 <=? n) && (n <=? 59) && negb (n =? 58))%nat.

Definition is_letter (a : ascii) : bool :=
  let n := nat_of_ascii a in
  (((65 <=? n) && (n <=? 90)) || ((97 <=? n) && (n <=? 122)))%nat.

(** Where the scan of [ansiRegex] stands: outside a candidate, after the
    escape character, or inside the parameters after the bracket, with the
    text held back so far. *)
Inductive ansi_scan : Type :=
| Outside
| AfterEsc
| InParams (held : string).

(** [ansiRegex.ReplaceAllString(str, empty)]: every escape sequence, an
    escape character, a bracket, digits and semicolons, and one letter,
    removed. *)
Fixpoint strip_ansi (st : ansi_scan) (str : string) : string :=
  match str with
  | EmptyString =>
      match st with
      | Outside => EmptyString
      | AfterEsc => ESC
      | InParams held => held
      end
  | String a rest =>
      match st with
      | Outside =>
          if Ascii.eqb a (ascii_of_nat 27) then strip_ansi AfterEsc rest
          else String a (strip_ansi Outside rest)
      | AfterEsc =>
          if Ascii.eqb a (ascii_of_nat 91) then strip_ansi (InParams (ESC ++ "[")) rest
          else if Ascii.eqb a (ascii_of_nat 27) then ESC ++ strip_ansi AfterEsc rest
          else ESC ++ String a (strip_ansi Outside rest)
      | InParams held =>
          if is_param a then strip_ansi (InParams (held ++ String a "")) rest
          else if is_letter a then strip_ansi Outside rest
          else if Ascii.eqb a (ascii_of_nat 27) then held ++ strip_ansi AfterEsc rest
          else held ++ String a (strip_ansi Outside rest)
      end
  end.

Definition getStringWidth (c : config) (str : string) (colorize : bool) : Z :=
  let str := if colorCodes c then Color E str else str in
  let cleanString := drop_CR str in
  let cleanString := if colorCodes c then strip_ansi Outside cleanString else cleanString in
  StringWidth E cleanString.

(** The rate shown and used for the prediction (lines 442-451). *)
Definition averageRate_of (s : state) (w : world) : outcome float64 :=
  let averageRate := average (counterLastTenRates s) in
  if (Nat.eqb (List.length (counterLastTenRates s)) 0) || finished s then
    (since <- time_Since (startTime s) w ;;
     let t := Seconds since in
     Done (if ltb zero t then div (currentBytes s) t else zero))
  else Done averageRate w.

(** The iteration count of the trailing info (lines 460-480); [None] is
    the panic of [humanizeBytes]. *)
Definition iterations_text (c : config) (s : state) : option string :=
  if negb (ignoreLength c) then
    if showBytes c then
      match humanizeBytes (currentBytes s) with
      | None => None
      | Some (currentHumanize, currentSuffix) =>
          if String.eqb currentSuffix (maxHumanizedSuffix c)
          then Some (currentHumanize ++ "/" ++ maxHumanized c ++ maxHumanizedSuffix c)
          else Some (currentHumanize ++ currentSuffix ++ "/"
                       ++ maxHumanized c ++ maxHumanizedSuffix c)
      end
    else Some (ftoa 0 (currentBytes s) ++ "/" ++ itoa (max c))
  else
    if showBytes c then
      match humanizeBytes (currentBytes s) with
      | None => None
      | Some (currentHumanize, currentSuffix) => Some (currentHumanize ++ currentSuffix)
      end
    else Some (ftoa 0 (currentBytes s) ++ "/" ++ "-").

(** The parenthesised trailing info, the builder [sb] (lines 453-496). *)
Definition trailing_info (c : config) (s : state) (averageRate : float64) : option string :=
  match (if showIterationsCount c
         then match iterations_text c s with
              | None => None
              | Some t => Some ("(" ++ t)
              end
         else Some "") with
  | None => None
  | Some sb =>
      match (if showBytes c && ltb zero averageRate && negb (is_pos_inf averageRate)
             then match humanizeBytes averageRate with
                  | None => None
                  | Some (currentHumanize, currentSuffix) =>
                      Some (sb ++ (if len sb =? 0 then "(" else ", ")
                               ++ currentHumanize ++ currentSuffix ++ "/s")
                  end
             else Some sb) with
      | None => None
      | Some sb => Some (if 0 <? len sb then sb ++ ")" else sb)
      end
  end.

(** [rightBrac], the predicted remaining time (lines 505-510); empty when
    the prediction is off. *)
Definition predicted (c : config) (s : state) (averageRate : float64) : string :=
  if predictTime c then
    let rightBracNum :=
      Int64.mul (to_int (mul (div one averageRate)
                             (sub (of_int (max c)) (of_int (currentNum s))))) Second in
    let rightBracNum := if ltb (Seconds rightBracNum) zero then 0 else rightBracNum in
    Duration_String rightBracNum
  else "".

(** [leftBrac] and [rightBrac] (lines 503-514): the prediction falls
    through to the elapsed time. *)
Definition brackets (c : config) (s : state) (averageRate : float64) (w : world)
  : outcome (string * string) :=
  let rightBrac := predicted c s averageRate in
  if predictTime c || elapsedTime c then
    (since <- time_Since (startTime s) w ;;
     Done (Duration_String (Int64.mul (to_int (Seconds since)) Second), rightBrac))
  else Done ("", rightBrac) w.

(** The width of the fill track and the fill length once the bar is
    fitted to the terminal (lines 516-537); the configuration is a local
    copy, so the new width lives for this call only. *)
Definition fit_width (c : config) (s : state) (sb leftBrac rightBrac : string) : Z * state :=
  if fullWidth c && negb (ignoreLength c) then
    let '(width_, err) := termWidth in
    let width_ := match err with Some _ => 80 | None => width_ end in
    let amend :=
      if negb (String.eqb leftBrac "") && negb (String.eqb rightBrac "") then 4
      else if negb (String.eqb leftBrac "") && String.eqb rightBrac "" then 4
      else if String.eqb leftBrac "" && negb (String.eqb rightBrac "") then 3
      else 1 in
    let amend := if showDescriptionAtLineEnd c then amend + 1 else amend in
    let cwidth :=
      Int64.wrap (width_ - getStringWidth c (description c) true - 10 - amend
                  - len sb - len leftBrac - len rightBrac) in
    (cwidth,
     set_currentSaucerSize
       (to_int (mul (div (of_int (currentPercent s)) (of_int 100)) (of_int cwidth))) s)
  else (width c, s).

(** The fill and its head (lines 538-557). *)
Definition saucer_parts (c : config) (cwidth : Z) (s : state) : string * string * state :=
  if 0 <? currentSaucerSize s then
    let saucer :=
      if ignoreLength c then Repeat (SaucerPadding (theme c)) (currentSaucerSize s - 1)
      else Repeat (Saucer (theme c)) (currentSaucerSize s - 1) in
    if negb (String.eqb (AltSaucerHead (theme c)) "") && isAltSaucerHead s then
      (saucer, AltSaucerHead (theme c), set_isAltSaucerHead false s)
    else if String.eqb (SaucerHead (theme c)) "" || (currentSaucerSize s =? cwidth) then
      (saucer, Saucer (theme c), s)
    else (saucer, SaucerHead (theme c), set_isAltSaucerHead true s)
  else ("", "", s).

(** The percentage, the bar and the trailing info: what the three
    known-length formats share, [%4d%% %s%s%s%s%s %s]. *)
Definition bar_text (c : config) (s : state) (saucer saucerHead : string)
    (repeatAmount : Z) (sb : string) : string :=
  itoa_w 4 (currentPercent s) ++ "% " ++ BarStart (theme c) ++ saucer ++ saucerHead
    ++ Repeat (SaucerPadding (theme c)) repeatAmount ++ BarEnd (theme c) ++ " " ++ sb.

(** The spinner frame of an unknown-length line (line 575). *)
Definition spinner_frame (c : config) (s : state) (w : world) : outcome string :=
  if spinnerType c <? 0 then Panic w
  else
    match nth_error (spinners E) (Z.to_nat (spinnerType c)) with
    | None => Panic w
    | Some frames =>
        (since <- time_Since (startTime s) w ;;
         fun w =>
         let i := to_int (round (fmod (of_int (Int64.quo (Milliseconds since) 100))
                                      (of_int (Z.of_nat (List.length frames))))) in
         if i <? 0 then Panic w
         else match nth_error frames (Z.to_nat i) with
              | None => Panic w
              | Some spinner => Done spinner w
              end)
    end.

(** The line itself (lines 572-646). *)
Definition assemble (c : config) (s : state) (saucer saucerHead : string)
    (repeatAmount : Z) (sb leftBrac rightBrac : string) (w : world) : outcome string :=
  if ignoreLength c then
    (spinner <- spinner_frame c s w ;;
     Done
       (if elapsedTime c then
          if showDescriptionAtLineEnd c
          then CR ++ spinner ++ " " ++ sb ++ " [" ++ leftBrac ++ "] " ++ description c ++ " "
          else CR ++ spinner ++ " " ++ description c ++ " " ++ sb ++ " [" ++ leftBrac ++ "] "
        else
          if showDescriptionAtLineEnd c
          then CR ++ spinner ++ " " ++ sb ++ " " ++ description c ++ " "
          else CR ++ spinner ++ " " ++ description c ++ " " ++ sb ++ " "))
  else if String.eqb rightBrac "" then
    let str := bar_text c s saucer saucerHead repeatAmount sb in
    Done (if showDescriptionAtLineEnd c
          then CR ++ str ++ " " ++ description c ++ " "
          else CR ++ description c ++ str ++ " ") w
  else
    let str :=
      if currentPercent s =? 100
      then bar_text c s saucer saucerHead repeatAmount sb
      else bar_text c s saucer saucerHead repeatAmount sb
             ++ " [" ++ leftBrac ++ ":" ++ rightBrac ++ "]" in
    Done (if showDescriptionAtLineEnd c
          then CR ++ str ++ " " ++ description c
          else CR ++ description c ++ str) w.

(** [renderProgressBar]: the width of the line drawn and the error of the
    write, with the state it leaves. *)
Definition renderProgressBar (c : config) (s : state) (w : world)
  : outcome (Z * option error * state) :=
  averageRate <- averageRate_of s w ;;
  fun w =>
  match trailing_info c s averageRate with
  | None => Panic w
  | Some sb =>
      ' (leftBrac, rightBrac) <- brackets c s averageRate w ;;
      fun w =>
      let '(cwidth, s) := fit_width c s sb leftBrac rightBrac in
      let '(saucer, saucerHead, s) := saucer_parts c cwidth s in
      let repeatAmount := Int64.sub cwidth (currentSaucerSize s) in
      let repeatAmount := if repeatAmount <? 0 then 0 else repeatAmount in
      str <- assemble c s saucer saucerHead repeatAmount sb leftBrac rightBrac w ;;
      fun w =>
      let str := if colorCodes c then Color E str else str in
      let s := set_rendered str s in
      let stringWidth := getStringWidth c str false in
      err <- writeString c str w ;;
      Done (stringWidth, err, s)
  end.

(** [render]; it runs with the lock held by its caller. *)
Definition render (c : config) (s : state) (w : world) : outcome (option error * state) :=
  since <- time_Since (lastShown s) w ;;
  fun w =>
  if (Nanoseconds since <? Nanoseconds (throttleDuration c)) && (currentNum s <? max c)
  then Done (None, s) w
  else
    err <- (if negb (useANSICodes c) then clearProgressBar c s w else Done None w) ;;
    fun w =>
    match err with
    | Some e => Done (Some e, s) w
    | None =>
        s <- (if negb (finished s) && (max c <=? currentNum s) then
                let s := set_finished true s in
                s <- (if negb (clearOnFinish c)
                      then (r <- renderProgressBar c s w ;; Done (snd r))
                      else Done s w) ;;
                fun w =>
                match onCompletion c with
                | Some f => Done s (log_event (Called f) w)
                | None => Done s w
                end
              else Done s w) ;;
        fun w =>
        if finished s then
          if useANSICodes c && clearOnFinish c then
            (err <- clearProgressBar c s w ;; Done (err, s))
          else Done (None, s) w
        else
          ' (w_, err, s) <- renderProgressBar c s w ;;
          fun w =>
          match err with
          | Some e => Done (Some e, s) w
          | None =>
              let s := if maxLineWidth s <? w_ then set_maxLineWidth w_ s else s in
              (now <- time_Now w ;; Done (None, set_lastShown now s))
          end
    end.

(** [RenderBlank]. *)
Definition RenderBlank (c : config) (s : state) (w : world) : outcome (option error * state) :=
  let s := if currentNum s =? 0 then set_lastShown zero_Time s else s in
  render c s w.

(** The rolling-rate bookkeeping of [Add64] (lines 315-324): the window
    is closed, and its rate pushed, once more than half a second has
    passed since it was opened. *)
Definition roll_rates (s : state) (w : world) : outcome state :=
  since <- time_Since (counterTime s) w ;;
  fun w =>
  if ltb half (Seconds since) then
    (since <- time_Since (counterTime s) w ;;
     fun w =>
     let rates :=
       (counterLastTenRates s
          ++ [div (of_int (counterNumSinceLast s)) (Seconds since)])%list in
     let rates := if (10 <? List.length rates)%nat then tl rates else rates in
     let s := set_counterLastTenRates rates s in
     now <- time_Now w ;;
     Done (set_counterNumSinceLast 0 (set_counterTime now s)))
  else Done s w.

(** The count update of [Add64] (lines 305-311). *)
Definition count_step (c : config) (num : Z) (s : state) : state :=
  if currentNum s <? max c then
    if ignoreLength c
    then set_currentNum (Int64.rem (Int64.add (currentNum s) num) (max c)) s
    else set_currentNum (Int64.add (currentNum s) num) s
  else s.

(** [int(percent * 100)] for a count and a maximum (lines 326 and 328). *)
Definition percent_of (count max_ : Z) : Z :=
  to_int (mul (div (of_int count) (of_int max_)) (of_int 100)).

(** The fill length, the percentage and the redraw flag [updateBar]
    (lines 326-331). *)
Definition percent_step (c : config) (s : state) : state * bool :=
  let percent := div (of_int (currentNum s)) (of_int (max c)) in
  let s := set_currentSaucerSize (to_int (mul percent (of_int (width c)))) s in
  let s := set_currentPercent (percent_of (currentNum s) (max c)) s in
  let updateBar :=
    negb (currentPercent s =? lastPercent s) && (0 <? currentPercent s) in
  (set_lastPercent (currentPercent s) s, updateBar).

(** [Add64]; the mutex it takes serialises callers and is not part of this
    sequential model. *)
Definition Add64 (c : config) (num : Z) (s : state) (w : world)
  : outcome (option error * state) :=
  if exit s then Done (None, s) w
  else if max c =? 0 then Done (Some ErrMaxZero, s) w
  else
    let s := count_step c num s in
    let s := set_currentBytes (add (currentBytes s) (of_int num)) s in
    let s := set_counterNumSinceLast (Int64.add (counterNumSinceLast s) num) s in
    s <- roll_rates s w ;;
    fun w =>
    let '(s, updateBar) := percent_step c s in
    if max c <? currentNum s then Done (Some ErrExceedsMax, s) w
    else if updateBar || showIterationsCount c then render c s w
    else Done (None, s) w.

(** [Add]. *)
Definition Add (c : config) (num : Z) (s : state) (w : world)
  : outcome (option error * state) :=
  Add64 c (Int64.wrap num) s w.

(** [String]. *)
Definition String_ (s : state) : string := rendered s.

(** [getBasicState]. *)
Definition getBasicState (w : world) : outcome state :=
  now <- time_Now w ;;
  Done {| currentNum := 0; currentPercent := 0; lastPercent := 0;
          currentSaucerSize := 0; isAltSaucerHead := false;
          startTime := now; lastShown := now; counterTime := now;
          counterNumSinceLast := 0; counterLastTenRates := [];
          maxLineWidth := 0; currentBytes := zero; finished := false;
          exit := false; rendered := "" |}.

(** The options: each is a function on the bar that assigns one field of
    its configuration. *)
Inductive Option : Type :=
| OptionSetWidth (width : Z)
| OptionSpinnerType (spinnerType : Z)
| OptionSetTheme (t : Theme)
| OptionSetDescription (description : string)
| OptionSetWriter (w : Writer)
| OptionShowBytes (val : bool)
| OptionThrottle (duration : Z)
| OptionShowCount
| OptionOnCompletion (cmpl : callback)
| OptionFullWidth
| OptionSetRenderBlankState (r : bool)
| OptionEnableColorCodes (colorCodes : bool).

Definition apply_option (c : config) (o : Option) : config :=
  match o with
  | OptionSetWidth v => with_width v c
  | OptionSpinnerType v => with_spinnerType v c
  | OptionSetTheme v => with_theme v c
  | OptionSetDescription v => with_description v c
  | OptionSetWriter v => with_writer v c
  | OptionShowBytes v => with_showBytes v c
  | OptionThrottle v => with_throttleDuration v c
  | OptionShowCount => with_showIterationsCount true c
  | OptionOnCompletion v => with_onCompletion (Some v) c
  | OptionFullWidth => with_fullWidth true c
  | OptionSetRenderBlankState v => with_renderWithBlankState v c
  | OptionEnableColorCodes v => with_colorCodes v c
  end.

(** The full block U+2588, in UTF-8. *)
Definition full_block : string :=
  String (ascii_of_nat 226) (String (ascii_of_nat 150) (String (ascii_of_nat 136) "")).

Definition defaultTheme : Theme :=
  {| Saucer := full_block; AltSaucerHead := ""; SaucerHead := "";
     SaucerPadding := " "; BarStart := "|"; BarEnd := "|" |}.

(** [NewOptions64]; the panic is the one for a spinner type outside 0..75. *)
Definition NewOptions64 (max_ : Z) (options : list Option) (w : world)
  : outcome (config * state) :=
  s <- getBasicState w ;;
  fun w =>
  let c :=
    {| max := max_; maxHumanized := ""; maxHumanizedSuffix := ""; width := 40;
       writer := Stdout E; theme := defaultTheme; renderWithBlankState := false;
       description := ""; ignoreLength := false; throttleDuration := 0 * Nanosecond;
       spinnerType := 9; elapsedTime := true; predictTime := true; showBytes := false;
       showIterationsCount := false; showDescriptionAtLineEnd := false;
       onCompletion := None; fullWidth := false; useANSICodes := false;
       clearOnFinish := false; colorCodes := false |} in
  let c := fold_left apply_option options c in
  if (spinnerType c <? 0) || (75 <? spinnerType c) then Panic w
  else
    let c :=
      if max c =? -1
      then with_predictTime false (with_max (width c) (with_ignoreLength true c))
      else c in
    match humanizeBytes (of_int (max c)) with
    | None => Panic w
    | Some (h, suffix) =>
        let c := with_maxHumanizedSuffix suffix (with_maxHumanized h c) in
        if renderWithBlankState c
        then (r <- RenderBlank c s w ;; Done (c, snd r))
        else Done (c, s) w
    end.

(** The callback [Default] installs: it prints a newline to the standard
    error stream. *)
Definition newline_callback : callback := Callback 0.

(** [Default]. *)
Definition Default (max_ : Z) (description_ : list string) (w : world)
  : outcome (config * state) :=
  let desc := match description_ with d :: _ => d | [] => "" end in
  NewOptions64 max_
    [ OptionSetDescription desc; OptionSetWriter (Stderr E); OptionShowBytes true;
      OptionSetWidth 10; OptionThrottle (65 * Millisecond); OptionShowCount;
      OptionOnCompletion newline_callback; OptionSpinnerType 14; OptionFullWidth;
      OptionSetRenderBlankState true ] w.

(** A caller's loop: one [Add64] per element, the errors kept in order. *)
Fixpoint AddAll (c : config) (nums : list Z) (s : state) (w : world)
  : outcome (list (option error) * state) :=
  match nums with
  | [] => Done ([], s) w
  | num :: rest =>
      ' (err, s) <- Add64 c num s w ;;
      fun w =>
      ' (errs, s) <- AddAll c rest s w ;;
      Done (err :: errs, s)
  end.

End Operations.

(** The deltas of a loop of [n] unit increments. *)
Definition ones (n : nat) : list Z := repeat 1 n.

Definition is_call (e : event) : bool :=
  match e with Called _ => true | _ => false end.

(** The number of times the completion callback has run. *)
Definition completions (w : world) : nat := List.length (filter is_call (trace w)).

(** The trace entry of a write of [str] that returned [err]. *)
Definition write_event (err : option error) (str : string) : event :=
  match err with None => Wrote str | Some _ => WriteFailed str end.

(** The text the sink has accepted, in order. *)
Definition written (w : world) : list string :=
  flat_map (fun e => match e with Wrote str => [str] | _ => [] end) (trace w).

Definition new_world : world := {| ticks := 0; writes := 0; trace := [] |}.

End Progressbar.

(** ** A concrete environment to run the model in

    A clock that advances ten milliseconds at every reading, sinks that
    accept everything, an 80-column terminal, no colour markup, one column
    per code point, and 76 three-frame spinners standing in for the table. *)
Module Demo.

Import F64 Go Progressbar.

(** The number of UTF-8 code points: every byte but the continuations. *)
Fixpoint rune_count (str : string) : Z :=
  match str with
  | EmptyString => 0
  | String a rest =>
      let n := nat_of_ascii a in
      (if ((128 <=? n) && (n <=? 191))%nat then 0 else 1) + rune_count rest
  end.

Definition env0 : env :=
  {| clock := fun n => 1700000000 * Second + Z.of_nat n * (10 * Millisecond);
     Stdout := fun _ => true;
     Stderr := fun _ => true;
     term_stdout := Some 80;
     term_stderr := Some 80;
     Color := fun str => str;
     StringWidth := rune_count;
     spinners := repeat ["|"; "/"; "-"] 76 |}.

(** The same, with a sink that accepts its first write only. *)
Definition failing_sink : Writer := fun n => Nat.eqb n 0.


End Demo.

(** ** The example program

    The first example of the repository: a default bar of 50 steps and a
    loop of 50 calls of [Add(1)], each followed by a sleep.  The sleep
    shows in the clock readings only, which the environment gives; the
    errors the program drops are kept here, in order. *)
Module Programs.

Import F64 Go Progressbar.

(** [for i := 0; i < n; i++ { _ = bar.Add(1); time.Sleep(...) }]. *)
Fixpoint add_loop (E : env) (c : config) (n : nat) (s : state) (w : world)
  : outcome (list (option error) * state) :=
  match n with
  | O => Done ([], s) w
  | S k =>
      ' (err, s) <- Add E c 1 s w ;;
      fun w =>
      ' (errs, s) <- add_loop E c k s w ;;
      Done (err :: errs, s)
  end.

(** [main]. *)
Definition main_default (E : env) (w : world)
  : outcome (config * list (option error) * state) :=
  ' (c, s) <- Default E 50 [] w ;;
  fun w =>
  ' (errs, s) <- add_loop E c 50 s w ;;
  Done (c, errs, s).

End Programs.

(** ** Notions the properties are stated with *)
Module Notions.

Import F64 Go Progressbar.

(** The fields drawing never assigns. *)
Definition counters (s : state) :=
  (currentNum s, currentPercent s, lastPercent s, startTime s, counterTime s,
   counterNumSinceLast s, counterLastTenRates s, currentBytes s, exit s).

(** The fields [renderProgressBar] never assigns. *)
Definition undrawn (s : state) :=
  (counters s, finished s, maxLineWidth s, lastShown s).

(** The only error drawing can return is the sink's, and only a sink
    that refuses some write gives it. *)
Definition sink_error (c : config) (err : option error) : Prop :=
  err = None \/ (err = Some ErrWrite /\ exists n, writer c n = false).

(** The state [Add64] hands to the rate bookkeeping. *)
Definition counted (c : config) (num : Z) (s : state) : state :=
  set_counterNumSinceLast (Int64.add (counterNumSinceLast (count_step c num s)) num)
    (set_currentBytes (add (currentBytes (count_step c num s)) (of_int num))
       (count_step c num s)).

(** What holds of every tracker the constructor returned, whatever was
    added since: nothing has halted it, and a maximum of zero has kept the
    count at zero. *)
Definition tracked (c : config) (s : state) : Prop :=
  exit s = false /\ (max c = 0 -> currentNum s = 0).


(** The blanking text of the plain clear: a carriage return, as many
    spaces as the widest line so far, and a carriage return. *)
Definition blank_text (s : state) : string := CR ++ Repeat " " (maxLineWidth s) ++ CR.

(** The erase-line sequence of the ANSI clear. *)
Definition erase_text : string := ESC ++ "[2K" ++ CR.




(** A known-length tracker that shows no byte counts, with a sane
    blanking width: the trackers whose calls are shown below to return
    whatever the clock and the sink do. *)
Definition drawable (c : config) (s : state) : Prop :=
  showBytes c = false /\ ignoreLength c = false /\ 0 <= maxLineWidth s.

(** How often the completion callback of a bar in this state has run by
    rights: once when the bar is finished and a callback is configured. *)
Definition due (c : config) (s : state) : nat :=
  if finished s then match onCompletion c with Some _ => 1%nat | None => 0%nat end
  else 0%nat.

(** The fields the bookkeeping of [Add64] (count, bytes, rates and
    percentage) never assigns: they change in [render] only. *)
Definition display (s : state) :=
  (rendered s, maxLineWidth s, finished s, lastShown s, isAltSaucerHead s,
   startTime s, exit s).

(** Text without the escape character. *)
Fixpoint plain (str : string) : bool :=
  match str with
  | EmptyString => true
  | String a rest => negb (Ascii.eqb a (ascii_of_nat 27)) && plain rest
  end.

(** Text of digits and semicolons only. *)
Fixpoint all_params (str : string) : bool :=
  match str with
  | EmptyString => true
  | String a rest => is_param a && all_params rest
  end.

(** What [ansiRegex] matches: the escape character, a bracket, digits
    and semicolons, and one letter. *)
Definition escape_sequence (params : string) (letter : ascii) : string :=
  ESC ++ "[" ++ params ++ String letter "".

(** The configuration of [NewOptions64] once the options have been
    applied to its initial settings (lines 209-225), before the spinner
    type is checked and the unknown length resolved. *)
Definition configured (E : env) (max_ : Z) (options : list Option) : config :=
  fold_left apply_option options
    {| max := max_; maxHumanized := ""; maxHumanizedSuffix := ""; width := 40;
       writer := Stdout E; theme := defaultTheme; renderWithBlankState := false;
       description := ""; ignoreLength := false; throttleDuration := 0 * Nanosecond;
       spinnerType := 9; elapsedTime := true; predictTime := true; showBytes := false;
       showIterationsCount := false; showDescriptionAtLineEnd := false;
       onCompletion := None; fullWidth := false; useANSICodes := false;
       clearOnFinish := false; colorCodes := false |}.


End Notions.

(** * Properties *)

(** ** The library model at a few inputs *)
Module GoExamples.
Import F64 Go.

Example itoa_7 : itoa 7 = "7". Proof. reflexivity. Qed.
Example itoa_neg : itoa (-120) = "-120". Proof. reflexivity. Qed.
Example itoa_w_4 : itoa_w 4 58 = "  58". Proof. reflexivity. Qed.
Example ftoa_half_even : ftoa 0 (div (of_int 5) (of_int 2)) = "2". Proof. vm_compute. reflexivity. Qed.
Example ftoa_one_place : ftoa 1 (div (of_int 3) (of_int 2)) = "1.5". Proof. vm_compute. reflexivity. Qed.
Example ftoa_tenth : ftoa 1 (div (of_int 1) (of_int 20)) = "0.1". Proof. vm_compute. reflexivity. Qed.
Example to_int_58 : to_int (mul (div (of_int 29) (of_int 50)) (of_int 100)) = 57.
Proof. vm_compute. reflexivity. Qed.
Example dur_0 : Duration_String 0 = "0s". Proof. reflexivity. Qed.
Example dur_90 : Duration_String (90 * Second) = "1m30s". Proof. vm_compute. reflexivity. Qed.
Example dur_h : Duration_String (3723 * Second) = "1h2m3s". Proof. vm_compute. reflexivity. Qed.
Example dur_frac : Duration_String 1500000000 = "1.5s". Proof. vm_compute. reflexivity. Qed.
Example seconds_600ms : ltb half (Seconds 600000000) = true. Proof. vm_compute. reflexivity. Qed.
Example seconds_500ms : ltb half (Seconds 500000000) = false. Proof. vm_compute. reflexivity. Qed.

End GoExamples.

Module Int64Facts.

Import Int64.

Lemma wrap_range (z : Z) : min_int <= wrap z <= max_int.
Proof.
  unfold wrap, min_int, max_int.
  pose proof (Z.mod_pos_bound (z + 2 ^ 63) (2 ^ 64) ltac:(lia)). lia.
Qed.

Lemma wrap_small (z : Z) : min_int <= z <= max_int -> wrap z = z.
Proof.
  unfold wrap, min_int, max_int. intros H.
  rewrite Z.mod_small; lia.
Qed.

Lemma add_small (a b : Z) : min_int <= a + b <= max_int -> add a b = a + b.
Proof. apply wrap_small. Qed.

End Int64Facts.

(** ** float64: what the percentage needs

    A positive int64 converts to a finite float, and a finite float
    divided by itself is exactly one; so the percentage of a full count
    is exactly 100. *)
Module F64Facts.

Import F64.

Lemma div_self (m : positive) (e : Z) :
  div (S754_finite false m e) (S754_finite false m e) = S754_finite false 4503599627370496 (-52).
Proof.
  unfold div, SFdiv, SFdiv_core_binary.
  replace (Zdigits2 (Z.pos m) + e - (Zdigits2 (Z.pos m) + e)) with 0 by lia.
  replace (e - e) with 0 by lia.
  change (Z.min (fexp prec emax 0) 0) with (-53).
  change (0 - -53) with 53.
  cbv iota beta.
  rewrite Z.shiftl_mul_pow2 by lia.
  assert (H : Z.div_eucl (Z.pos m * 2 ^ 53) (Z.pos m) = (2 ^ 53, 0)).
  { assert (Hq : (Z.pos m * 2 ^ 53) / Z.pos m = 2 ^ 53)
      by (rewrite Z.mul_comm; apply Z.div_mul; lia).
    assert (Hr : (Z.pos m * 2 ^ 53) mod Z.pos m = 0)
      by (rewrite Z.mul_comm; apply Z.mod_mul; lia).
    unfold Z.div, Z.modulo in Hq, Hr.
    destruct (Z.div_eucl (Z.pos m * 2 ^ 53) (Z.pos m)) as [q r].
    subst; reflexivity. }
  rewrite H.
  assert (Hl : new_location (Z.pos m) 0 = loc_Exact).
  { unfold new_location. destruct (Z.even (Z.pos m)); reflexivity. }
  rewrite Hl. reflexivity.
Qed.

Lemma digits_log2 (p : positive) : Z.pos (digits2_pos p) = Z.log2 (Z.pos p) + 1.
Proof.
  assert (H : forall q, digits2_pos q = Pos.size q).
  { induction q; simpl; congruence. }
  rewrite H. destruct p; simpl; lia.
Qed.

Lemma shr_1_m mrs : 0 <= shr_m mrs -> shr_m (shr_1 mrs) = shr_m mrs / 2.
Proof.
  destruct mrs as [m r s]; simpl. intros H.
  destruct m as [|p|p]; [reflexivity| |lia].
  destruct p as [p|p|]; simpl.
  - rewrite (Pos2Z.inj_xI p). apply Z.div_unique with 1; lia.
  - rewrite (Pos2Z.inj_xO p). apply Z.div_unique with 0; lia.
  - reflexivity.
Qed.

Lemma iter_shr_1_m (n : positive) : forall mrs,
  0 <= shr_m mrs ->
  shr_m (iter_pos shr_1 n mrs) = shr_m mrs / 2 ^ Z.pos n.
Proof.
  assert (Hpos : forall mrs, 0 <= shr_m mrs -> 0 <= shr_m (shr_1 mrs)).
  { intros mrs H. rewrite shr_1_m by exact H. apply Z.div_pos; lia. }
  assert (Hx1 : forall k : positive, 2 ^ Z.pos k~1 = 2 * (2 ^ Z.pos k * 2 ^ Z.pos k)).
  { intros k. rewrite (Pos2Z.inj_xI k). replace (2 * Z.pos k + 1) with (1 + (Z.pos k + Z.pos k)) by lia.
    rewrite (Z.pow_add_r 2 1) by lia. rewrite (Z.pow_add_r 2 (Z.pos k)) by lia. reflexivity. }
  assert (Hx0 : forall k : positive, 2 ^ Z.pos k~0 = 2 ^ Z.pos k * 2 ^ Z.pos k).
  { intros k. rewrite (Pos2Z.inj_xO k). replace (2 * Z.pos k) with (Z.pos k + Z.pos k) by lia.
    apply Z.pow_add_r; lia. }
  induction n as [n IH|n IH|]; intros mrs H.
  - change (iter_pos shr_1 n~1 mrs) with (iter_pos shr_1 n (iter_pos shr_1 n (shr_1 mrs))).
    assert (H1 : 0 <= shr_m (shr_1 mrs)) by auto.
    assert (H2 : 0 <= shr_m (iter_pos shr_1 n (shr_1 mrs))).
    { rewrite IH by exact H1. apply Z.div_pos; [exact H1 | lia]. }
    rewrite IH, IH, shr_1_m by assumption.
    rewrite !Z.div_div by lia. rewrite Hx1. reflexivity.
  - change (iter_pos shr_1 n~0 mrs) with (iter_pos shr_1 n (iter_pos shr_1 n mrs)).
    assert (H2 : 0 <= shr_m (iter_pos shr_1 n mrs)).
    { rewrite IH by exact H. apply Z.div_pos; [exact H | lia]. }
    rewrite IH, IH by assumption.
    rewrite Z.div_div by lia. rewrite Hx0. reflexivity.
  - change (iter_pos shr_1 1 mrs) with (shr_1 mrs).
    rewrite shr_1_m by exact H. reflexivity.
Qed.

Lemma shr_record_of_loc_m m l : shr_m (shr_record_of_loc m l) = m.
Proof. destruct l as [|[| |]]; reflexivity. Qed.

Lemma shr_fexp_normal m e l :
  0 < m -> -1074 <= Z.log2 m + e - 52 ->
  exists mrs, shr_fexp prec emax m e l = (mrs, e + Z.max 0 (Z.log2 m - 52)) /\
              shr_m mrs = m / 2 ^ Z.max 0 (Z.log2 m - 52).
Proof.
  intros Hm Hn. unfold shr_fexp, shr.
  destruct m as [|p|p]; try lia.
  change (Zdigits2 (Z.pos p)) with (Z.pos (digits2_pos p)). rewrite digits_log2.
  unfold fexp, emin, prec, emax.
  replace (Z.max (Z.log2 (Z.pos p) + 1 + e - 53) (3 - 1024 - 53) - e)
    with (Z.log2 (Z.pos p) - 52) by lia.
  destruct (Z.log2 (Z.pos p) - 52) as [|q|q] eqn:Hk.
  - exists (shr_record_of_loc (Z.pos p) l). rewrite shr_record_of_loc_m.
    simpl. rewrite Z.add_0_r, Z.div_1_r. auto.
  - exists (iter_pos shr_1 q (shr_record_of_loc (Z.pos p) l)).
    rewrite Z.max_r by lia. split; [reflexivity|].
    rewrite iter_shr_1_m; rewrite shr_record_of_loc_m; [reflexivity | lia].
  - exists (shr_record_of_loc (Z.pos p) l). rewrite shr_record_of_loc_m.
    rewrite Z.max_l by lia. rewrite Z.add_0_r, Z.div_1_r. auto.
Qed.

Lemma round_nearest_even_bounds mx lx :
  mx <= round_nearest_even mx lx <= mx + 1.
Proof.
  destruct lx as [|[| |]]; simpl; try lia. destruct (Z.even mx); lia.
Qed.

Lemma shifted_pos m k : 0 < m -> 0 <= k <= Z.log2 m -> 0 < m / 2 ^ k.
Proof.
  intros Hm Hk. apply Z.div_str_pos. split; [apply Z.pow_pos_nonneg; lia|].
  destruct (Z.log2_spec m Hm) as [Hl _].
  apply Z.le_trans with (2 ^ Z.log2 m); [apply Z.pow_le_mono_r; lia | exact Hl].
Qed.

Lemma binary_round_aux_finite m e :
  0 < m -> -1074 <= Z.log2 m + e - 52 -> Z.log2 m + e <= 1000 -> e <= 900 ->
  exists m' e', binary_round_aux prec emax false m e loc_Exact = S754_finite false m' e'.
Proof.
  intros Hm Hlo Hhi He. unfold binary_round_aux.
  destruct (shr_fexp_normal m e loc_Exact Hm Hlo) as (mrs1 & -> & Hm1).
  set (k1 := Z.max 0 (Z.log2 m - 52)) in *.
  assert (Hl0 : 0 <= Z.log2 m) by apply Z.log2_nonneg.
  assert (Hp1 : 0 < shr_m mrs1) by (rewrite Hm1; apply shifted_pos; lia).
  assert (Hlog1 : Z.log2 (shr_m mrs1) = Z.log2 m - k1).
  { rewrite Hm1, <- Z.shiftr_div_pow2 by lia. rewrite Z.log2_shiftr by lia. lia. }
  set (m2 := round_nearest_even (shr_m mrs1) (loc_of_shr_record mrs1)).
  pose proof (round_nearest_even_bounds (shr_m mrs1) (loc_of_shr_record mrs1)) as Hb.
  fold m2 in Hb.
  assert (Hp2 : 0 < m2) by lia.
  assert (Hlog2lo : Z.log2 (shr_m mrs1) <= Z.log2 m2) by (apply Z.log2_le_mono; lia).
  assert (Hlog2hi : Z.log2 m2 <= Z.log2 (shr_m mrs1) + 1).
  { apply Z.le_trans with (Z.log2 (shr_m mrs1 + 1)); [apply Z.log2_le_mono; lia|].
    pose proof (Z.log2_succ_le (shr_m mrs1)) as Hs. unfold Z.succ in Hs. lia. }
  destruct (shr_fexp_normal m2 (e + k1) loc_Exact Hp2 ltac:(lia)) as (mrs2 & -> & Hm2).
  set (k2 := Z.max 0 (Z.log2 m2 - 52)) in *.
  assert (Hp3 : 0 < shr_m mrs2).
  { rewrite Hm2. apply shifted_pos; [exact Hp2|]. pose proof (Z.log2_nonneg m2). lia. }
  destruct (shr_m mrs2) as [|p|p]; try lia.
  destruct (Z.leb_spec (e + k1 + k2) (emax - prec)) as [_|Hbad].
  - eauto.
  - unfold emax, prec in Hbad. lia.
Qed.

Lemma pos_iter_xO (p d : positive) : Z.pos (Pos.iter xO p d) = Z.pos p * 2 ^ Z.pos d.
Proof.
  induction d as [|d IH] using Pos.peano_ind.
  - simpl. lia.
  - rewrite Pos.iter_succ, Pos2Z.inj_xO, IH, Pos2Z.inj_succ, Z.pow_succ_r by lia. lia.
Qed.

Lemma of_int_finite (z : Z) :
  0 < z <= Int64.max_int -> exists m e, of_int z = S754_finite false m e.
Proof.
  intros [Hz Hmax]. destruct z as [|p|p]; try lia.
  unfold of_int, binary_normalize, binary_round, shl_align.
  assert (Hl : 0 <= Z.log2 (Z.pos p) < 63).
  { split; [apply Z.log2_nonneg|]. apply Z.log2_lt_pow2; [lia|].
    unfold Int64.max_int in Hmax. lia. }
  rewrite digits_log2. unfold fexp, emin, prec, emax.
  replace (Z.max (Z.log2 (Z.pos p) + 1 + 0 - 53) (3 - 1024 - 53) - 0)
    with (Z.log2 (Z.pos p) - 52) by lia.
  destruct (Z.log2 (Z.pos p) - 52) as [|q|q] eqn:Hk.
  - apply binary_round_aux_finite; lia.
  - apply binary_round_aux_finite; lia.
  - rewrite pos_iter_xO.
    assert (Hlg : Z.log2 (Z.pos p * 2 ^ Z.pos q) = Z.log2 (Z.pos p) + Z.pos q)
      by (rewrite Z.log2_mul_pow2; lia).
    apply binary_round_aux_finite; try lia.
Qed.

Lemma percent_of_full (max_ : Z) : 0 < max_ <= Int64.max_int -> Progressbar.percent_of max_ max_ = 100.
Proof.
  intros H. unfold Progressbar.percent_of.
  destruct (of_int_finite max_ H) as (m & e & ->).
  rewrite div_self. reflexivity.
Qed.

(** No shift in the normal range when the mantissa has at most 53 digits. *)
Lemma shr_fexp_id m e l :
  0 < m -> Z.log2 m <= 52 -> -1074 <= Z.log2 m + e - 52 ->
  shr_fexp prec emax m e l = (shr_record_of_loc m l, e).
Proof.
  intros Hm Hl Hn. unfold shr_fexp, shr.
  destruct m as [|p|p]; try lia.
  change (Zdigits2 (Z.pos p)) with (Z.pos (digits2_pos p)). rewrite digits_log2.
  unfold fexp, emin, prec, emax.
  replace (Z.max (Z.log2 (Z.pos p) + 1 + e - 53) (3 - 1024 - 53) - e)
    with (Z.log2 (Z.pos p) - 52) by lia.
  destruct (Z.log2 (Z.pos p) - 52) as [|q|q] eqn:Hk; try reflexivity. lia.
Qed.

Lemma loc_of_shr_record_of_loc m l : loc_of_shr_record (shr_record_of_loc m l) = l.
Proof. destruct l as [|[| |]]; reflexivity. Qed.

(** Rounding a 53-digit mantissa at a location, when the rounded mantissa
    still has 53 digits. *)
Lemma binary_round_aux_53 m e l :
  Z.log2 m = 52 -> Z.log2 (round_nearest_even m l) = 52 -> -1074 <= e <= 971 ->
  exists m', binary_round_aux prec emax false m e l = S754_finite false m' e /\
             Z.pos m' = round_nearest_even m l.
Proof.
  intros Hl Hl2 He.
  assert (Hpos : 0 < m).
  { destruct m as [|p|p]; try lia; simpl in Hl; lia. }
  unfold binary_round_aux.
  rewrite shr_fexp_id by lia. rewrite loc_of_shr_record_of_loc, shr_record_of_loc_m.
  pose proof (round_nearest_even_bounds m l) as Hb.
  set (m2 := round_nearest_even m l) in *.
  rewrite shr_fexp_id by lia. rewrite shr_record_of_loc_m.
  destruct m2 as [|p2|p2]; try lia.
  destruct (Z.leb_spec e (emax - prec)) as [_|Hbad]; [|unfold emax, prec in Hbad; lia].
  exists p2. split; reflexivity.
Qed.

(** The float of a positive integer below 2^53 is the integer itself,
    normalised. *)
Lemma of_int_normal (z : Z) :
  0 < z < 2 ^ 53 ->
  exists m, of_int z = S754_finite false m (Z.log2 z - 52) /\
            Z.pos m = z * 2 ^ (52 - Z.log2 z).
Proof.
  intros [Hz Hmax]. destruct z as [|p|p]; try lia.
  assert (Hl : 0 <= Z.log2 (Z.pos p) < 53).
  { split; [apply Z.log2_nonneg|]. apply Z.log2_lt_pow2; lia. }
  unfold of_int, binary_normalize, binary_round, shl_align.
  rewrite digits_log2. unfold fexp, emin, prec, emax.
  replace (Z.max (Z.log2 (Z.pos p) + 1 + 0 - 53) (3 - 1024 - 53))
    with (Z.log2 (Z.pos p) - 52) by lia.
  replace (Z.log2 (Z.pos p) - 52 - 0) with (Z.log2 (Z.pos p) - 52) by lia.
  destruct (Z.log2 (Z.pos p) - 52) as [|q|q] eqn:Hk; try lia.
  - assert (H52 : Z.log2 (Z.pos p) = 52) by lia.
    assert (R : round_nearest_even (Z.pos p) loc_Exact = Z.pos p) by reflexivity.
    assert (He : -1074 <= 0 <= 971) by lia.
    assert (H52' : Z.log2 (round_nearest_even (Z.pos p) loc_Exact) = 52) by (rewrite R; exact H52).
    destruct (binary_round_aux_53 (Z.pos p) 0 loc_Exact H52 H52' He) as (m' & Hr & Hb).
    exists m'. fold prec emax. rewrite Hr, H52. split; [reflexivity|].
    rewrite Hb, R. simpl. lia.
  - assert (Hq : Z.pos q = 52 - Z.log2 (Z.pos p)) by lia.
    assert (Hlg : Z.log2 (Z.pos (Pos.iter xO p q)) = 52)
      by (rewrite pos_iter_xO, Z.log2_mul_pow2; lia).
    assert (R : round_nearest_even (Z.pos (Pos.iter xO p q)) loc_Exact
                = Z.pos (Pos.iter xO p q)) by reflexivity.
    assert (He : -1074 <= Z.neg q <= 971) by lia.
    assert (Hlg' : Z.log2 (round_nearest_even (Z.pos (Pos.iter xO p q)) loc_Exact) = 52)
      by (rewrite R; exact Hlg).
    destruct (binary_round_aux_53 _ _ loc_Exact Hlg Hlg' He) as (m' & Hr & Hb).
    exists m'. fold prec emax. rewrite Hr. split; [reflexivity|].
    rewrite Hb, R, pos_iter_xO, Hq. reflexivity.
Qed.

Lemma log2_52 q : 2 ^ 52 <= q < 2 ^ 53 -> Z.log2 q = 52.
Proof. intros H. apply Z.log2_unique; lia. Qed.

(** A quotient of two 53-digit mantissas at the same exponent, the smaller
    over the larger, rounds to a float strictly below one. *)
Lemma div_just_below (mx my : positive) (e : Z) :
  Z.log2 (Z.pos mx) = 52 -> Z.log2 (Z.pos my) = 52 -> Z.pos mx < Z.pos my ->
  exists mq, div (S754_finite false mx e) (S754_finite false my e)
             = S754_finite false mq (-53) /\
             2 ^ 52 <= Z.pos mq <= 2 ^ 53 - 1.
Proof.
  intros Hx Hy Hlt.
  destruct (Z.log2_spec (Z.pos mx) ltac:(lia)) as [Hx1 Hx2].
  destruct (Z.log2_spec (Z.pos my) ltac:(lia)) as [Hy1 Hy2].
  rewrite Hx in Hx1, Hx2. rewrite Hy in Hy1, Hy2.
  change (Z.succ 52) with 53 in *.
  unfold div, SFdiv, SFdiv_core_binary.
  replace (Zdigits2 (Z.pos mx) + e - (Zdigits2 (Z.pos my) + e)) with 0
    by (change (Zdigits2 (Z.pos mx)) with (Z.pos (digits2_pos mx));
        change (Zdigits2 (Z.pos my)) with (Z.pos (digits2_pos my));
        rewrite !digits_log2; lia).
  replace (e - e) with 0 by lia.
  change (Z.min (fexp prec emax 0) 0) with (-53).
  change (0 - -53) with 53.
  cbv iota beta.
  rewrite Z.shiftl_mul_pow2 by lia.
  pose proof (Z.div_eucl_eq (Z.pos mx * 2 ^ 53) (Z.pos my) ltac:(lia)) as Heq.
  pose proof (Z.mod_pos_bound (Z.pos mx * 2 ^ 53) (Z.pos my) ltac:(lia)) as Hr.
  unfold Z.modulo in Hr.
  destruct (Z.div_eucl (Z.pos mx * 2 ^ 53) (Z.pos my)) as [q r].
  assert (Hq : 2 ^ 52 <= q <= 2 ^ 53 - 2).
  { split.
    - apply Z.nlt_ge. intros Hc.
      assert (Z.pos my * q <= Z.pos my * (2 ^ 52 - 1)) by (apply Z.mul_le_mono_nonneg_l; lia).
      lia.
    - apply Z.nlt_ge. intros Hc.
      assert (Z.pos my * (2 ^ 53 - 1) <= Z.pos my * q) by (apply Z.mul_le_mono_nonneg_l; lia).
      lia. }
  pose proof (round_nearest_even_bounds q (new_location (Z.pos my) r)) as Hb.
  destruct (binary_round_aux_53 q (-53) (new_location (Z.pos my) r)) as (m' & Hres & Hm').
  - apply log2_52. lia.
  - apply log2_52. lia.
  - lia.
  - exists m'. cbn [xorb]. split; [exact Hres | lia].
Qed.

Lemma of_int_100 : of_int 100 = S754_finite false 7036874417766400 (-46).
Proof. reflexivity. Qed.

(** A float in [1/2, 1) times one hundred truncates to less than 100. *)
Lemma times_100_below (mq : positive) :
  2 ^ 52 <= Z.pos mq <= 2 ^ 53 - 1 ->
  to_int (mul (S754_finite false mq (-53)) (of_int 100)) <> 100.
Proof.
  intros Hq.
  destruct (Z.eq_dec (Z.pos mq) (2 ^ 53 - 1)) as [Htop|Hne].
  { assert (mq = 9007199254740991%positive) by (apply Pos2Z.inj; exact Htop).
    subst mq. vm_compute. discriminate. }
  rewrite of_int_100. unfold mul, SFmul. cbn [xorb].
  change (-53 + -46) with (-99).
  rewrite Pos2Z.inj_mul.
  set (M := 7036874417766400) in *.
  set (P := Z.pos mq * M).
  assert (HP : 2 ^ 104 <= P <= (2 ^ 53 - 2) * M) by (unfold P, M; lia).
  assert (HlP : 104 <= Z.log2 P <= 105).
  { split.
    - apply Z.log2_le_pow2; lia.
    - apply Z.lt_succ_r. apply Z.log2_lt_pow2; [lia|]. unfold M in HP. lia. }
  unfold binary_round_aux.
  destruct (shr_fexp_normal P (-99) loc_Exact ltac:(lia) ltac:(lia)) as (mrs1 & -> & Hm1).
  set (k1 := Z.max 0 (Z.log2 P - 52)) in *.
  assert (Hk1 : k1 = Z.log2 P - 52) by (unfold k1; lia).
  assert (Hp1 : 0 < shr_m mrs1) by (rewrite Hm1; apply shifted_pos; lia).
  assert (Hlog1 : Z.log2 (shr_m mrs1) = Z.log2 P - k1).
  { rewrite Hm1, <- Z.shiftr_div_pow2 by lia. rewrite Z.log2_shiftr by lia. lia. }
  pose proof (round_nearest_even_bounds (shr_m mrs1) (loc_of_shr_record mrs1)) as Hb.
  set (m2 := round_nearest_even (shr_m mrs1) (loc_of_shr_record mrs1)) in *.
  assert (Hlog2lo : Z.log2 (shr_m mrs1) <= Z.log2 m2) by (apply Z.log2_le_mono; lia).
  destruct (shr_fexp_normal m2 (-99 + k1) loc_Exact ltac:(lia) ltac:(lia)) as (mrs2 & -> & Hm2).
  set (k2 := Z.max 0 (Z.log2 m2 - 52)) in *.
  assert (Hk2 : 0 <= k2) by (unfold k2; lia).
  (* the bound on the rounded mantissa *)
  assert (Hm2b : m2 < 100 * 2 ^ (99 - k1)).
  { destruct (Z.eq_dec (Z.log2 P) 105) as [H105|H104].
    - replace k1 with 53 in * by lia. change (99 - 53) with 46.
      assert (P / 2 ^ 53 <= M - 2).
      { apply Z.lt_succ_r. apply Z.div_lt_upper_bound; [lia|]. unfold M in *. lia. }
      rewrite Hm1 in Hb. unfold M in *. lia.
    - replace k1 with 52 in * by lia. change (99 - 52) with 47.
      assert (P < 2 ^ 105).
      { destruct (Z.log2_spec P ltac:(lia)) as [_ Hs].
        replace (Z.succ (Z.log2 P)) with 105 in Hs by lia. exact Hs. }
      assert (P / 2 ^ 52 < 2 ^ 53) by (apply Z.div_lt_upper_bound; lia).
      rewrite Hm1 in Hb. lia. }
  destruct (shr_m mrs2) as [|mf|mf] eqn:Hmf.
  - cbn. discriminate.
  - destruct (Z.leb_spec (-99 + k1 + k2) (emax - prec)) as [_|Hbad].
    + unfold to_int, magnitude_floor.
      assert (Hk2' : k2 <= 1).
      { unfold k2. assert (Z.log2 m2 <= 53); [|lia].
        apply Z.lt_succ_r. apply Z.log2_lt_pow2; [lia|].
        apply Z.lt_le_trans with (100 * 2 ^ (99 - k1)); [exact Hm2b|].
        destruct (Z.eq_dec k1 53) as [->| ]; [|replace k1 with 52 by lia]; simpl; lia. }
      destruct (Z.leb_spec 0 (-99 + k1 + k2)) as [Hc|_]; [lia|].
      assert (Ha : Z.pos mf / 2 ^ (- (-99 + k1 + k2)) <= 99).
      { rewrite Hm2.
        assert (0 < 2 ^ k2) by (apply Z.pow_pos_nonneg; lia).
        assert (0 < 2 ^ (- (-99 + k1 + k2))) by (apply Z.pow_pos_nonneg; lia).
        rewrite Z.div_div by lia.
        rewrite <- Z.pow_add_r by lia.
        replace (k2 + - (-99 + k1 + k2)) with (99 - k1) by lia.
        apply Z.lt_succ_r. apply Z.div_lt_upper_bound; [apply Z.pow_pos_nonneg; lia|].
        lia. }
      destruct (Int64.in_range _); [lia | discriminate].
    + cbn. discriminate.
  - cbn. discriminate.
Qed.

(** The powers of two up to 2^53, one by one. *)
Lemma percent_before_power_of_two (L : Z) :
  1 <= L <= 53 -> Progressbar.percent_of (2 ^ L - 1) (2 ^ L) <> 100.
Proof.
  intros HL.
  assert (Hall : forallb (fun l => negb (Progressbar.percent_of (2 ^ l - 1) (2 ^ l) =? 100))
                   (map Z.of_nat (seq 1 53)) = true) by (vm_compute; reflexivity).
  rewrite forallb_forall in Hall.
  specialize (Hall L).
  assert (Hin : In L (map Z.of_nat (seq 1 53))).
  { apply in_map_iff. exists (Z.to_nat L). split; [lia|]. apply in_seq. lia. }
  apply Hall in Hin. apply negb_true_iff in Hin. apply Z.eqb_neq in Hin. exact Hin.
Qed.

(** One step before the maximum the percentage is still below 100, for
    every maximum up to 2^53. *)
Lemma percent_of_before_full (max_ : Z) :
  1 <= max_ <= 2 ^ 53 -> Progressbar.percent_of (max_ - 1) max_ <> 100.
Proof.
  intros Hm.
  destruct (Z.eq_dec max_ 1) as [->|Hne1]; [vm_compute; discriminate|].
  assert (Hl : 0 <= Z.log2 (max_ - 1) <= Z.log2 max_).
  { split; [apply Z.log2_nonneg | apply Z.log2_le_mono; lia]. }
  destruct (Z.log2_spec max_ ltac:(lia)) as [Hlo Hhi].
  destruct (Z.log2_spec (max_ - 1) ltac:(lia)) as [Hlo' Hhi'].
  destruct (Z.eq_dec (Z.log2 (max_ - 1)) (Z.log2 max_)) as [Heq|Hlt].
  - (* both in one binade *)
    assert (Hlt53 : max_ < 2 ^ 53).
    { destruct (Z.eq_dec max_ (2 ^ 53)) as [->|]; [|lia].
      exfalso. change (Z.log2 (2 ^ 53 - 1)) with 52 in Heq.
      change (Z.log2 (2 ^ 53)) with 53 in Heq. lia. }
    assert (HL : Z.log2 max_ <= 52).
    { apply Z.lt_succ_r. apply Z.log2_lt_pow2; lia. }
    destruct (of_int_normal (max_ - 1) ltac:(lia)) as (mx & Hx & Hmx).
    destruct (of_int_normal max_ ltac:(lia)) as (my & Hy & Hmy).
    unfold Progressbar.percent_of. rewrite Hx, Hy, Heq.
    destruct (div_just_below mx my (Z.log2 max_ - 52)) as (mq & Hq & Hb).
    + rewrite Hmx, Heq, Z.log2_mul_pow2; lia.
    + rewrite Hmy, Z.log2_mul_pow2; lia.
    + rewrite Hmx, Hmy, Heq.
      apply Z.mul_lt_mono_pos_r; [apply Z.pow_pos_nonneg; lia | lia].
    + rewrite Hq. apply times_100_below. exact Hb.
  - (* the maximum is a power of two *)
    assert (Hpow : max_ = 2 ^ Z.log2 max_).
    { apply Z.le_antisymm; [|exact Hlo].
      apply Z.lt_pred_le. apply Z.lt_le_trans with (2 ^ Z.succ (Z.log2 (max_ - 1))).
      - unfold Z.pred. replace (max_ + -1) with (max_ - 1) by lia. exact Hhi'.
      - apply Z.pow_le_mono_r; lia. }
    assert (HL : 1 <= Z.log2 max_ <= 53).
    { split.
      - apply Z.log2_le_pow2; lia.
      - apply Z.lt_succ_r. apply Z.log2_lt_pow2; [lia|]. change (Z.succ 53) with 54. lia. }
    rewrite Hpow at 1 2. apply percent_before_power_of_two. exact HL.
Qed.

(** Past 2^53 the bound is lost: with a maximum of 2^54 the percentage is
    already 100 one step before the maximum. *)
Lemma percent_of_full_too_early :
  Progressbar.percent_of (2 ^ 54 - 1) (2 ^ 54) = 100.
Proof. vm_compute. reflexivity. Qed.

End F64Facts.

(** ** What a call leaves alone *)
Module Frame.

Import F64 Go Progressbar Notions.

Lemma bind_Done {A B : Type} (m : outcome A) (k : A -> world -> outcome B) b w :
  bind m k = Done b w -> exists a w0, m = Done a w0 /\ k a w0 = Done b w.
Proof.
  destruct m as [a w0|w0]; simpl; intros H; [eauto | discriminate].
Qed.

Lemma Done_inj {A : Type} (a b : A) (w w' : world) :
  Done a w = Done b w' -> w = w' /\ a = b.
Proof. intros H. injection H as -> ->. auto. Qed.

(** Reads the world (and nothing else) off an equation between two
    returns, without looking into the values. *)
Ltac same_world H := apply Done_inj in H; destruct H as [<- _].

Tactic Notation "open_bind" hyp(H) "as" ident(a) ident(w) ident(Hm) :=
  apply bind_Done in H; destruct H as (a & w & Hm & H).

Lemma Done_pair_inj {A B : Type} (a a' : A) (b b' : B) (w w' : world) :
  Done (a, b) w = Done (a', b') w' -> a = a' /\ b = b' /\ w = w'.
Proof. intros H. injection H as -> -> ->. auto. Qed.

Ltac inv_bind H :=
  let a := fresh "a" in
  let w := fresh "w" in
  let Hm := fresh "Hm" in
  apply bind_Done in H; destruct H as (a & w & Hm & H).

Section WithEnv.

Variable E : env.

Lemma time_Now_Done w : exists t, time_Now E w
  = Done t {| ticks := S (ticks w); writes := writes w; trace := trace w |}.
Proof. eexists; reflexivity. Qed.

Lemma time_Since_Done t w : exists d, time_Since E t w
  = Done d {| ticks := S (ticks w); writes := writes w; trace := trace w |}.
Proof. eexists; reflexivity. Qed.

Lemma time_Since_trace t w d w' :
  time_Since E t w = Done d w' -> trace w' = trace w /\ writes w' = writes w.
Proof. unfold time_Since, time_Now; simpl. intros H; inversion H; subst; auto. Qed.

Lemma fit_width_undrawn c s sb l r :
  undrawn (snd (fit_width E c s sb l r)) = undrawn s.
Proof.
  unfold fit_width. destruct (fullWidth c && negb (ignoreLength c)); [|reflexivity].
  destruct (termWidth E) as [wd err]. reflexivity.
Qed.

Lemma saucer_parts_undrawn c cw s :
  undrawn (snd (saucer_parts c cw s)) = undrawn s.
Proof.
  unfold saucer_parts.
  destruct (0 <? currentSaucerSize s); [|reflexivity].
  destruct (negb (AltSaucerHead (theme c) =? "")%string && isAltSaucerHead s); [reflexivity|].
  destruct ((SaucerHead (theme c) =? "")%string || (currentSaucerSize s =? cw)); reflexivity.
Qed.

Lemma renderProgressBar_undrawn c s w r s' w' :
  renderProgressBar E c s w = Done (r, s') w' -> undrawn s' = undrawn s.
Proof.
  unfold renderProgressBar. intros H.
  inv_bind H.
  destruct (trailing_info c s a) as [sb|]; [|discriminate].
  inv_bind H. destruct a0 as [l rb].
  pose proof (fit_width_undrawn c s sb l rb) as Hf.
  destruct (fit_width E c s sb l rb) as [cw s1]. simpl in Hf.
  pose proof (saucer_parts_undrawn c cw s1) as Hs.
  destruct (saucer_parts c cw s1) as [[sa sh] s2]. simpl in Hs.
  inv_bind H. inv_bind H.
  inversion H; subst. rewrite <- Hf, <- Hs. reflexivity.
Qed.

Lemma renderProgressBar_counters c s w r s' w' :
  renderProgressBar E c s w = Done (r, s') w' -> counters s' = counters s.
Proof.
  intros H. apply renderProgressBar_undrawn in H.
  unfold undrawn in H. congruence.
Qed.

Lemma render_counters c s w err s' w' :
  render E c s w = Done (err, s') w' -> counters s' = counters s.
Proof.
  unfold render. intros H.
  inv_bind H.
  destruct ((Nanoseconds a <? Nanoseconds (throttleDuration c)) && (currentNum s <? max c)).
  { inversion H; reflexivity. }
  inv_bind H. destruct a0 as [e|].
  { inversion H; reflexivity. }
  inv_bind H.
  assert (Hc : counters a0 = counters s).
  { destruct (negb (finished s) && (max c <=? currentNum s)).
    - inv_bind Hm1.
      assert (Ha : counters a1 = counters s).
      { destruct (negb (clearOnFinish c)).
        - inv_bind Hm2. destruct a2 as [r s2]. inversion Hm2; subst. simpl.
          apply renderProgressBar_counters in Hm3. exact Hm3.
        - inversion Hm2; subst. reflexivity. }
      destruct (onCompletion c); inversion Hm1; subst; exact Ha.
    - inversion Hm1; subst. reflexivity. }
  destruct (finished a0).
  - destruct (useANSICodes c && clearOnFinish c).
    + inv_bind H. inversion H; subst. exact Hc.
    + inversion H; subst. exact Hc.
  - inv_bind H. destruct a1 as [[w_ err1] s1].
    apply renderProgressBar_counters in Hm2.
    destruct err1 as [e|].
    + inversion H; subst. congruence.
    + destruct (maxLineWidth s1 <? w_); inv_bind H; inversion H; subst;
        rewrite <- Hc, <- Hm2; reflexivity.
Qed.

Lemma writeString_error c str w err w' :
  writeString c str w = Done err w' -> sink_error c err.
Proof.
  unfold writeString. destruct (writer c (writes w)) eqn:Hw; intros H; inversion H; subst;
    [left; reflexivity | right; split; [reflexivity | eauto]].
Qed.

(** A sink that accepts every write gives no error. *)
Lemma sink_error_accepted c err :
  (forall n, writer c n = true) -> sink_error c err -> err = None.
Proof.
  intros Ha [H | [_ [n Hn]]]; [exact H | rewrite Ha in Hn; discriminate].
Qed.

Lemma clearProgressBar_error c s w err w' :
  clearProgressBar c s w = Done err w' -> sink_error c err.
Proof.
  unfold clearProgressBar.
  destruct (maxLineWidth s =? 0). { intros H; inversion H; left; reflexivity. }
  destruct (useANSICodes c). { apply writeString_error. }
  destruct (maxLineWidth s <? 0). { discriminate. }
  apply writeString_error.
Qed.

Lemma renderProgressBar_error c s w w_ err s' w' :
  renderProgressBar E c s w = Done (w_, err, s') w' -> sink_error c err.
Proof.
  unfold renderProgressBar. intros H.
  inv_bind H.
  destruct (trailing_info c s a) as [sb|]; [|discriminate].
  inv_bind H. destruct a0 as [l rb].
  destruct (fit_width E c s sb l rb) as [cw s1].
  destruct (saucer_parts c cw s1) as [[sa sh] s2].
  inv_bind H. inv_bind H.
  inversion H; subst. eapply writeString_error; eassumption.
Qed.

Lemma render_error c s w err s' w' :
  render E c s w = Done (err, s') w' -> sink_error c err.
Proof.
  unfold render. intros H.
  inv_bind H.
  destruct ((Nanoseconds a <? Nanoseconds (throttleDuration c)) && (currentNum s <? max c)).
  { inversion H; left; reflexivity. }
  inv_bind H.
  assert (He : sink_error c a0).
  { destruct (negb (useANSICodes c)).
    - eapply clearProgressBar_error; eassumption.
    - inversion Hm0; left; reflexivity. }
  destruct a0 as [e|].
  { inversion H; subst; exact He. }
  inv_bind H.
  destruct (finished a0).
  - destruct (useANSICodes c && clearOnFinish c).
    + inv_bind H. inversion H; subst. eapply clearProgressBar_error; eassumption.
    + inversion H; left; reflexivity.
  - inv_bind H. destruct a1 as [[w_ err1] s1].
    apply renderProgressBar_error in Hm2.
    destruct err1 as [e|].
    + inversion H; subst. exact Hm2.
    + destruct (maxLineWidth s1 <? w_); inv_bind H; inversion H; left; reflexivity.
Qed.

(** *** The shape of one [Add64] *)

Lemma roll_rates_total s w : exists s' w', roll_rates E s w = Done s' w'.
Proof.
  unfold roll_rates, time_Since, time_Now; simpl.
  destruct (ltb half _); simpl; eauto.
Qed.

(** What the bookkeeping leaves alone. *)
Lemma roll_rates_frame s w s' w' :
  roll_rates E s w = Done s' w' ->
  currentNum s' = currentNum s /\ currentBytes s' = currentBytes s /\
  exit s' = exit s /\ lastPercent s' = lastPercent s /\ finished s' = finished s /\
  trace w' = trace w /\ writes w' = writes w.
Proof.
  unfold roll_rates, time_Since, time_Now; simpl.
  destruct (ltb half _); simpl; intros H; inversion H; subst; simpl; tauto.
Qed.

Lemma percent_step_frame c s :
  currentNum (fst (percent_step c s)) = currentNum s /\
  currentBytes (fst (percent_step c s)) = currentBytes s /\
  exit (fst (percent_step c s)) = exit s /\
  finished (fst (percent_step c s)) = finished s /\
  counterLastTenRates (fst (percent_step c s)) = counterLastTenRates s /\
  currentPercent (fst (percent_step c s)) = percent_of (currentNum s) (max c) /\
  lastPercent (fst (percent_step c s)) = percent_of (currentNum s) (max c).
Proof. unfold percent_step; simpl; tauto. Qed.

(** One call of a tracker that is neither halted nor of maximum zero:
    count, bytes and window first, then the percentage, then either the
    out-of-range error, a redraw, or nothing. *)
Lemma Add64_unfold c num s w :
  exit s = false -> max c <> 0 ->
  Add64 E c num s w =
    bind (roll_rates E (counted c num s) w)
      (fun s1 w1 =>
         let s2 := fst (percent_step c s1) in
         if max c <? currentNum s2 then Done (Some ErrExceedsMax, s2) w1
         else if snd (percent_step c s1) || showIterationsCount c then render E c s2 w1
         else Done (None, s2) w1).
Proof.
  intros Hx Hm. unfold Add64. rewrite Hx.
  destruct (Z.eqb_spec (max c) 0) as [|_]; [contradiction|].
  unfold counted.
  destruct (roll_rates E _ w) as [s1 w1|w1]; simpl; [|reflexivity].
  destruct (percent_step c s1) as [s2 ub]; reflexivity.
Qed.

Lemma Add64_effect c num s w err s' w' :
  exit s = false -> max c <> 0 ->
  Add64 E c num s w = Done (err, s') w' ->
  currentNum s' = currentNum (count_step c num s) /\
  currentBytes s' = add (currentBytes s) (of_int num) /\
  exit s' = false /\
  (max c < currentNum s' -> err = Some ErrExceedsMax) /\
  (currentNum s' <= max c -> sink_error c err).
Proof.
  intros Hx Hm H. rewrite Add64_unfold in H by assumption.
  inv_bind H. cbv zeta in H.
  destruct (roll_rates_frame _ _ _ _ Hm0) as (Hn & Hb & Hxx & _).
  destruct (percent_step_frame c a) as (Pn & Pb & Px & _).
  assert (Hcx : exit (count_step c num s) = exit s).
  { unfold count_step. destruct (currentNum s <? max c); [destruct (ignoreLength c)|];
      reflexivity. }
  assert (Hcb : currentBytes (count_step c num s) = currentBytes s).
  { unfold count_step. destruct (currentNum s <? max c); [destruct (ignoreLength c)|];
      reflexivity. }
  simpl in Hn, Hb, Hxx. rewrite Hcb in Hb. rewrite Hcx, Hx in Hxx.
  destruct (Z.ltb_spec (max c) (currentNum (fst (percent_step c a)))) as [Hgt|Hle].
  - injection H as He Hs Hw. subst s' err. simpl in *.
    repeat split; try congruence. intros; lia.
  - assert (Hfin : counters s' = counters (fst (percent_step c a)) /\ sink_error c err).
    { destruct (snd (percent_step c a) || showIterationsCount c).
      - split; [eapply render_counters | eapply render_error]; eassumption.
      - inversion H; subst. split; [reflexivity | left; reflexivity]. }
    destruct Hfin as [Hc He]. unfold counters in Hc. simpl in Hc, Hle.
    injection Hc as Hc1 _ _ _ _ _ _ Hc8 Hc9.
    repeat split; try congruence; intros; lia.
Qed.

(** A halted tracker ignores the call. *)
Lemma Add64_halted c num s w : exit s = true -> Add64 E c num s w = Done (None, s) w.
Proof. intros H. unfold Add64. rewrite H. reflexivity. Qed.

(** A maximum of zero is refused before anything is assigned. *)
Lemma Add64_max_zero c num s w :
  exit s = false -> max c = 0 -> Add64 E c num s w = Done (Some ErrMaxZero, s) w.
Proof. intros Hx H. unfold Add64. rewrite Hx, H. reflexivity. Qed.

(** *** What the constructor returns *)

Lemma options_keep_max opts c :
  max (fold_left apply_option opts c) = max c /\
  ignoreLength (fold_left apply_option opts c) = ignoreLength c /\
  useANSICodes (fold_left apply_option opts c) = useANSICodes c /\
  clearOnFinish (fold_left apply_option opts c) = clearOnFinish c.
Proof.
  revert c. induction opts as [|o opts IH]; intros c; simpl; [tauto|].
  destruct (IH (apply_option c o)) as (H1 & H2 & H3 & H4).
  rewrite H1, H2, H3, H4. destruct o; simpl; tauto.
Qed.

Lemma RenderBlank_counters c s w err s' w' :
  RenderBlank E c s w = Done (err, s') w' -> counters s' = counters s.
Proof.
  unfold RenderBlank. intros H. apply render_counters in H. rewrite H.
  destruct (currentNum s =? 0); reflexivity.
Qed.

Lemma getBasicState_fresh w s w' :
  getBasicState E w = Done s w' ->
  currentNum s = 0 /\ lastPercent s = 0 /\ exit s = false /\
  currentBytes s = zero /\ counterLastTenRates s = [] /\
  finished s = false /\ maxLineWidth s = 0 /\ trace w' = trace w.
Proof.
  unfold getBasicState, time_Now; simpl. intros H; inversion H; subst; simpl. tauto.
Qed.

Lemma NewOptions64_fresh max_ opts w0 c s0 w1 :
  NewOptions64 E max_ opts w0 = Done (c, s0) w1 ->
  currentNum s0 = 0 /\ lastPercent s0 = 0 /\ exit s0 = false /\
  currentBytes s0 = zero /\ counterLastTenRates s0 = [] /\
  (max_ <> -1 -> max c = max_ /\ ignoreLength c = false) /\
  (max_ = -1 -> max c = width c /\ ignoreLength c = true /\ predictTime c = false).
Proof.
  unfold NewOptions64. intros H. inv_bind H.
  apply getBasicState_fresh in Hm.
  destruct Hm as (F1 & F2 & F3 & F4 & F5 & _).
  match type of H with context [fold_left apply_option opts ?c0] =>
    destruct (options_keep_max opts c0) as (Hmax & Hig & _ & _);
    set (c1 := fold_left apply_option opts c0) in *
  end.
  simpl in Hmax, Hig.
  destruct ((spinnerType c1 <? 0) || (75 <? spinnerType c1)); [discriminate|].
  match type of H with context [humanizeBytes ?x] =>
    destruct (humanizeBytes x) as [[h suf]|] end; [|discriminate].
  match type of H with context [renderWithBlankState ?c2] =>
    assert (Hs : counters s0 = counters a /\ c = c2) end.
  { destruct (renderWithBlankState _).
    - inv_bind H. destruct a0 as [e sr]. injection H as <- <- _.
      apply RenderBlank_counters in Hm. simpl. split; [exact Hm | reflexivity].
    - injection H as <- <- _. split; reflexivity. }
  destruct Hs as [Hc ->]. unfold counters in Hc.
  injection Hc as -> _ -> _ _ _ -> -> ->.
  repeat split; try assumption;
    destruct (Z.eqb_spec (max c1) (-1)); simpl; congruence.
Qed.

End WithEnv.

End Frame.

(** ** The tracker's count *)
Module Totality.

Import F64 Go Progressbar Notions Frame.

Section WithEnv.

Variable E : env.

Lemma averageRate_of_returns s w : exists r w', averageRate_of E s w = Done r w'.
Proof.
  unfold averageRate_of.
  destruct (Nat.eqb (List.length (counterLastTenRates s)) 0 || finished s);
    cbn [bind time_Since time_Now]; eauto.
Qed.

Lemma trailing_info_returns c s r :
  showBytes c = false -> exists sb, trailing_info c s r = Some sb.
Proof.
  intros Hb. unfold trailing_info, iterations_text. rewrite Hb.
  cbn [andb].
  destruct (showIterationsCount c); destruct (negb (ignoreLength c)); eauto.
Qed.

Lemma brackets_returns c s r w : exists lr w', brackets E c s r w = Done lr w'.
Proof.
  unfold brackets.
  destruct (predictTime c || elapsedTime c); cbn [bind time_Since time_Now]; eauto.
Qed.

Lemma assemble_returns c s sa sh ra sb l r w :
  ignoreLength c = false -> exists str, assemble E c s sa sh ra sb l r w = Done str w.
Proof.
  intros Hi. unfold assemble. rewrite Hi.
  destruct (String.eqb r ""); eauto.
Qed.

Lemma writeString_returns c str w : exists err w', writeString c str w = Done err w'.
Proof. unfold writeString. destruct (writer c (writes w)); eauto. Qed.

Lemma clearProgressBar_returns c s w :
  0 <= maxLineWidth s -> exists err w', clearProgressBar c s w = Done err w'.
Proof.
  intros Hw. unfold clearProgressBar.
  destruct (maxLineWidth s =? 0); [eauto|].
  destruct (useANSICodes c); [apply writeString_returns|].
  destruct (Z.ltb_spec (maxLineWidth s) 0); [lia | apply writeString_returns].
Qed.

Lemma renderProgressBar_returns c s w :
  showBytes c = false -> ignoreLength c = false ->
  exists r s' w', renderProgressBar E c s w = Done (r, s') w'.
Proof.
  intros Hb Hi. unfold renderProgressBar.
  destruct (averageRate_of_returns s w) as (rate & w1 & ->). cbn [bind].
  destruct (trailing_info_returns c s rate Hb) as (sb & ->).
  destruct (brackets_returns c s rate w1) as ([l r] & w2 & ->). cbn [bind].
  destruct (fit_width E c s sb l r) as [cw s1].
  destruct (saucer_parts c cw s1) as [[sa sh] s2].
  cbv zeta.
  match goal with
  | |- context [assemble E c s2 sa sh ?ra sb l r w2] =>
      destruct (assemble_returns c s2 sa sh ra sb l r w2 Hi) as (str & ->)
  end.
  cbn [bind].
  match goal with
  | |- context [writeString c ?t w2] =>
      destruct (writeString_returns c t w2) as (err & w3 & ->)
  end.
  cbn [bind]. eauto.
Qed.

Lemma renderProgressBar_drawable c s w r s' w' :
  renderProgressBar E c s w = Done (r, s') w' -> drawable c s -> drawable c s'.
Proof.
  intros H (Hb & Hi & Hw). apply renderProgressBar_undrawn in H.
  assert (Hm : maxLineWidth s' = maxLineWidth s).
  { change (snd (fst (undrawn s')) = snd (fst (undrawn s))). rewrite H. reflexivity. }
  repeat split; try assumption. rewrite Hm. exact Hw.
Qed.

(** [render] returns for a drawable tracker, which stays drawable: the
    blanking width only grows. *)
Lemma render_returns c s w :
  drawable c s ->
  exists err s' w', render E c s w = Done (err, s') w' /\ drawable c s'.
Proof.
  intros Hd. pose proof Hd as (Hb & Hi & Hw).
  unfold render. cbn [bind time_Since time_Now].
  destruct ((Nanoseconds _ <? Nanoseconds (throttleDuration c)) && (currentNum s <? max c));
    [eauto 6|].
  match goal with
  | |- context [bind ?m _] =>
      assert (Hc : exists err w1, m = Done err w1)
  end.
  { destruct (negb (useANSICodes c)); [apply clearProgressBar_returns; exact Hw | eauto]. }
  destruct Hc as (err & w1 & ->). cbn [bind].
  destruct err as [e|]; [eauto 6|].
  match goal with
  | |- context [bind ?m _] =>
      assert (Hf : exists s1 w2, m = Done s1 w2 /\ drawable c s1)
  end.
  { destruct (negb (finished s) && (max c <=? currentNum s)); [|eauto].
    assert (Hd1 : drawable c (set_finished true s)) by exact Hd.
    destruct (negb (clearOnFinish c)).
    - destruct (renderProgressBar_returns c (set_finished true s) w1 Hb Hi)
        as (r & s1 & w2 & Hr).
      pose proof (renderProgressBar_drawable _ _ _ _ _ _ Hr Hd1) as Hd2.
      rewrite Hr. cbn [bind snd].
      destruct (onCompletion c); eauto.
    - cbn [bind]. destruct (onCompletion c); eauto. }
  destruct Hf as (s1 & w2 & -> & Hd1). cbn [bind].
  pose proof Hd1 as (_ & _ & Hw1).
  destruct (finished s1).
  - destruct (useANSICodes c && clearOnFinish c); [|eauto 6].
    destruct (clearProgressBar_returns c s1 w2 Hw1) as (err & w3 & ->).
    cbn [bind]. eauto 6.
  - destruct (renderProgressBar_returns c s1 w2 Hb Hi) as ([w_ err] & s2 & w3 & Hr).
    pose proof (renderProgressBar_drawable _ _ _ _ _ _ Hr Hd1) as (_ & _ & Hw2).
    rewrite Hr. cbn [bind].
    destruct err as [e|]; [do 3 eexists; split; [reflexivity|]; repeat split; assumption|].
    cbv zeta. cbn [time_Now bind].
    do 3 eexists; split; [reflexivity|].
    repeat split; try assumption.
    destruct (Z.ltb_spec (maxLineWidth s2) w_); cbn; lia.
Qed.

Lemma roll_rates_drawable c s w s' w' :
  roll_rates E s w = Done s' w' -> drawable c s -> drawable c s'.
Proof.
  unfold roll_rates, time_Since, time_Now. cbn [bind].
  destruct (ltb half _); cbn [bind]; intros H Hd;
    apply Done_inj in H; destruct H as [_ <-]; exact Hd.
Qed.

(** Every [Add64] on a drawable tracker returns: no panic is reachable
    from it. *)
Lemma Add64_returns c num s w :
  drawable c s ->
  exists err s' w', Add64 E c num s w = Done (err, s') w' /\ drawable c s'.
Proof.
  intros Hd. unfold Add64.
  destruct (exit s); [eauto 6|].
  destruct (max c =? 0); [eauto 6|].
  cbv zeta.
  match goal with
  | |- context [roll_rates E ?s0 w] =>
      assert (Hd0 : drawable c s0);
      [| destruct (roll_rates_total E s0 w) as (s1 & w1 & Hr);
         pose proof (roll_rates_drawable c _ _ _ _ Hr Hd0) as Hd1;
         rewrite Hr ]
  end.
  { unfold count_step.
    destruct (currentNum s <? max c); [destruct (ignoreLength c)|]; exact Hd. }
  cbn [bind].
  assert (Hd2 : drawable c (fst (percent_step c s1))) by exact Hd1.
  destruct (percent_step c s1) as [s2 ub]. cbn [fst] in Hd2.
  destruct (max c <? currentNum s2); [eauto 6|].
  destruct (ub || showIterationsCount c); [apply render_returns; exact Hd2 | eauto 6].
Qed.

(** So does every run of calls. *)
Lemma AddAll_returns c nums : forall s w,
  drawable c s ->
  exists errs s' w', AddAll E c nums s w = Done (errs, s') w' /\ drawable c s'.
Proof.
  induction nums as [|num rest IH]; intros s w Hd; cbn [AddAll].
  - eauto 6.
  - destruct (Add64_returns c num s w Hd) as (err & s1 & w1 & -> & Hd1).
    cbn [bind].
    destruct (IH s1 w1 Hd1) as (errs & s2 & w2 & -> & Hd2).
    cbn [bind]. eauto 6.
Qed.

Lemma render_drawable c s w err s' w' :
  render E c s w = Done (err, s') w' -> drawable c s -> drawable c s'.
Proof.
  intros H Hd. destruct (render_returns c s w Hd) as (e & s1 & w1 & H1 & Hd1).
  rewrite H in H1. apply Done_pair_inj in H1. destruct H1 as (_ & -> & _). exact Hd1.
Qed.

(** The constructor hands out a drawable tracker when the length is
    known and byte counts are off. *)
Lemma NewOptions64_drawable max_ opts w0 c s0 w1 :
  NewOptions64 E max_ opts w0 = Done (c, s0) w1 ->
  showBytes c = false -> ignoreLength c = false -> drawable c s0.
Proof.
  unfold NewOptions64. intros H Hb Hi. inv_bind H.
  apply getBasicState_fresh in Hm.
  destruct Hm as (_ & _ & _ & _ & _ & _ & Hw & _).
  set (c1 := fold_left apply_option opts _) in *.
  destruct ((spinnerType c1 <? 0) || (75 <? spinnerType c1)); [discriminate|].
  match type of H with context [humanizeBytes ?x] =>
    destruct (humanizeBytes x) as [[h suf]|] end; [|discriminate].
  destruct (renderWithBlankState _).
  - inv_bind H. destruct a0 as [e sr].
    apply Done_pair_inj in H. destruct H as (<- & <- & _).
    unfold RenderBlank in Hm. eapply render_drawable; [exact Hm|].
    repeat split; try assumption.
    destruct (currentNum a =? 0); cbn; lia.
  - apply Done_pair_inj in H. destruct H as (<- & <- & _).
    repeat split; try assumption. lia.
Qed.

Lemma AddAll_drawable c nums s w errs s' w' :
  AddAll E c nums s w = Done (errs, s') w' -> drawable c s -> drawable c s'.
Proof.
  intros H Hd. destruct (AddAll_returns c nums s w Hd) as (e & s1 & w1 & H1 & Hd1).
  rewrite H in H1. apply Done_pair_inj in H1. destruct H1 as (_ & -> & _). exact Hd1.
Qed.

(** After any run on a tracker the constructor built with a known length
    and byte counts off, every further run of calls returns. *)
Lemma further_calls_return max_ opts w0 c s0 w1 history errs0 s w :
  NewOptions64 E max_ opts w0 = Done (c, s0) w1 ->
  ignoreLength c = false -> showBytes c = false ->
  AddAll E c history s0 w1 = Done (errs0, s) w ->
  forall nums, exists errs s' w', AddAll E c nums s w = Done (errs, s') w'.
Proof.
  intros Hnew Hi Hb Hrun nums.
  pose proof (NewOptions64_drawable _ _ _ _ _ _ Hnew Hb Hi) as Hd0.
  pose proof (AddAll_drawable _ _ _ _ _ _ _ Hrun Hd0) as Hd.
  destruct (AddAll_returns c nums s w Hd) as (errs & s' & w' & H & _). eauto.
Qed.

End WithEnv.

End Totality.

Module Tracker.

Import F64 Go Progressbar Notions Frame.

Section WithEnv.

Variable E : env.

Lemma AddAll_cons c num rest s w errs s' w' :
  AddAll E c (num :: rest) s w = Done (errs, s') w' ->
  exists err s1 w1 errs1,
    Add64 E c num s w = Done (err, s1) w1 /\
    AddAll E c rest s1 w1 = Done (errs1, s') w' /\
    errs = err :: errs1.
Proof.
  simpl. intros H. inv_bind H. destruct a as [err s1].
  inv_bind H. destruct a as [errs1 s2]. injection H as <- <- <-.
  exists err, s1, w0, errs1. auto.
Qed.

Lemma AddAll_app c l1 l2 s w errs s' w' :
  AddAll E c (l1 ++ l2) s w = Done (errs, s') w' ->
  exists errs1 s1 w1 errs2,
    AddAll E c l1 s w = Done (errs1, s1) w1 /\
    AddAll E c l2 s1 w1 = Done (errs2, s') w' /\
    errs = (errs1 ++ errs2)%list.
Proof.
  revert s w errs. induction l1 as [|n l1 IH]; intros s w errs H.
  - exists [], s, w, errs. simpl in *. auto.
  - change ((n :: l1) ++ l2)%list with (n :: (l1 ++ l2))%list in H.
    apply AddAll_cons in H. destruct H as (e & s1 & w1 & errs1 & Ha & Hr & ->).
    apply IH in Hr. destruct Hr as (ea & sa & wa & eb & H1 & H2 & ->).
    exists (e :: ea), sa, wa, eb. simpl. rewrite Ha. simpl. rewrite H1. simpl. auto.
Qed.

Lemma Add64_tracked c num s w err s' w' :
  tracked c s -> Add64 E c num s w = Done (err, s') w' -> tracked c s'.
Proof.
  intros [Hx Hz] H. destruct (Z.eq_dec (max c) 0) as [Hm|Hm].
  - rewrite Add64_max_zero in H by assumption. injection H as _ <- _. split; auto.
  - apply Add64_effect in H; try assumption. destruct H as (_ & _ & Hx' & _).
    split; [assumption | contradiction].
Qed.

Lemma AddAll_tracked c nums s w errs s' w' :
  tracked c s -> AddAll E c nums s w = Done (errs, s') w' -> tracked c s'.
Proof.
  revert s w errs. induction nums as [|n nums IH]; intros s w errs Ht H.
  - simpl in H. injection H as _ <- _. exact Ht.
  - apply AddAll_cons in H. destruct H as (e & s1 & w1 & errs1 & Ha & Hr & _).
    eapply IH; [|exact Hr]. eapply Add64_tracked; eassumption.
Qed.

Lemma NewOptions64_tracked max_ opts w0 c s0 w1 :
  NewOptions64 E max_ opts w0 = Done (c, s0) w1 -> tracked c s0.
Proof.
  intros H. apply NewOptions64_fresh in H. destruct H as (H1 & _ & H3 & _).
  split; auto.
Qed.

(** The count after one call of a known-length tracker. *)
Lemma Add64_known_count c num s w err s' w' :
  ignoreLength c = false -> tracked c s ->
  Add64 E c num s w = Done (err, s') w' ->
  currentNum s' = if currentNum s <? max c then Int64.add (currentNum s) num
                  else currentNum s.
Proof.
  intros Hk [Hx Hz] H. destruct (Z.eq_dec (max c) 0) as [Hm|Hm].
  - rewrite Add64_max_zero in H by assumption. injection H as _ <- _.
    rewrite Hz, Hm by assumption. reflexivity.
  - apply Add64_effect in H; try assumption. destruct H as (Hn & _).
    rewrite Hn. unfold count_step. rewrite Hk.
    destruct (currentNum s <? max c); reflexivity.
Qed.

(** Past the maximum, a known-length tracker is stuck: the count stays,
    the bytes still add up, and every call reports the overshoot. *)
Lemma AddAll_stuck c nums s w errs s' w' :
  ignoreLength c = false -> tracked c s -> max c < currentNum s ->
  AddAll E c nums s w = Done (errs, s') w' ->
  currentNum s' = currentNum s /\
  currentBytes s' = fold_left (fun b num => add b (of_int num)) nums (currentBytes s) /\
  Forall (fun err => err = Some ErrExceedsMax) errs.
Proof.
  intros Hk. revert s w errs. induction nums as [|n nums IH]; intros s w errs Ht Hgt H.
  - simpl in H. injection H as <- <- _. simpl. auto.
  - apply AddAll_cons in H. destruct H as (e & s1 & w1 & errs1 & Ha & Hr & ->).
    pose proof (Add64_tracked _ _ _ _ _ _ _ Ht Ha) as Ht1.
    pose proof (Add64_known_count _ _ _ _ _ _ _ Hk Ht Ha) as Hn.
    destruct (Z.ltb_spec (currentNum s) (max c)) as [Hlt|_]; [lia|].
    destruct Ht as [Hx Hz].
    assert (Hm : max c <> 0) by (intros Hm; specialize (Hz Hm); lia).
    apply Add64_effect in Ha; try assumption.
    destruct Ha as (_ & Hb & _ & He & _).
    specialize (IH s1 w1 errs1 Ht1 ltac:(lia) Hr). destruct IH as (I1 & I2 & I3).
    simpl. rewrite <- Hb. repeat split; try congruence.
    constructor; [apply He; lia | exact I3].
Qed.

(** Unit increments of a known-length tracker, as long as they fit under
    the maximum. *)
Lemma AddAll_ones_known c k s w errs s' w' :
  ignoreLength c = false -> tracked c s ->
  0 <= currentNum s -> currentNum s + Z.of_nat k <= max c -> max c <= Int64.max_int ->
  AddAll E c (ones k) s w = Done (errs, s') w' ->
  currentNum s' = currentNum s + Z.of_nat k.
Proof.
  intros Hk. revert s w errs.
  induction k as [|k IH]; intros s w errs Ht H0 Hle Hmax H.
  - simpl in H. injection H as _ <- _. simpl. lia.
  - change (ones (S k)) with (1 :: ones k) in H.
    apply AddAll_cons in H. destruct H as (e & s1 & w1 & errs1 & Ha & Hr & _).
    pose proof (Add64_tracked _ _ _ _ _ _ _ Ht Ha) as Ht1.
    pose proof (Add64_known_count _ _ _ _ _ _ _ Hk Ht Ha) as Hn.
    destruct (Z.ltb_spec (currentNum s) (max c)) as [Hlt|Hge]; [|lia].
    rewrite Int64Facts.add_small in Hn by (unfold Int64.min_int, Int64.max_int in *; lia).
    rewrite (IH s1 w1 errs1 Ht1) by (try exact Hr; lia). lia.
Qed.

(** A known-length tracker whose count equals its maximum stays there,
    and no call reports an overshoot. *)
Lemma AddAll_at_max c nums s w errs s' w' :
  ignoreLength c = false -> max c <> 0 -> tracked c s -> currentNum s = max c ->
  AddAll E c nums s w = Done (errs, s') w' ->
  currentNum s' = max c /\ Forall (sink_error c) errs.
Proof.
  intros Hk Hz. revert s w errs. induction nums as [|n nums IH]; intros s w errs Ht Heq H.
  - simpl in H. injection H as <- <- _. auto.
  - apply AddAll_cons in H. destruct H as (e & s1 & w1 & errs1 & Ha & Hr & ->).
    pose proof (Add64_tracked _ _ _ _ _ _ _ Ht Ha) as Ht1.
    pose proof (Add64_known_count _ _ _ _ _ _ _ Hk Ht Ha) as Hn.
    destruct (Z.ltb_spec (currentNum s) (max c)) as [Hlt|_]; [lia|].
    destruct Ht as [Hx _].
    apply Add64_effect in Ha; try assumption. destruct Ha as (_ & _ & _ & _ & He).
    destruct (IH s1 w1 errs1 Ht1 ltac:(congruence) Hr) as [I1 I2].
    split; [exact I1|]. constructor; [apply He; lia | exact I2].
Qed.

(** The count after one call of an unknown-length tracker. *)
Lemma Add64_unknown_count c num s w err s' w' :
  ignoreLength c = true -> tracked c s -> max c <> 0 ->
  Add64 E c num s w = Done (err, s') w' ->
  currentNum s' = if currentNum s <? max c
                  then Int64.rem (Int64.add (currentNum s) num) (max c)
                  else currentNum s.
Proof.
  intros Hk [Hx Hz] Hm H.
  apply Add64_effect in H; try assumption. destruct H as (Hn & _).
  rewrite Hn. unfold count_step. rewrite Hk.
  destruct (currentNum s <? max c); reflexivity.
Qed.

(** In unknown-length mode the count never reaches the maximum. *)
Lemma AddAll_unknown_bound c nums s w errs s' w' :
  ignoreLength c = true -> tracked c s -> 0 < max c -> currentNum s < max c ->
  AddAll E c nums s w = Done (errs, s') w' ->
  currentNum s' < max c.
Proof.
  intros Hk. revert s w errs. induction nums as [|n nums IH]; intros s w errs Ht Hm Hlt H.
  - simpl in H. injection H as _ <- _. exact Hlt.
  - apply AddAll_cons in H. destruct H as (e & s1 & w1 & errs1 & Ha & Hr & _).
    pose proof (Add64_tracked _ _ _ _ _ _ _ Ht Ha) as Ht1.
    pose proof (Add64_unknown_count _ _ _ _ _ _ _ Hk Ht ltac:(lia) Ha) as Hn.
    destruct (Z.ltb_spec (currentNum s) (max c)) as [_|Hge]; [|lia].
    eapply (IH s1 w1 errs1); try eassumption.
    rewrite Hn. unfold Int64.rem.
    pose proof (Z.rem_bound_abs (Int64.add (currentNum s) n) (max c) ltac:(lia)). lia.
Qed.

(** Unit increments of an unknown-length tracker count modulo the
    maximum. *)
Lemma AddAll_ones_unknown c k s w errs s' w' :
  ignoreLength c = true -> tracked c s ->
  0 <= currentNum s < max c -> max c <= Int64.max_int ->
  AddAll E c (ones k) s w = Done (errs, s') w' ->
  currentNum s' = (currentNum s + Z.of_nat k) mod max c.
Proof.
  intros Hk. revert s w errs.
  induction k as [|k IH]; intros s w errs Ht Hr Hmax H.
  - simpl in H. injection H as _ <- _. rewrite Z.add_0_r, Z.mod_small; lia.
  - change (ones (S k)) with (1 :: ones k) in H.
    apply AddAll_cons in H. destruct H as (e & s1 & w1 & errs1 & Ha & Hrest & _).
    pose proof (Add64_tracked _ _ _ _ _ _ _ Ht Ha) as Ht1.
    pose proof (Add64_unknown_count _ _ _ _ _ _ _ Hk Ht ltac:(lia) Ha) as Hn.
    destruct (Z.ltb_spec (currentNum s) (max c)) as [_|Hge]; [|lia].
    rewrite Int64Facts.add_small in Hn by (unfold Int64.min_int, Int64.max_int in *; lia).
    unfold Int64.rem in Hn. rewrite Z.rem_mod_nonneg in Hn by lia.
    assert (Hb : 0 <= currentNum s1 < max c).
    { rewrite Hn. apply Z.mod_pos_bound. lia. }
    rewrite (IH s1 w1 errs1 Ht1 Hb Hmax Hrest), Hn.
    rewrite Zplus_mod_idemp_l. f_equal. lia.
Qed.

(** C10.  For a tracker in known-length mode, whatever has been added to
    it so far: a call changes the count only when the count is strictly
    below the maximum, and then by adding the delta, so the count passes
    the maximum only by one delta overshooting it from below; and once the
    count is above the maximum, every later call leaves the count where it
    is, still adds its delta to the byte total, and reports the
    out-of-range error.  With byte counts off, every run of later calls
    does return. *)
Theorem Add64_count_only_below_max
    (max_ : Z) (options : list Option) (w0 : world)
    (c : config) (s0 : state) (w1 : world)
    (history : list Z) (errs0 : list (option error)) (s : state) (w : world) :
  NewOptions64 E max_ options w0 = Done (c, s0) w1 ->
  ignoreLength c = false ->
  AddAll E c history s0 w1 = Done (errs0, s) w ->
  (forall num err s' w',
      Add64 E c num s w = Done (err, s') w' ->
      (currentNum s' <> currentNum s ->
       currentNum s < max c /\ currentNum s' = Int64.add (currentNum s) num) /\
      (currentNum s <= max c -> max c < currentNum s' ->
       currentNum s < max c /\ max c < Int64.add (currentNum s) num)) /\
  (max c < currentNum s ->
   forall nums errs s' w',
     AddAll E c nums s w = Done (errs, s') w' ->
     currentNum s' = currentNum s /\
     currentBytes s' = fold_left (fun b num => add b (of_int num)) nums (currentBytes s) /\
     Forall (fun err => err = Some ErrExceedsMax) errs) /\
  (showBytes c = false ->
   forall nums, exists errs s' w', AddAll E c nums s w = Done (errs, s') w').
Proof.
  intros Hnew Hk Hhist.
  assert (Ht : tracked c s).
  { eapply AddAll_tracked; [|exact Hhist]. eapply NewOptions64_tracked; exact Hnew. }
  split; [|split].
  - intros num err s' w' Ha.
    pose proof (Add64_known_count _ _ _ _ _ _ _ Hk Ht Ha) as Hn.
    destruct (Z.ltb_spec (currentNum s) (max c)) as [Hlt|Hge]; split; intros; lia.
  - intros Hgt nums errs s' w'. apply AddAll_stuck; assumption.
  - intros Hb. eapply Totality.further_calls_return; eassumption.
Qed.

(** C1, as the code has it.  Once fifty unit increments have completed a
    bar of length 50, the count stays at 50 and no later call reports the
    out-of-range error, halted or not: the only error a later call can
    return is the sink's, and with byte counts off every run of later
    calls does return.  A halted tracker returns at once, without an
    error and without touching its state or the outside. *)
Theorem completed_bar_reports_no_overshoot
    (options : list Option) (w0 : world) (c : config) (s0 : state) (w1 : world)
    (errs : list (option error)) (s : state) (w : world) :
  NewOptions64 E 50 options w0 = Done (c, s0) w1 ->
  AddAll E c (ones 50) s0 w1 = Done (errs, s) w ->
  currentNum s = 50 /\
  (forall nums errs' s' w',
      AddAll E c nums s w = Done (errs', s') w' ->
      currentNum s' = 50 /\ Forall (sink_error c) errs') /\
  (showBytes c = false ->
   forall nums, exists errs' s' w', AddAll E c nums s w = Done (errs', s') w') /\
  (forall num sh wh, exit sh = true -> Add64 E c num sh wh = Done (None, sh) wh).
Proof.
  intros Hnew Hrun.
  pose proof (NewOptions64_tracked _ _ _ _ _ _ Hnew) as Ht0.
  destruct (NewOptions64_fresh _ _ _ _ _ _ _ Hnew) as (Hn0 & _ & _ & _ & _ & Hk & _).
  destruct (Hk ltac:(lia)) as [Hmax Hkn].
  assert (Hn : currentNum s = 50).
  { rewrite (AddAll_ones_known c 50 s0 w1 errs s w Hkn Ht0); try assumption.
    - rewrite Hn0. reflexivity.
    - lia.
    - rewrite Hn0, Hmax. simpl. lia.
    - rewrite Hmax. unfold Int64.max_int. lia. }
  split; [exact Hn|]. split.
  - intros nums errs' s' w' H.
    pose proof (AddAll_tracked _ _ _ _ _ _ _ Ht0 Hrun) as Ht.
    rewrite <- Hmax.
    eapply AddAll_at_max; try eassumption; lia.
  - split.
    + intros Hb. eapply Totality.further_calls_return; eassumption.
    + intros num sh wh Hx. apply Add64_halted. exact Hx.
Qed.

(** C6, as the code has it.  A tracker built with the unknown-length
    sentinel takes its width as maximum; when that width is at least 2
    (and an int), unit increments from zero count modulo the maximum, so
    the count is 1 after max+1 of them; and whatever is added, the count
    never exceeds max-1. *)
Theorem unknown_length_count_wraps
    (options : list Option) (w0 : world) (c : config) (s0 : state) (w1 : world) :
  NewOptions64 E (-1) options w0 = Done (c, s0) w1 ->
  2 <= width c <= Int64.max_int ->
  max c = width c /\
  (forall k errs s w,
      AddAll E c (ones k) s0 w1 = Done (errs, s) w ->
      currentNum s = Z.of_nat k mod max c) /\
  (forall errs s w,
      AddAll E c (ones (Z.to_nat (max c + 1))) s0 w1 = Done (errs, s) w ->
      currentNum s = 1) /\
  (forall nums errs s w,
      AddAll E c nums s0 w1 = Done (errs, s) w ->
      currentNum s <= max c - 1).
Proof.
  intros Hnew Hw.
  pose proof (NewOptions64_tracked _ _ _ _ _ _ Hnew) as Ht0.
  destruct (NewOptions64_fresh _ _ _ _ _ _ _ Hnew) as (Hn0 & _ & _ & _ & _ & _ & Hu).
  destruct (Hu eq_refl) as (Hmax & Hig & _).
  assert (Hmod : forall k errs s w,
             AddAll E c (ones k) s0 w1 = Done (errs, s) w ->
             currentNum s = Z.of_nat k mod max c).
  { intros k errs s w H.
    rewrite (AddAll_ones_unknown c k s0 w1 errs s w Hig Ht0); try assumption; try lia.
    rewrite Hn0. reflexivity. }
  split; [exact Hmax|]. split; [exact Hmod|]. split.
  - intros errs s w H. rewrite (Hmod _ _ _ _ H).
    rewrite Z2Nat.id by lia.
    replace (max c + 1) with (1 + 1 * max c) by lia.
    rewrite Z.mod_add by lia. apply Z.mod_small. lia.
  - intros nums errs s w H.
    pose proof (AddAll_unknown_bound _ _ _ _ _ _ _ Hig Ht0 ltac:(lia) ltac:(lia) H). lia.
Qed.






End WithEnv.

End Tracker.

(** ** The renderer's trace *)
Module Renderer.

Import F64 Go Progressbar Notions Frame.

Lemma completions_app w w' evs :
  trace w' = (trace w ++ evs)%list ->
  completions w' = (completions w + List.length (filter is_call evs))%nat.
Proof.
  intros H. unfold completions. rewrite H, filter_app, length_app. reflexivity.
Qed.

Section WithEnv.

Variable E : env.

Lemma writeString_trace c str w err w' :
  writeString c str w = Done err w' ->
  trace w' = (trace w ++ [write_event err str])%list.
Proof.
  unfold writeString. destruct (writer c (writes w)); intros H; inversion H; subst;
    reflexivity.
Qed.

Lemma clearProgressBar_trace c s w err w' :
  clearProgressBar c s w = Done err w' ->
  trace w' =
    (trace w ++ (if maxLineWidth s =? 0 then []
                 else [write_event err (if useANSICodes c then erase_text
                                        else blank_text s)]))%list.
Proof.
  unfold clearProgressBar.
  destruct (maxLineWidth s =? 0).
  { intros H; inversion H; subst. rewrite app_nil_r. reflexivity. }
  destruct (useANSICodes c). { apply writeString_trace. }
  destruct (maxLineWidth s <? 0). { discriminate. }
  apply writeString_trace.
Qed.

Lemma averageRate_of_trace s w r w' :
  averageRate_of E s w = Done r w' -> trace w' = trace w.
Proof.
  unfold averageRate_of.
  destruct (Nat.eqb _ 0 || finished s); intros H.
  - inv_bind H. apply time_Since_trace in Hm. same_world H. apply Hm.
  - same_world H. reflexivity.
Qed.

Lemma brackets_trace c s r w lr w' :
  brackets E c s r w = Done lr w' -> trace w' = trace w.
Proof.
  unfold brackets.
  destruct (predictTime c || elapsedTime c); intros H.
  - inv_bind H. apply time_Since_trace in Hm. same_world H. apply Hm.
  - same_world H. reflexivity.
Qed.

Lemma spinner_frame_trace c s w fr w' :
  spinner_frame E c s w = Done fr w' -> trace w' = trace w.
Proof.
  unfold spinner_frame.
  destruct (spinnerType c <? 0); [discriminate|].
  destruct (nth_error (spinners E) _) as [frames|]; [|discriminate].
  intros H. inv_bind H. apply time_Since_trace in Hm.
  destruct (to_int _ <? 0); [discriminate|].
  destruct (nth_error frames _); [|discriminate].
  same_world H. apply Hm.
Qed.

Lemma assemble_trace c s sa sh ra sb l r w str w' :
  assemble E c s sa sh ra sb l r w = Done str w' -> trace w' = trace w.
Proof.
  unfold assemble. destruct (ignoreLength c).
  - intros H. inv_bind H. apply spinner_frame_trace in Hm. same_world H. exact Hm.
  - destruct (r =? "")%string; intros H; same_world H; reflexivity.
Qed.

Lemma renderProgressBar_trace c s w w_ err s' w' :
  renderProgressBar E c s w = Done (w_, err, s') w' ->
  trace w' = (trace w ++ [write_event err (rendered s')])%list.
Proof.
  unfold renderProgressBar. intros H.
  inv_bind H. apply averageRate_of_trace in Hm.
  destruct (trailing_info c s a) as [sb|]; [|discriminate].
  inv_bind H. destruct a0 as [l rb]. apply brackets_trace in Hm0.
  destruct (fit_width E c s sb l rb) as [cw s1].
  destruct (saucer_parts c cw s1) as [[sa sh] s2].
  inv_bind H. apply assemble_trace in Hm1.
  inv_bind H. apply writeString_trace in Hm2.
  injection H as _ <- <- <-. cbn [rendered set_rendered]. rewrite Hm2. congruence.
Qed.

(** Writes are not callbacks. *)
Lemma write_event_is_not_a_call err str : is_call (write_event err str) = false.
Proof. destruct err; reflexivity. Qed.

Lemma clearProgressBar_completions c s w err w' :
  clearProgressBar c s w = Done err w' -> completions w' = completions w.
Proof.
  intros H. apply clearProgressBar_trace in H.
  rewrite (completions_app _ _ _ H).
  destruct (maxLineWidth s =? 0); simpl; [|rewrite write_event_is_not_a_call; simpl]; lia.
Qed.

Lemma renderProgressBar_completions c s w r s' w' :
  renderProgressBar E c s w = Done (r, s') w' -> completions w' = completions w.
Proof.
  destruct r as [w_ err]. intros H. apply renderProgressBar_trace in H.
  rewrite (completions_app _ _ _ H). simpl. rewrite write_event_is_not_a_call. simpl. lia.
Qed.

(** A render below the maximum, throttled or not, neither finishes the
    bar nor runs the callback. *)
Lemma render_below_max c s w err s' w' :
  render E c s w = Done (err, s') w' ->
  finished s = false -> currentNum s < max c ->
  finished s' = false /\ completions w' = completions w.
Proof.
  unfold render. intros H Hf Hlt.
  inv_bind H. apply time_Since_trace in Hm. destruct Hm as [Ht _].
  assert (C0 : completions w0 = completions w) by (unfold completions; congruence).
  destruct ((Nanoseconds a <? Nanoseconds (throttleDuration c)) && (currentNum s <? max c)).
  { injection H as _ <- <-. auto. }
  inv_bind H.
  assert (C1 : completions w1 = completions w0).
  { destruct (negb (useANSICodes c)).
    - eapply clearProgressBar_completions; eassumption.
    - same_world Hm. reflexivity. }
  destruct a0 as [e|]. { injection H as _ <- <-. split; [exact Hf | congruence]. }
  rewrite Hf in H. destruct (Z.leb_spec (max c) (currentNum s)) as [Hge|_]; [lia|].
  cbn [negb andb] in H. cbn [bind] in H. rewrite Hf in H.
  inv_bind H. destruct a0 as [[w_ err1] s1].
  pose proof (renderProgressBar_completions _ _ _ _ _ _ Hm0) as C2.
  apply renderProgressBar_undrawn in Hm0. unfold undrawn in Hm0.
  assert (Hf1 : finished s1 = false) by congruence.
  destruct err1 as [e|].
  - injection H as _ <- <-. split; [exact Hf1 | congruence].
  - assert (Hf2 : finished (if maxLineWidth s1 <? w_ then set_maxLineWidth w_ s1 else s1)
                  = false) by (destruct (maxLineWidth s1 <? w_); exact Hf1).
    inv_bind H. unfold time_Now in Hm1. injection Hm1 as <- <-.
    injection H as _ <- <-. split; [exact Hf2 | unfold completions in *; simpl; congruence].
Qed.

(** The render that finds the count at the maximum for the first time,
    and whose writes all succeed, finishes the bar and runs the callback
    once. *)
Lemma render_finishing c s w s' w' :
  render E c s w = Done (None, s') w' ->
  finished s = false -> max c <= currentNum s ->
  finished s' = true /\
  completions w' =
    (completions w + match onCompletion c with Some _ => 1 | None => 0 end)%nat.
Proof.
  unfold render. intros H Hf Hge.
  open_bind H as since w0 Hsince. apply time_Since_trace in Hsince. destruct Hsince as [Ht _].
  assert (C0 : completions w0 = completions w) by (unfold completions; congruence).
  destruct (Z.ltb_spec (currentNum s) (max c)) as [Hlt|_]; [lia|].
  rewrite andb_false_r in H.
  open_bind H as cerr w1 Hclear.
  assert (C1 : completions w1 = completions w0).
  { destruct (negb (useANSICodes c)).
    - eapply clearProgressBar_completions; eassumption.
    - same_world Hclear. reflexivity. }
  destruct cerr as [e|]. { discriminate H. }
  rewrite Hf in H. destruct (Z.leb_spec (max c) (currentNum s)) as [_|Hlt]; [|lia].
  cbn [negb andb] in H.
  open_bind H as s3 w3 Hfin. open_bind Hfin as s2 w2 Hdraw.
  assert (Hs2 : finished s2 = true /\ completions w2 = completions w1).
  { destruct (negb (clearOnFinish c)).
    - open_bind Hdraw as r wr Hr. destruct r as [r sr].
      pose proof (renderProgressBar_completions _ _ _ _ _ _ Hr) as C2.
      apply renderProgressBar_undrawn in Hr. unfold undrawn in Hr.
      apply Done_inj in Hdraw. destruct Hdraw as [<- <-]. cbn [snd].
      split; [|exact C2]. cbn [finished set_finished] in Hr. congruence.
    - apply Done_inj in Hdraw. destruct Hdraw as [<- <-]. auto. }
  destruct Hs2 as [Hf2 C2].
  assert (Hs3 : s3 = s2 /\ completions w3 =
            (completions w2 + match onCompletion c with Some _ => 1 | None => 0 end)%nat).
  { destruct (onCompletion c) as [f|]; apply Done_inj in Hfin; destruct Hfin as [<- <-].
    - split; [reflexivity|]. unfold completions, log_event. cbn [trace].
      rewrite filter_app, length_app. reflexivity.
    - split; [reflexivity | lia]. }
  destruct Hs3 as [-> C3]. rewrite Hf2 in H.
  destruct (useANSICodes c && clearOnFinish c).
  - open_bind H as e4 w4 Hc4. pose proof (clearProgressBar_completions _ _ _ _ _ Hc4) as C4.
    apply Done_inj in H. destruct H as [<- H]. injection H as _ <-.
    split; [exact Hf2 | lia].
  - apply Done_inj in H. destruct H as [<- H]. injection H as <-.
    split; [exact Hf2 | lia].
Qed.

(** C5, as the code has it.  A render that is neither throttled nor
    finished (nor finishing) writes, with ANSI mode off and a line on
    record: first a carriage return, as many spaces as the widest line so
    far and a carriage return, and then, unless that write failed, the new
    line.  With ANSI mode off and no line on record, and with ANSI mode
    on, it writes the new line and nothing before it: no erase sequence is
    emitted ahead of a line. *)
Theorem render_blanks_only_without_ansi c s w err s' w' :
  render E c s w = Done (err, s') w' ->
  finished s = false -> currentNum s < max c ->
  (Sub (clock E (ticks w)) (lastShown s) <? throttleDuration c) = false ->
  (useANSICodes c = false -> maxLineWidth s <> 0 ->
   (err = None ->
    trace w' = (trace w ++ [Wrote (blank_text s); Wrote (rendered s')])%list) /\
   (exists cerr rest,
      trace w' = (trace w ++ write_event cerr (blank_text s) :: rest)%list)) /\
  (useANSICodes c = false -> maxLineWidth s = 0 ->
   trace w' = (trace w ++ [write_event err (rendered s')])%list) /\
  (useANSICodes c = true ->
   trace w' = (trace w ++ [write_event err (rendered s')])%list).
Proof.
  unfold render. intros H Hf Hlt Hthr.
  unfold time_Since, time_Now in H. cbn [bind] in H.
  unfold Nanoseconds in H. rewrite Hthr in H. cbn [andb] in H.
  open_bind H as cerr w1 Hclear.
  assert (Hrest : cerr = None ->
            trace w' = (trace w1 ++ [write_event err (rendered s')])%list).
  { intros ->. rewrite Hf in H.
    destruct (Z.leb_spec (max c) (currentNum s)) as [Hge|_]; [lia|].
    cbn [negb andb bind] in H. rewrite Hf in H.
    open_bind H as r w2 Hdraw. destruct r as [[w_ derr] s2].
    apply renderProgressBar_trace in Hdraw.
    destruct derr as [e|].
    - apply Done_inj in H. destruct H as [<- H]. injection H as <- <-. exact Hdraw.
    - apply Done_inj in H. destruct H as [<- H]. injection H as <- <-.
      cbn [trace rendered set_lastShown].
      destruct (maxLineWidth s2 <? w_); exact Hdraw. }
  split; [|split].
  - intros Hansi Hwide. rewrite Hansi in Hclear. cbn [negb] in Hclear.
    apply clearProgressBar_trace in Hclear. rewrite Hansi in Hclear.
    destruct (Z.eqb_spec (maxLineWidth s) 0) as [|_]; [contradiction|].
    cbn [trace] in Hclear. split.
    + intros ->. destruct cerr as [e|].
      * apply Done_inj in H. destruct H as [_ H]. discriminate H.
      * rewrite (Hrest eq_refl), Hclear, <- app_assoc. reflexivity.
    + destruct cerr as [e|].
      * apply Done_inj in H. destruct H as [<- _].
        exists (Some e), []. exact Hclear.
      * exists None, [write_event err (rendered s')].
        rewrite (Hrest eq_refl), Hclear, <- app_assoc. reflexivity.
  - intros Hansi Hwide. rewrite Hansi in Hclear. cbn [negb] in Hclear.
    unfold clearProgressBar in Hclear. rewrite Hwide in Hclear. cbn [Z.eqb] in Hclear.
    apply Done_inj in Hclear. destruct Hclear as [<- <-].
    exact (Hrest eq_refl).
  - intros Hansi. rewrite Hansi in Hclear. cbn [negb] in Hclear.
    apply Done_inj in Hclear. destruct Hclear as [<- <-].
    exact (Hrest eq_refl).
Qed.

End WithEnv.

End Renderer.

(** ** Completion *)
Module Completion.

Import F64 Go Progressbar Notions Frame Tracker Renderer.

Section WithEnv.

Variable E : env.

(** A call that leaves the count below the maximum neither finishes the
    bar nor runs the callback, and records the percentage it computed. *)
Lemma Add64_below_max c num s w err s' w' :
  exit s = false -> max c <> 0 -> finished s = false ->
  Add64 E c num s w = Done (err, s') w' ->
  currentNum s' < max c ->
  finished s' = false /\ completions w' = completions w /\
  lastPercent s' = percent_of (currentNum s') (max c).
Proof.
  intros Hx Hm Hf H Hlt.
  pose proof (Add64_effect E _ _ _ _ _ _ _ Hx Hm H) as (Hn & _).
  rewrite Add64_unfold in H by assumption.
  open_bind H as s1 w1 Hroll. cbv zeta in H.
  destruct (roll_rates_frame E _ _ _ _ Hroll) as (Rn & _ & _ & _ & Rf & Rt & _).
  destruct (percent_step_frame c s1) as (Pn & _ & _ & Pf & _ & _ & Pl).
  assert (Rf' : finished s1 = false).
  { rewrite Rf. unfold counted, count_step.
    destruct (currentNum s <? max c); [destruct (ignoreLength c)|]; exact Hf. }
  assert (Rn' : currentNum s1 = currentNum s').
  { rewrite Rn, Hn. unfold counted. reflexivity. }
  assert (C1 : completions w1 = completions w) by (unfold completions; congruence).
  destruct (Z.ltb_spec (max c) (currentNum (fst (percent_step c s1)))) as [Hgt|_].
  { rewrite Pn, Rn' in Hgt. lia. }
  destruct (snd (percent_step c s1) || showIterationsCount c).
  - pose proof (render_counters E _ _ _ _ _ _ H) as Hc. unfold counters in Hc.
    assert (Hl : lastPercent s' = lastPercent (fst (percent_step c s1))) by congruence.
    apply render_below_max in H; [| congruence | rewrite Pn, Rn'; exact Hlt].
    destruct H as [Hf' C2]. rewrite Hl, Pl, Rn'. repeat split; congruence.
  - apply Done_inj in H. destruct H as [<- H].
    assert (Hs : s' = fst (percent_step c s1)) by congruence.
    rewrite Hs, Pl, Pn, Pf. repeat split; congruence.
Qed.

(** The call that brings the count to the maximum, draws without a write
    error, and finds the last drawn percentage below 100 (or the
    iteration display on), finishes the bar and runs the callback once. *)
Lemma Add64_completes c num s w s' w' :
  exit s = false -> 0 < max c <= Int64.max_int -> finished s = false ->
  Add64 E c num s w = Done (None, s') w' ->
  currentNum s' = max c ->
  showIterationsCount c = true \/ lastPercent s <> 100 ->
  finished s' = true /\
  completions w' =
    (completions w + match onCompletion c with Some _ => 1 | None => 0 end)%nat.
Proof.
  intros Hx Hm Hf H Heq Hdraw.
  assert (Hm0 : max c <> 0) by lia.
  pose proof (Add64_effect E _ _ _ _ _ _ _ Hx Hm0 H) as (Hn & _).
  rewrite Add64_unfold in H by assumption.
  open_bind H as s1 w1 Hroll. cbv zeta in H.
  destruct (roll_rates_frame E _ _ _ _ Hroll) as (Rn & _ & _ & Rl & Rf & Rt & _).
  destruct (percent_step_frame c s1) as (Pn & _ & _ & Pf & _ & _ & _).
  assert (Rf' : finished s1 = false).
  { rewrite Rf. unfold counted, count_step.
    destruct (currentNum s <? max c); [destruct (ignoreLength c)|]; exact Hf. }
  assert (Rl' : lastPercent s1 = lastPercent s).
  { rewrite Rl. unfold counted, count_step.
    destruct (currentNum s <? max c); [destruct (ignoreLength c)|]; reflexivity. }
  assert (Rn' : currentNum s1 = max c).
  { rewrite Rn, <- Heq, Hn. unfold counted. reflexivity. }
  assert (C1 : completions w1 = completions w) by (unfold completions; congruence).
  destruct (Z.ltb_spec (max c) (currentNum (fst (percent_step c s1)))) as [Hgt|_].
  { rewrite Pn, Rn' in Hgt. lia. }
  assert (Hgo : snd (percent_step c s1) || showIterationsCount c = true).
  { destruct Hdraw as [-> | Hne]; [apply orb_true_r|].
    apply orb_true_iff. left. unfold percent_step. cbn [snd].
    cbn [currentPercent lastPercent currentNum set_currentPercent set_currentSaucerSize].
    rewrite Rn', F64Facts.percent_of_full by exact Hm. rewrite Rl'.
    destruct (Z.eqb_spec 100 (lastPercent s)); [congruence | reflexivity]. }
  rewrite Hgo in H.
  apply render_finishing in H; [| congruence | rewrite Pn, Rn'; lia].
  destruct H as [Hf' C2]. split; [exact Hf' | congruence].
Qed.

(** Unit increments that stay below the maximum. *)
Lemma AddAll_ones_running c k : forall s w errs s' w',
  ignoreLength c = false -> tracked c s -> finished s = false ->
  0 <= currentNum s -> currentNum s + Z.of_nat k < max c -> max c <= Int64.max_int ->
  AddAll E c (ones k) s w = Done (errs, s') w' ->
  tracked c s' /\ currentNum s' = currentNum s + Z.of_nat k /\
  finished s' = false /\ completions w' = completions w /\
  List.length errs = k /\
  lastPercent s' = match k with
                   | O => lastPercent s
                   | S _ => percent_of (currentNum s') (max c)
                   end.
Proof.
  induction k as [|k IH]; intros s w errs s' w' Hk Ht Hf H0 Hlt Hmax H.
  - simpl in H. apply Done_inj in H. destruct H as [<- H]. injection H as <- <-.
    repeat split; try (apply Ht); auto. lia.
  - assert (Hsplit : ones (S k) = (ones k ++ [1])%list).
    { unfold ones. rewrite <- repeat_cons. reflexivity. }
    rewrite Hsplit in H. apply AddAll_app in H.
    destruct H as (errs1 & s1 & w1 & errs2 & H1 & H2 & ->).
    assert (Hlt1 : currentNum s + Z.of_nat k < max c) by lia.
    destruct (IH _ _ _ _ _ Hk Ht Hf H0 Hlt1 Hmax H1) as (Ht1 & Hn1 & Hf1 & C1 & L1 & _).
    apply AddAll_cons in H2. destruct H2 as (e & s2 & w2 & errs3 & Ha & Hnil & ->).
    simpl in Hnil. apply Done_inj in Hnil. destruct Hnil as [<- Hnil].
    injection Hnil as <- <-.
    pose proof (Add64_tracked E _ _ _ _ _ _ _ Ht1 Ha) as Ht2.
    pose proof (Add64_known_count E _ _ _ _ _ _ _ Hk Ht1 Ha) as Hn2.
    destruct (Z.ltb_spec (currentNum s1) (max c)) as [_|Hge]; [|lia].
    rewrite Int64Facts.add_small in Hn2
      by (unfold Int64.min_int, Int64.max_int in *; lia).
    destruct Ht1 as [Hx1 _].
    assert (Hm0 : max c <> 0) by lia.
    assert (Hlt2 : currentNum s2 < max c) by lia.
    destruct (Add64_below_max _ _ _ _ _ _ _ Hx1 Hm0 Hf1 Ha Hlt2) as (Hf2 & C2 & Hl2).
    repeat split; try (apply Ht2); try congruence; try lia.
    rewrite length_app, L1. simpl. lia.
Qed.

(** The constructor leaves a bar of positive length unfinished. *)
Lemma NewOptions64_unfinished max_ opts w0 c s0 w1 :
  NewOptions64 E max_ opts w0 = Done (c, s0) w1 -> 0 < max_ ->
  finished s0 = false /\ completions w1 = completions w0.
Proof.
  intros H Hpos.
  destruct (NewOptions64_fresh E _ _ _ _ _ _ H) as (_ & _ & _ & _ & _ & Hk & _).
  destruct (Hk ltac:(lia)) as [Hmax _].
  unfold NewOptions64 in H. open_bind H as sb wb Hb.
  apply getBasicState_fresh in Hb.
  destruct Hb as (F1 & _ & _ & _ & _ & F6 & _ & F8).
  destruct ((spinnerType _ <? 0) || (75 <? spinnerType _)); [discriminate|].
  match type of H with context [humanizeBytes ?x] =>
    destruct (humanizeBytes x) as [[h suf]|] end; [|discriminate].
  assert (C0 : completions wb = completions w0) by (unfold completions; congruence).
  match type of H with context [renderWithBlankState ?c2] => set (cc := c2) in * end.
  destruct (renderWithBlankState cc).
  - open_bind H as r wr Hr. destruct r as [e sr].
    apply Done_inj in H. destruct H as [<- H].
    assert (Hc : c = cc) by congruence.
    assert (Hs : s0 = sr) by (cbn [snd] in H; congruence).
    unfold RenderBlank in Hr. rewrite <- Hc in Hr.
    apply render_below_max in Hr.
    + destruct Hr as [Hf Hcm]. split; [congruence | congruence].
    + destruct (currentNum sb =? 0); exact F6.
    + rewrite Hmax. destruct (currentNum sb =? 0); cbn [currentNum set_lastShown]; lia.
  - apply Done_inj in H. destruct H as [<- H].
    assert (Hs : s0 = sb) by congruence. split; congruence.
Qed.

(** The run of N unit increments on a fresh bar of length N: its last
    call starts on an unfinished bar whose callback has not run, brings
    the count to the maximum, and, for N up to 2^53, finds the last
    drawn percentage below 100. *)
Lemma ones_run_last_call max_ opts w0 c s0 w1 errs s w :
  NewOptions64 E max_ opts w0 = Done (c, s0) w1 ->
  0 < max_ <= Int64.max_int ->
  AddAll E c (ones (Z.to_nat max_)) s0 w1 = Done (errs, s) w ->
  exists errs1 s1 w2 e,
    errs = (errs1 ++ [e])%list /\
    Add64 E c 1 s1 w2 = Done (e, s) w /\
    max c = max_ /\ exit s1 = false /\ finished s1 = false /\
    completions w2 = completions w0 /\
    currentNum s = max c /\
    (max_ <= 2 ^ 53 -> lastPercent s1 <> 100).
Proof.
  intros Hnew Hpos Hrun.
  pose proof (NewOptions64_tracked E _ _ _ _ _ _ Hnew) as Ht0.
  destruct (NewOptions64_fresh E _ _ _ _ _ _ Hnew) as (Hn0 & Hl0 & _ & _ & _ & Hk & _).
  destruct (Hk ltac:(lia)) as [Hmax Hkn].
  assert (Hp0 : 0 < max_) by lia.
  destruct (NewOptions64_unfinished _ _ _ _ _ _ Hnew Hp0) as [Hf0 C0].
  assert (Hsplit : ones (Z.to_nat max_) = (ones (Z.to_nat (max_ - 1)) ++ [1])%list).
  { replace (Z.to_nat max_) with (S (Z.to_nat (max_ - 1))) by lia.
    unfold ones. rewrite <- repeat_cons. reflexivity. }
  rewrite Hsplit in Hrun. apply AddAll_app in Hrun.
  destruct Hrun as (errs1 & s1 & w2 & errs2 & H1 & H2 & ->).
  assert (B0 : 0 <= currentNum s0) by lia.
  assert (B1 : currentNum s0 + Z.of_nat (Z.to_nat (max_ - 1)) < max c) by lia.
  assert (B2 : max c <= Int64.max_int) by lia.
  destruct (AddAll_ones_running c _ _ _ _ _ _ Hkn Ht0 Hf0 B0 B1 B2 H1)
    as (Ht1 & Hn1 & Hf1 & C1 & _ & Hl1).
  apply AddAll_cons in H2. destruct H2 as (e & s2 & w3 & errs3 & Ha & Hnil & ->).
  simpl in Hnil. apply Done_inj in Hnil. destruct Hnil as [<- Hnil].
  injection Hnil as <- <-.
  pose proof (Add64_known_count E _ _ _ _ _ _ _ Hkn Ht1 Ha) as Hn2.
  destruct (Z.ltb_spec (currentNum s1) (max c)) as [_|Hge]; [|lia].
  rewrite Int64Facts.add_small in Hn2
    by (unfold Int64.min_int, Int64.max_int in *; lia).
  destruct Ht1 as [Hx1 _].
  exists errs1, s1, w2, e.
  repeat split; try assumption; try congruence; try lia.
  intros Hp. rewrite Hl1. destruct (Z.to_nat (max_ - 1)) as [|k] eqn:Hz.
  - rewrite Hl0. discriminate.
  - rewrite Hn1, Hn0, Hmax, <- Hz, Z2Nat.id by lia.
    apply F64Facts.percent_of_before_full. lia.
Qed.

(** C3, as the code has it.  For a tracker built with a maximum N > 0,
    provided the last call redraws (the iteration display is on, or N
    is at most 2^53, which keeps the float percentage below 100 until
    the last call): after N calls of Add(1), the last of which returned
    no error, the finished flag is set and the completion callback, when
    one is configured, has run exactly once, construction included (and
    never when none is).  With byte counts off and a sink that accepts
    every write, the N calls do return, the last without an error. *)
Theorem completion_callback_fires_once
    (max_ : Z) (options : list Option) (w0 : world)
    (c : config) (s0 : state) (w1 : world) :
  NewOptions64 E max_ options w0 = Done (c, s0) w1 ->
  0 < max_ <= Int64.max_int ->
  showIterationsCount c = true \/ max_ <= 2 ^ 53 ->
  (forall errs s w,
      AddAll E c (ones (Z.to_nat max_)) s0 w1 = Done (errs, s) w ->
      last errs None = None ->
      finished s = true /\
      completions w =
        (completions w0 + match onCompletion c with Some _ => 1 | None => 0 end)%nat) /\
  (showBytes c = false -> (forall n, writer c n = true) ->
   exists errs s w,
     AddAll E c (ones (Z.to_nat max_)) s0 w1 = Done (errs, s) w /\
     last errs None = None).
Proof.
  intros Hnew Hpos Hdraw. split.
  - intros errs s w Hrun Hlast.
    destruct (ones_run_last_call _ _ _ _ _ _ _ _ _ Hnew Hpos Hrun)
      as (errs1 & s1 & w2 & e & -> & Ha & Hmax & Hx1 & Hf1 & C1 & Hn & Hl).
    rewrite last_last in Hlast. subst e.
    assert (B3 : 0 < max c <= Int64.max_int) by lia.
    assert (Hd : showIterationsCount c = true \/ lastPercent s1 <> 100).
    { destruct Hdraw as [Hs | Hp]; [left; exact Hs | right; exact (Hl Hp)]. }
    destruct (Add64_completes _ _ _ _ _ _ Hx1 B3 Hf1 Ha Hn Hd) as [Hf2 C2].
    split; [exact Hf2 | congruence].
  - intros Hb Hacc.
    destruct (NewOptions64_fresh E _ _ _ _ _ _ Hnew) as (_ & _ & _ & _ & _ & Hk & _).
    destruct (Hk ltac:(lia)) as [_ Hkn].
    pose proof (Totality.NewOptions64_drawable E _ _ _ _ _ _ Hnew Hb Hkn) as Hd0.
    destruct (Totality.AddAll_returns E c (ones (Z.to_nat max_)) s0 w1 Hd0)
      as (errs & s & w & Hrun & _).
    exists errs, s, w. split; [exact Hrun|].
    destruct (ones_run_last_call _ _ _ _ _ _ _ _ _ Hnew Hpos Hrun)
      as (errs1 & s1 & w2 & e & -> & Ha & Hmax & Hx1 & _ & _ & Hn & _).
    rewrite last_last.
    assert (Hm0 : max c <> 0) by lia.
    destruct (Add64_effect E _ _ _ _ _ _ _ Hx1 Hm0 Ha) as (_ & _ & _ & _ & He).
    apply (sink_error_accepted c); [exact Hacc | apply He; lia].
Qed.

End WithEnv.

End Completion.

(** ** The bracketed time segment *)
Module TimeSegment.

Import F64 Go Progressbar Notions Frame Tracker Renderer.



Section WithEnv.

Variable E : env.







End WithEnv.

End TimeSegment.

(** ** Runs of the tracker in the concrete environment *)
Module TrackerRuns.

Import F64 Go Progressbar Notions Frame Tracker Demo.

(** C1, as stated, fails: after fifty unit increments have completed a bar
    of length 50 with zero throttle, the next call, with no halt
    requested, returns no error at all. *)
Lemma completed_bar_next_call_is_not_an_error :
  exists c s0 w1 errs s w s' w',
    NewOptions64 env0 50 [OptionThrottle 0] new_world = Done (c, s0) w1 /\
    AddAll env0 c (ones 50) s0 w1 = Done (errs, s) w /\
    finished s = true /\ exit s = false /\
    Add64 env0 c 1 s w = Done (None, s') w' /\
    None <> Some ErrExceedsMax.
Proof.
  do 8 eexists.
  split; [vm_compute; reflexivity|].
  split; [vm_compute; reflexivity|].
  split; [reflexivity|]. split; [reflexivity|].
  split; [vm_compute; reflexivity | discriminate].
Qed.

Lemma completed_bar_reports_no_overshoot_witness :
  exists c s0 w1 errs s w,
    NewOptions64 env0 50 [OptionThrottle 0] new_world = Done (c, s0) w1 /\
    AddAll env0 c (ones 50) s0 w1 = Done (errs, s) w /\
    currentNum s = 50 /\
    (forall nums errs' s' w',
        AddAll env0 c nums s w = Done (errs', s') w' ->
        currentNum s' = 50 /\ Forall (sink_error c) errs') /\
    (showBytes c = false ->
     forall nums, exists errs' s' w', AddAll env0 c nums s w = Done (errs', s') w') /\
    (forall num sh wh, exit sh = true -> Add64 env0 c num sh wh = Done (None, sh) wh).
Proof.
  do 6 eexists.
  split; [vm_compute; reflexivity|].
  split; [vm_compute; reflexivity|].
  eapply (completed_bar_reports_no_overshoot env0 [OptionThrottle 0] new_world).
  - vm_compute. reflexivity.
  - vm_compute. reflexivity.
Defined.

(** C6, as stated, fails at width 1: every count is then a remainder
    modulo 1, and after max+1 = 2 unit increments the count is 0, not 1. *)
Lemma width_one_spinner_counts_zero :
  exists c s0 w1 errs s w,
    NewOptions64 env0 (-1) [OptionSetWidth 1] new_world = Done (c, s0) w1 /\
    ignoreLength c = true /\ max c = 1 /\
    AddAll env0 c (ones (Z.to_nat (max c + 1))) s0 w1 = Done (errs, s) w /\
    currentNum s = 0 /\ currentNum s <> 1.
Proof.
  do 6 eexists.
  split; [vm_compute; reflexivity|].
  split; [reflexivity|]. split; [reflexivity|].
  split; [vm_compute; reflexivity|].
  split; [reflexivity | discriminate].
Qed.

Lemma unknown_length_count_wraps_witness :
  exists c s0 w1 errs s w,
    NewOptions64 env0 (-1) [OptionSetWidth 3] new_world = Done (c, s0) w1 /\
    2 <= width c <= Int64.max_int /\
    AddAll env0 c (ones (Z.to_nat (max c + 1))) s0 w1 = Done (errs, s) w /\
    currentNum s = 1.
Proof.
  do 6 eexists.
  split; [vm_compute; reflexivity|].
  split; [vm_compute; split; discriminate|].
  split; [vm_compute; reflexivity|].
  refine (proj1 (proj2 (proj2 (unknown_length_count_wraps env0 [OptionSetWidth 3]
                                 new_world _ _ _ _ _))) _ _ _ _).
  - vm_compute. reflexivity.
  - vm_compute. split; discriminate.
  - vm_compute. reflexivity.
Defined.

Lemma Add64_count_only_below_max_witness :
  exists c s0 w1 errs0 s w,
    NewOptions64 env0 5 [] new_world = Done (c, s0) w1 /\
    ignoreLength c = false /\
    AddAll env0 c [1; 1; 10] s0 w1 = Done (errs0, s) w /\
    max c < currentNum s /\
    (forall nums errs s' w',
        AddAll env0 c nums s w = Done (errs, s') w' ->
        currentNum s' = currentNum s /\
        currentBytes s' = fold_left (fun b num => add b (of_int num)) nums (currentBytes s) /\
        Forall (fun err => err = Some ErrExceedsMax) errs).
Proof.
  do 6 eexists.
  split; [vm_compute; reflexivity|].
  split; [reflexivity|].
  split; [vm_compute; reflexivity|].
  split; [reflexivity|].
  refine (proj1 (proj2 (Add64_count_only_below_max env0 5 [] new_world _ _ _ [1; 1; 10]
                          _ _ _ _ _ _)) _).
  - vm_compute. reflexivity.
  - reflexivity.
  - vm_compute. reflexivity.
  - reflexivity.
Defined.


(** C2: a negative maximum is not refused.  With max = -5 a call of
    [Add64] gets past the check for zero, adds the delta to the byte total
    and to the window count, and returns the out-of-range error instead of
    the one for an invalid maximum. *)
Theorem negative_max_is_not_refused :
  exists c s0 w1 s' w',
    NewOptions64 env0 (-5) [] new_world = Done (c, s0) w1 /\
    max c = -5 /\ ignoreLength c = false /\
    Add64 env0 c 1 s0 w1 = Done (Some ErrExceedsMax, s') w' /\
    currentBytes s0 = zero /\ currentBytes s' = of_int 1 /\
    counterNumSinceLast s0 = 0 /\ counterNumSinceLast s' = 1.
Proof.
  do 5 eexists.
  split; [vm_compute; reflexivity|].
  split; [reflexivity|]. split; [reflexivity|].
  split; [vm_compute; reflexivity|].
  repeat split; reflexivity.
Qed.

(** C4: byte display alone forces no redraw.  With byte display on and
    iteration display off, a call that leaves the percentage at 0 returns
    without drawing anything; the same call with iteration display on
    draws a line. *)
Theorem byte_display_alone_does_not_redraw :
  (exists c s0 w1 s' w',
      NewOptions64 env0 1000 [OptionShowBytes true] new_world = Done (c, s0) w1 /\
      showBytes c = true /\ showIterationsCount c = false /\
      Add64 env0 c 1 s0 w1 = Done (None, s') w' /\
      trace w' = [] /\ rendered s' = "") /\
  (exists c s0 w1 s' w' line,
      NewOptions64 env0 1000 [OptionShowCount] new_world = Done (c, s0) w1 /\
      showBytes c = false /\ showIterationsCount c = true /\
      Add64 env0 c 1 s0 w1 = Done (None, s') w' /\
      trace w' = [Wrote line] /\ rendered s' = line).
Proof.
  split.
  - do 5 eexists.
    split; [vm_compute; reflexivity|].
    split; [reflexivity|]. split; [reflexivity|].
    split; [vm_compute; reflexivity|].
    split; reflexivity.
  - do 6 eexists.
    split; [vm_compute; reflexivity|].
    split; [reflexivity|]. split; [reflexivity|].
    split; [vm_compute; reflexivity|].
    split; reflexivity.
Qed.

End TrackerRuns.

(** ** Runs of the renderer in the concrete environment *)
Module RendererRuns.

Import F64 Go Progressbar Notions Frame Tracker Renderer Completion TimeSegment Demo.

(** C3, as stated, fails when the sink refuses the write that blanks the
    line before the final draw: with a maximum of 2 and a sink that
    accepts its first write only, the second of two unit increments
    returns the write error, the bar is not finished and the configured
    callback has not run. *)
Lemma failed_blanking_leaves_bar_unfinished :
  exists c s0 w1 errs s w,
    NewOptions64 env0 2 [OptionSetWriter failing_sink; OptionOnCompletion (Callback 1)]
      new_world = Done (c, s0) w1 /\
    onCompletion c = Some (Callback 1) /\
    AddAll env0 c (ones (Z.to_nat 2)) s0 w1 = Done (errs, s) w /\
    errs = [None; Some ErrWrite] /\
    currentNum s = 2 /\ finished s = false /\ completions w = 0%nat.
Proof.
  do 6 eexists.
  split; [vm_compute; reflexivity|].
  split; [reflexivity|].
  split; [vm_compute; reflexivity|].
  repeat split; reflexivity.
Qed.

Lemma completion_callback_fires_once_witness :
  exists c s0 w1 errs s w,
    NewOptions64 env0 4 [OptionOnCompletion (Callback 1)] new_world = Done (c, s0) w1 /\
    0 < 4 <= Int64.max_int /\
    4 <= 2 ^ 53 /\
    AddAll env0 c (ones (Z.to_nat 4)) s0 w1 = Done (errs, s) w /\
    last errs None = None /\
    completions w = 1%nat /\
    finished s = true /\
    completions w =
      (completions new_world
       + match onCompletion c with Some _ => 1 | None => 0 end)%nat.
Proof.
  do 6 eexists.
  split; [vm_compute; reflexivity|].
  split; [vm_compute; split; [reflexivity | discriminate]|].
  split; [vm_compute; discriminate|].
  split; [vm_compute; reflexivity|].
  split; [reflexivity|].
  split; [reflexivity|].
  match goal with
  | |- finished ?s = true /\ completions ?w = (_ + match onCompletion ?c with _ => _ end)%nat =>
      refine (proj1 (completion_callback_fires_once env0 4 [OptionOnCompletion (Callback 1)]
                       new_world c _ _ _ _ _) _ s w _ _)
  end.
  - vm_compute. reflexivity.
  - vm_compute. split; [reflexivity | discriminate].
  - right. vm_compute. discriminate.
  - vm_compute. reflexivity.
  - reflexivity.
Defined.

(** C5, as stated, fails in ANSI mode: a render that is neither throttled
    nor finished, with a line already on record, writes the new line and
    nothing else; the erase-line sequence is nowhere in the trace. *)
Lemma ansi_render_emits_no_erase_sequence :
  exists c0 s0 w1 c errs s w s' w',
    NewOptions64 env0 100 [] new_world = Done (c0, s0) w1 /\
    c = with_useANSICodes true c0 /\
    AddAll env0 c [1] s0 w1 = Done (errs, s) w /\
    maxLineWidth s <> 0 /\ finished s = false /\ currentNum s < max c /\
    (Sub (clock env0 (ticks w)) (lastShown s) <? throttleDuration c) = false /\
    render env0 c s w = Done (None, s') w' /\
    trace w' = (trace w ++ [Wrote (rendered s')])%list /\
    ~ In (Wrote erase_text) (trace w').
Proof.
  do 9 eexists.
  split; [vm_compute; reflexivity|].
  split; [reflexivity|].
  split; [vm_compute; reflexivity|].
  split; [vm_compute; discriminate|].
  split; [reflexivity|].
  split; [reflexivity|].
  split; [vm_compute; reflexivity|].
  split; [vm_compute; reflexivity|].
  split; [reflexivity|].
  vm_compute. intros [H|[H|[]]]; discriminate H.
Qed.

Lemma render_blanks_only_without_ansi_witness :
  exists c s0 w1 errs s w s' w',
    NewOptions64 env0 100 [] new_world = Done (c, s0) w1 /\
    AddAll env0 c [1] s0 w1 = Done (errs, s) w /\
    render env0 c s w = Done (None, s') w' /\
    useANSICodes c = false /\ maxLineWidth s <> 0 /\
    trace w' = (trace w ++ [Wrote (blank_text s); Wrote (rendered s')])%list.
Proof.
  do 8 eexists.
  split; [vm_compute; reflexivity|].
  split; [vm_compute; reflexivity|].
  split; [vm_compute; reflexivity|].
  match goal with
  | |- useANSICodes ?c = false /\ _ /\
       trace ?w' = (trace ?w ++ [Wrote (blank_text ?s); Wrote (rendered ?s')])%list =>
      pose proof (render_blanks_only_without_ansi env0 c s w None s' w') as T
  end.
  assert (Hwide : 57 <> 0) by discriminate.
  split; [reflexivity|]. split; [exact Hwide|].
  refine (proj1 (proj1 (T _ _ _ _) _ _) eq_refl).
  - vm_compute. reflexivity.
  - reflexivity.
  - reflexivity.
  - vm_compute. reflexivity.
  - reflexivity.
  - exact Hwide.
Defined.



End RendererRuns.

(** ** Humanized byte counts *)
Module Humanize.

Import F64 Go Progressbar Notions.



End Humanize.

(** ** The life of a tracker: the finished flag and the callback *)

Module Lifecycle.

Import F64 Go Progressbar Notions Frame Tracker Renderer Demo.

Section WithEnv.

Variable E : env.

(** Whatever [render] does, the callback count moves with the finished
    flag, and the flag is never taken back. *)
Lemma render_due c s w err s' w' :
  render E c s w = Done (err, s') w' ->
  (completions w' + due c s = completions w + due c s')%nat /\
  (finished s = true -> finished s' = true).
Proof.
  unfold render. intros H.
  open_bind H as since w0 Hsince. apply time_Since_trace in Hsince.
  destruct Hsince as [Ht _].
  assert (C0 : completions w0 = completions w) by (unfold completions; congruence).
  destruct ((Nanoseconds since <? Nanoseconds (throttleDuration c)) && (currentNum s <? max c)).
  { apply Done_pair_inj in H. destruct H as (_ & <- & <-). split; [lia | auto]. }
  open_bind H as cerr w1 Hclear.
  assert (C1 : completions w1 = completions w0).
  { destruct (negb (useANSICodes c)).
    - eapply clearProgressBar_completions; eassumption.
    - same_world Hclear. reflexivity. }
  destruct cerr as [e|].
  { apply Done_pair_inj in H. destruct H as (_ & <- & <-). split; [lia | auto]. }
  open_bind H as s3 w3 Hfin.
  assert (Hs3 : (completions w3 + due c s = completions w1 + due c s3)%nat /\
                (finished s = true -> finished s3 = true) /\
                (finished s3 = false -> s3 = s)).
  { destruct (finished s) eqn:Hf; cbn [negb andb] in Hfin.
    - apply Done_inj in Hfin. destruct Hfin as [<- <-]. repeat split; congruence.
    - destruct (max c <=? currentNum s).
      + open_bind Hfin as s2 w2 Hdraw.
        assert (Hs2 : finished s2 = true /\ completions w2 = completions w1).
        { destruct (negb (clearOnFinish c)).
          - open_bind Hdraw as r wr Hr. destruct r as [r sr].
            pose proof (renderProgressBar_completions E _ _ _ _ _ _ Hr) as C2.
            apply renderProgressBar_undrawn in Hr. unfold undrawn in Hr.
            apply Done_inj in Hdraw. destruct Hdraw as [<- <-]. cbn [snd].
            split; [|exact C2]. cbn [finished set_finished] in Hr. congruence.
          - apply Done_inj in Hdraw. destruct Hdraw as [<- <-]. auto. }
        destruct Hs2 as [Hf2 C2].
        assert (Hf3 : finished s3 = true) by
          (destruct (onCompletion c); apply Done_inj in Hfin; destruct Hfin as [_ <-];
           exact Hf2).
        split; [|split; [discriminate | congruence]].
        unfold due. rewrite Hf, Hf3.
        destruct (onCompletion c) as [f|]; apply Done_inj in Hfin; destruct Hfin as [<- _].
        * unfold completions, log_event in *. cbn [trace].
          rewrite filter_app, length_app. cbn. lia.
        * lia.
      + apply Done_inj in Hfin. destruct Hfin as [<- <-]. repeat split; congruence. }
  destruct Hs3 as (C3 & Hk3 & Hs3).
  destruct (finished s3) eqn:Hf3.
  - assert (C4 : completions w' = completions w3 /\ s' = s3).
    { destruct (useANSICodes c && clearOnFinish c).
      - open_bind H as e4 w4 Hc4.
        pose proof (clearProgressBar_completions _ _ _ _ _ Hc4) as C4.
        apply Done_pair_inj in H. destruct H as (_ & <- & <-). auto.
      - apply Done_pair_inj in H. destruct H as (_ & <- & <-). auto. }
    destruct C4 as [C4 ->]. split; [lia | intros; exact Hf3].
  - rewrite (Hs3 eq_refl) in *.
    open_bind H as r w4 Hdraw. destruct r as [[w_ derr] s4].
    pose proof (renderProgressBar_completions E _ _ _ _ _ _ Hdraw) as C4.
    apply renderProgressBar_undrawn in Hdraw. unfold undrawn in Hdraw.
    assert (Hf4 : finished s4 = false) by congruence.
    assert (Hfin' : finished s' = false /\ completions w' = completions w4).
    { destruct derr as [e|].
      - apply Done_pair_inj in H. destruct H as (_ & <- & <-). auto.
      - open_bind H as now w5 Hnow. unfold time_Now in Hnow.
        apply Done_inj in Hnow. destruct Hnow as [<- _].
        apply Done_pair_inj in H. destruct H as (_ & <- & <-).
        split; [destruct (maxLineWidth s4 <? w_); exact Hf4 | reflexivity]. }
    destruct Hfin' as [Hf' C5]. split; [|congruence].
    unfold due in *. rewrite Hf', Hf3 in *. lia.
Qed.

Lemma Add64_due c num s w err s' w' :
  Add64 E c num s w = Done (err, s') w' ->
  (completions w' + due c s = completions w + due c s')%nat /\
  (finished s = true -> finished s' = true).
Proof.
  intros H.
  destruct (exit s) eqn:Hx.
  { rewrite Add64_halted in H by exact Hx.
    apply Done_pair_inj in H. destruct H as (_ & <- & <-). split; [lia | auto]. }
  destruct (Z.eq_dec (max c) 0) as [Hm|Hm].
  { rewrite Add64_max_zero in H by assumption.
    apply Done_pair_inj in H. destruct H as (_ & <- & <-). split; [lia | auto]. }
  rewrite Add64_unfold in H by assumption.
  open_bind H as s1 w1 Hroll. cbv zeta in H.
  destruct (roll_rates_frame E _ _ _ _ Hroll) as (_ & _ & _ & _ & Rf & Rt & _).
  destruct (percent_step_frame c s1) as (_ & _ & _ & Pf & _).
  assert (Rf' : finished (fst (percent_step c s1)) = finished s).
  { rewrite Pf, Rf. unfold counted, count_step.
    destruct (currentNum s <? max c); [destruct (ignoreLength c)|]; reflexivity. }
  assert (C1 : completions w1 = completions w) by (unfold completions; congruence).
  assert (D1 : due c (fst (percent_step c s1)) = due c s) by (unfold due; rewrite Rf'; reflexivity).
  destruct (max c <? currentNum (fst (percent_step c s1))).
  { apply Done_pair_inj in H. destruct H as (_ & <- & <-). split; [lia | congruence]. }
  destruct (snd (percent_step c s1) || showIterationsCount c).
  - apply render_due in H. destruct H as [C2 Hk]. split; [lia | intros; apply Hk; congruence].
  - apply Done_pair_inj in H. destruct H as (_ & <- & <-). split; [lia | congruence].
Qed.

Lemma AddAll_due c nums : forall s w errs s' w',
  AddAll E c nums s w = Done (errs, s') w' ->
  (completions w' + due c s = completions w + due c s')%nat /\
  (finished s = true -> finished s' = true).
Proof.
  induction nums as [|num rest IH]; intros s w errs s' w' H.
  - cbn [AddAll] in H. apply Done_pair_inj in H. destruct H as (_ & <- & <-).
    split; [lia | auto].
  - apply AddAll_cons in H. destruct H as (e & s1 & w1 & errs1 & Ha & Hr & _).
    apply Add64_due in Ha. apply IH in Hr. destruct Ha, Hr. split; [lia | auto].
Qed.

Lemma NewOptions64_due max_ opts w0 c s0 w1 :
  NewOptions64 E max_ opts w0 = Done (c, s0) w1 ->
  completions w1 = (completions w0 + due c s0)%nat.
Proof.
  unfold NewOptions64. intros H. open_bind H as sb wb Hb.
  apply getBasicState_fresh in Hb.
  destruct Hb as (_ & _ & _ & _ & _ & F6 & _ & F8).
  assert (C0 : completions wb = completions w0) by (unfold completions; congruence).
  destruct ((spinnerType _ <? 0) || (75 <? spinnerType _)); [discriminate|].
  match type of H with context [humanizeBytes ?x] =>
    destruct (humanizeBytes x) as [[h suf]|] end; [|discriminate].
  match type of H with context [renderWithBlankState ?c2] => set (cc := c2) in * end.
  destruct (renderWithBlankState cc).
  - open_bind H as r wr Hr. destruct r as [e sr].
    apply Done_pair_inj in H. destruct H as (<- & <- & <-).
    unfold RenderBlank in Hr. apply render_due in Hr. destruct Hr as [C1 _].
    cbn [snd]. unfold due in C1 at 1.
    replace (finished (if currentNum sb =? 0 then set_lastShown zero_Time sb else sb))
      with false in C1 by (destruct (currentNum sb =? 0); symmetry; exact F6).
    lia.
  - apply Done_pair_inj in H. destruct H as (<- & <- & <-).
    unfold due. rewrite F6. lia.
Qed.

(** The constructor leaves a bar of positive length, spinners included,
    unfinished. *)
Lemma NewOptions64_positive_unfinished max_ opts w0 c s0 w1 :
  NewOptions64 E max_ opts w0 = Done (c, s0) w1 -> 0 < max c -> finished s0 = false.
Proof.
  intros H Hpos.
  destruct (NewOptions64_fresh E _ _ _ _ _ _ H) as (Hn0 & _).
  unfold NewOptions64 in H. open_bind H as sb wb Hb.
  apply getBasicState_fresh in Hb.
  destruct Hb as (F1 & _ & _ & _ & _ & F6 & _).
  destruct ((spinnerType _ <? 0) || (75 <? spinnerType _)); [discriminate|].
  match type of H with context [humanizeBytes ?x] =>
    destruct (humanizeBytes x) as [[h suf]|] end; [|discriminate].
  match type of H with context [renderWithBlankState ?c2] => set (cc := c2) in * end.
  destruct (renderWithBlankState cc).
  - open_bind H as r wr Hr. destruct r as [e sr].
    apply Done_pair_inj in H. destruct H as (<- & <- & _).
    unfold RenderBlank in Hr. apply render_below_max in Hr.
    + apply Hr.
    + destruct (currentNum sb =? 0); exact F6.
    + destruct (currentNum sb =? 0); cbn [currentNum set_lastShown]; lia.
  - apply Done_pair_inj in H. destruct H as (_ & <- & _). exact F6.
Qed.

(** A render that finds an unfinished bar at or above its maximum, and
    has nothing to blank first, finishes it, whatever the sink does. *)
Lemma render_finishes c s w err s' w' :
  render E c s w = Done (err, s') w' ->
  finished s = false -> max c <= currentNum s ->
  maxLineWidth s = 0 \/ useANSICodes c = true ->
  finished s' = true.
Proof.
  unfold render. intros H Hf Hge Hblank.
  open_bind H as since w0 Hsince.
  destruct (Z.ltb_spec (currentNum s) (max c)) as [Hlt|_]; [lia|].
  rewrite andb_false_r in H.
  open_bind H as cerr w1 Hclear.
  assert (Hc : cerr = None).
  { destruct Hblank as [Hz | Ha].
    - destruct (negb (useANSICodes c)).
      + unfold clearProgressBar in Hclear. rewrite Hz in Hclear. cbn [Z.eqb] in Hclear.
        apply Done_inj in Hclear. destruct Hclear as [_ <-]. reflexivity.
      + apply Done_inj in Hclear. destruct Hclear as [_ <-]. reflexivity.
    - rewrite Ha in Hclear. cbn [negb] in Hclear.
      apply Done_inj in Hclear. destruct Hclear as [_ <-]. reflexivity. }
  subst cerr. rewrite Hf in H.
  destruct (Z.leb_spec (max c) (currentNum s)) as [_|Hlt]; [|lia].
  cbn [negb andb] in H.
  open_bind H as s3 w3 Hfin. open_bind Hfin as s2 w2 Hdraw.
  assert (Hf2 : finished s2 = true).
  { destruct (negb (clearOnFinish c)).
    - open_bind Hdraw as r wr Hr. destruct r as [r sr].
      apply renderProgressBar_undrawn in Hr. unfold undrawn in Hr.
      apply Done_inj in Hdraw. destruct Hdraw as [_ <-]. cbn [snd].
      cbn [finished set_finished] in Hr. congruence.
    - apply Done_inj in Hdraw. destruct Hdraw as [_ <-]. reflexivity. }
  assert (Hf3 : finished s3 = true) by
    (destruct (onCompletion c); apply Done_inj in Hfin; destruct Hfin as [_ <-]; exact Hf2).
  rewrite Hf3 in H.
  destruct (useANSICodes c && clearOnFinish c).
  - open_bind H as e4 w4 Hc4. apply Done_pair_inj in H. destruct H as (_ & <- & _).
    exact Hf3.
  - apply Done_pair_inj in H. destruct H as (_ & <- & _). exact Hf3.
Qed.

(** Over the whole life of a tracker, construction and any calls of
    [Add64], whatever the maximum, the options, the deltas, the clock and
    the sink: the completion callback has run exactly once if the bar is
    finished and a callback is configured, and not at all otherwise, so
    it never runs twice; and a finished bar stays finished, with no
    further run of the callback. *)
Theorem callback_runs_once_iff_finished
    (max_ : Z) (options : list Option) (w0 : world) (c : config) (s0 : state) (w1 : world)
    (nums : list Z) (errs : list (option error)) (s : state) (w : world) :
  NewOptions64 E max_ options w0 = Done (c, s0) w1 ->
  AddAll E c nums s0 w1 = Done (errs, s) w ->
  completions w = (completions w0 + due c s)%nat /\
  (completions w <= completions w0 + 1)%nat /\
  (forall nums' errs' s' w',
      AddAll E c nums' s w = Done (errs', s') w' ->
      finished s = true -> finished s' = true /\ completions w' = completions w).
Proof.
  intros Hnew Hrun.
  pose proof (NewOptions64_due _ _ _ _ _ _ Hnew) as C0.
  destruct (AddAll_due _ _ _ _ _ _ _ Hrun) as [C1 _].
  assert (C : completions w = (completions w0 + due c s)%nat) by lia.
  split; [exact C|]. split.
  - rewrite C. unfold due. destruct (finished s); [destruct (onCompletion c)|]; lia.
  - intros nums' errs' s' w' Hmore Hf.
    destruct (AddAll_due _ _ _ _ _ _ _ Hmore) as [C2 Hk].
    pose proof (Hk Hf) as Hf'. split; [exact Hf'|].
    unfold due in C2. rewrite Hf, Hf' in C2. lia.
Qed.

(** A spinner, a tracker of unknown length (built with the maximum -1)
    and of positive width, never completes: whatever is added, the bar
    is not finished, the callback has not run, the count is below the
    width, and no call reports anything but a refusal of the sink. *)
Theorem spinner_never_finishes
    (options : list Option) (w0 : world) (c : config) (s0 : state) (w1 : world)
    (nums : list Z) (errs : list (option error)) (s : state) (w : world) :
  NewOptions64 E (-1) options w0 = Done (c, s0) w1 ->
  1 <= width c ->
  AddAll E c nums s0 w1 = Done (errs, s) w ->
  finished s = false /\ completions w = completions w0 /\
  currentNum s < width c /\ Forall (sink_error c) errs.
Proof.
  intros Hnew Hw Hrun.
  pose proof (NewOptions64_tracked E _ _ _ _ _ _ Hnew) as Ht0.
  destruct (NewOptions64_fresh E _ _ _ _ _ _ Hnew) as (Hn0 & _ & _ & _ & _ & _ & Hk).
  destruct (Hk eq_refl) as (Hmax & Hil & _).
  assert (Hpos : 0 < max c) by lia.
  pose proof (NewOptions64_positive_unfinished _ _ _ _ _ _ Hnew Hpos) as Hf0.
  pose proof (NewOptions64_due _ _ _ _ _ _ Hnew) as C0.
  assert (Hlt0 : currentNum s0 < max c) by lia.
  assert (Hgen : forall nums s1 w2 errs s w,
            tracked c s1 -> finished s1 = false -> currentNum s1 < max c ->
            AddAll E c nums s1 w2 = Done (errs, s) w ->
            finished s = false /\ currentNum s < max c /\ Forall (sink_error c) errs).
  { clear - Hil Hpos. induction nums as [|n nums IH]; intros s1 w2 errs s w Ht Hf Hlt H.
    - cbn [AddAll] in H. apply Done_pair_inj in H. destruct H as (<- & <- & _). auto.
    - apply AddAll_cons in H. destruct H as (e & s2 & w3 & errs1 & Ha & Hr & ->).
      pose proof (Add64_tracked E _ _ _ _ _ _ _ Ht Ha) as Ht2.
      pose proof (Add64_unknown_count E _ _ _ _ _ _ _ Hil Ht ltac:(lia) Ha) as Hn.
      destruct (Z.ltb_spec (currentNum s1) (max c)) as [_|Hge]; [|lia].
      assert (Hlt2 : currentNum s2 < max c).
      { rewrite Hn. unfold Int64.rem.
        pose proof (Z.rem_bound_abs (Int64.add (currentNum s1) n) (max c) ltac:(lia)). lia. }
      destruct Ht as [Hx _].
      assert (Hm0 : max c <> 0) by lia.
      destruct (Completion.Add64_below_max E _ _ _ _ _ _ _ Hx Hm0 Hf Ha Hlt2) as (Hf2 & _).
      destruct (Add64_effect E _ _ _ _ _ _ _ Hx Hm0 Ha) as (_ & _ & _ & _ & He).
      destruct (IH _ _ _ _ _ Ht2 Hf2 Hlt2 Hr) as (I1 & I2 & I3).
      repeat split; try assumption. constructor; [apply He; lia | exact I3]. }
  destruct (Hgen _ _ _ _ _ _ Ht0 Hf0 Hlt0 Hrun) as (Hf & Hlt & Herr).
  destruct (AddAll_due _ _ _ _ _ _ _ Hrun) as [C1 _].
  unfold due in *. rewrite Hf in C1. rewrite Hf0 in C0, C1.
  repeat split; try assumption; lia.
Qed.

(** A tracker whose maximum is zero or negative (and not the -1 of a
    spinner), built with the blank state drawn, is finished by the
    constructor itself: the count 0 is already at or above the maximum,
    so the first render marks the bar finished and runs the callback
    before any [Add64]. *)
Theorem nonpositive_max_finishes_at_construction
    (max_ : Z) (options : list Option) (w0 : world) (c : config) (s0 : state) (w1 : world) :
  NewOptions64 E max_ options w0 = Done (c, s0) w1 ->
  max_ <= 0 -> max_ <> -1 -> renderWithBlankState c = true ->
  finished s0 = true /\
  completions w1 =
    (completions w0 + match onCompletion c with Some _ => 1 | None => 0 end)%nat.
Proof.
  intros Hnew Hle Hne Hblank.
  pose proof (NewOptions64_due _ _ _ _ _ _ Hnew) as C0.
  destruct (NewOptions64_fresh E _ _ _ _ _ _ Hnew) as (_ & _ & _ & _ & _ & Hk & _).
  destruct (Hk Hne) as [Hmax _].
  assert (Hf : finished s0 = true).
  { unfold NewOptions64 in Hnew. open_bind Hnew as sb wb Hb.
    apply getBasicState_fresh in Hb.
    destruct Hb as (F1 & _ & _ & _ & _ & F6 & F7 & _).
    destruct ((spinnerType _ <? 0) || (75 <? spinnerType _)); [discriminate|].
    match type of Hnew with context [humanizeBytes ?x] =>
      destruct (humanizeBytes x) as [[h suf]|] end; [|discriminate].
    match type of Hnew with context [renderWithBlankState ?c2] => set (cc := c2) in * end.
    destruct (renderWithBlankState cc) eqn:Hb.
    - open_bind Hnew as r wr Hr. destruct r as [e sr].
      apply Done_pair_inj in Hnew. destruct Hnew as (<- & <- & _).
      unfold RenderBlank in Hr. apply render_finishes in Hr.
      + exact Hr.
      + destruct (currentNum sb =? 0); exact F6.
      + destruct (currentNum sb =? 0); cbn [currentNum set_lastShown]; lia.
      + left. destruct (currentNum sb =? 0); exact F7.
    - apply Done_pair_inj in Hnew. destruct Hnew as (<- & _ & _). congruence. }
  split; [exact Hf|]. unfold due in C0. rewrite Hf in C0. exact C0.
Qed.

(** A tracker built with the maximum 0 refuses every call: each
    [Add64] returns the error that the maximum must be greater than 0,
    and neither the state nor the outside changes. *)
Theorem zero_max_refuses_every_call
    (options : list Option) (w0 : world) (c : config) (s0 : state) (w1 : world)
    (nums : list Z) :
  NewOptions64 E 0 options w0 = Done (c, s0) w1 ->
  AddAll E c nums s0 w1 = Done (map (fun _ => Some ErrMaxZero) nums, s0) w1.
Proof.
  intros Hnew.
  destruct (NewOptions64_fresh E _ _ _ _ _ _ Hnew) as (_ & _ & Hx & _ & _ & Hk & _).
  destruct (Hk ltac:(discriminate)) as [Hmax _].
  induction nums as [|n nums IH]; cbn [AddAll map]; [reflexivity|].
  rewrite Add64_max_zero by assumption. cbn [bind]. rewrite IH. reflexivity.
Qed.

End WithEnv.

Lemma callback_runs_once_iff_finished_witness :
  exists c s0 w1 errs s w,
    NewOptions64 env0 3 [OptionOnCompletion (Callback 1); OptionShowCount] new_world
      = Done (c, s0) w1 /\
    AddAll env0 c [1; 1; 1; 1; 1] s0 w1 = Done (errs, s) w /\
    finished s = true /\
    completions w = 1%nat /\
    completions w = (completions new_world + due c s)%nat.
Proof.
  do 6 eexists.
  split; [vm_compute; reflexivity|].
  split; [vm_compute; reflexivity|].
  split; [reflexivity|].
  split; [reflexivity|].
  match goal with
  | |- completions ?w = (_ + due ?c ?s)%nat =>
      refine (proj1 (callback_runs_once_iff_finished env0 3
                       [OptionOnCompletion (Callback 1); OptionShowCount] new_world
                       c _ _ [1; 1; 1; 1; 1] _ s w _ _))
  end.
  - vm_compute. reflexivity.
  - vm_compute. reflexivity.
Defined.

Lemma spinner_never_finishes_witness :
  exists c s0 w1 errs s w,
    NewOptions64 env0 (-1) [OptionSetWidth 5; OptionOnCompletion (Callback 1)] new_world
      = Done (c, s0) w1 /\
    1 <= width c /\
    AddAll env0 c [1; 1; 1; 1; 1; 1; 1] s0 w1 = Done (errs, s) w /\
    currentNum s = 2 /\
    finished s = false /\ completions w = completions new_world /\
    currentNum s < width c /\ Forall (sink_error c) errs.
Proof.
  do 6 eexists.
  split; [vm_compute; reflexivity|].
  split; [vm_compute; discriminate|].
  split; [vm_compute; reflexivity|].
  split; [reflexivity|].
  match goal with
  | |- finished ?s = false /\ completions ?w = _ /\ _ < width ?c /\ _ =>
      refine (spinner_never_finishes env0
                [OptionSetWidth 5; OptionOnCompletion (Callback 1)] new_world
                c _ _ [1; 1; 1; 1; 1; 1; 1] _ s w _ _ _)
  end.
  - vm_compute. reflexivity.
  - vm_compute. discriminate.
  - vm_compute. reflexivity.
Defined.

Lemma nonpositive_max_finishes_at_construction_witness :
  exists c s0 w1,
    NewOptions64 env0 0 [OptionSetRenderBlankState true; OptionOnCompletion (Callback 1)]
      new_world = Done (c, s0) w1 /\
    completions w1 = 1%nat /\
    finished s0 = true /\
    completions w1 =
      (completions new_world + match onCompletion c with Some _ => 1 | None => 0 end)%nat.
Proof.
  do 3 eexists.
  split; [vm_compute; reflexivity|].
  split; [reflexivity|].
  match goal with
  | |- finished ?s0 = true /\ completions ?w1 = (_ + match onCompletion ?c with _ => _ end)%nat =>
      refine (nonpositive_max_finishes_at_construction env0 0
                [OptionSetRenderBlankState true; OptionOnCompletion (Callback 1)]
                new_world c s0 w1 _ _ _ _)
  end.
  - vm_compute. reflexivity.
  - discriminate.
  - discriminate.
  - reflexivity.
Defined.

Lemma zero_max_refuses_every_call_witness :
  exists c s0 w1,
    NewOptions64 env0 0 [] new_world = Done (c, s0) w1 /\
    AddAll env0 c [1; 2; 3] s0 w1
      = Done ([Some ErrMaxZero; Some ErrMaxZero; Some ErrMaxZero], s0) w1.
Proof.
  do 3 eexists.
  split; [vm_compute; reflexivity|].
  match goal with
  | |- AddAll env0 ?c _ ?s0 ?w1 = _ =>
      refine (zero_max_refuses_every_call env0 [] new_world c s0 w1 [1; 2; 3] _)
  end.
  vm_compute. reflexivity.
Defined.

End Lifecycle.

(** ** What a call sends to the sink *)

Module Output.

Import F64 Go Progressbar Notions Frame Tracker Renderer Demo.

Section WithEnv.

Variable E : env.

Lemma writeString_writes c str w err w' :
  writeString c str w = Done err w' -> writes w' = S (writes w).
Proof.
  unfold writeString. destruct (writer c (writes w)); intros H;
    apply Done_inj in H; destruct H as [<- _]; reflexivity.
Qed.

Lemma clearProgressBar_writes c s w err w' :
  clearProgressBar c s w = Done err w' ->
  writes w' = (writes w + (if (maxLineWidth s =? 0)%Z then 0 else 1))%nat.
Proof.
  unfold clearProgressBar. destruct (maxLineWidth s =? 0).
  { intros H. apply Done_inj in H. destruct H as [<- _]. lia. }
  destruct (useANSICodes c). { intros H. apply writeString_writes in H. lia. }
  destruct (maxLineWidth s <? 0); [discriminate|].
  intros H. apply writeString_writes in H. lia.
Qed.

Lemma averageRate_of_writes s w r w' :
  averageRate_of E s w = Done r w' -> writes w' = writes w.
Proof.
  unfold averageRate_of.
  destruct (Nat.eqb _ 0 || finished s); intros H.
  - inv_bind H. apply time_Since_trace in Hm. same_world H. apply Hm.
  - same_world H. reflexivity.
Qed.

Lemma brackets_writes c s r w lr w' :
  brackets E c s r w = Done lr w' -> writes w' = writes w.
Proof.
  unfold brackets.
  destruct (predictTime c || elapsedTime c); intros H.
  - inv_bind H. apply time_Since_trace in Hm. same_world H. apply Hm.
  - same_world H. reflexivity.
Qed.

Lemma spinner_frame_writes c s w fr w' :
  spinner_frame E c s w = Done fr w' -> writes w' = writes w.
Proof.
  unfold spinner_frame.
  destruct (spinnerType c <? 0); [discriminate|].
  destruct (nth_error (spinners E) _) as [frames|]; [|discriminate].
  intros H. inv_bind H. apply time_Since_trace in Hm.
  destruct (to_int _ <? 0); [discriminate|].
  destruct (nth_error frames _); [|discriminate].
  same_world H. apply Hm.
Qed.

Lemma assemble_writes c s sa sh ra sb l r w str w' :
  assemble E c s sa sh ra sb l r w = Done str w' -> writes w' = writes w.
Proof.
  unfold assemble. destruct (ignoreLength c).
  - intros H. inv_bind H. apply spinner_frame_writes in Hm. same_world H. exact Hm.
  - destruct (r =? "")%string; intros H; same_world H; reflexivity.
Qed.

(** [renderProgressBar] is one write. *)
Lemma renderProgressBar_writes c s w r s' w' :
  renderProgressBar E c s w = Done (r, s') w' -> writes w' = S (writes w).
Proof.
  unfold renderProgressBar. intros H.
  inv_bind H. apply averageRate_of_writes in Hm.
  destruct (trailing_info c s a) as [sb|]; [|discriminate].
  inv_bind H. destruct a0 as [l rb]. apply brackets_writes in Hm0.
  destruct (fit_width E c s sb l rb) as [cw s1].
  destruct (saucer_parts c cw s1) as [[sa sh] s2].
  inv_bind H. apply assemble_writes in Hm1.
  inv_bind H. apply writeString_writes in Hm2.
  same_world H. congruence.
Qed.

Lemma render_writes c s w err s' w' :
  render E c s w = Done (err, s') w' ->
  (writes w <= writes w' <= writes w + 2)%nat.
Proof.
  unfold render. intros H.
  open_bind H as since w0 Hsince. apply time_Since_trace in Hsince.
  destruct Hsince as [_ W0].
  destruct ((Nanoseconds since <? Nanoseconds (throttleDuration c)) && (currentNum s <? max c)).
  { same_world H. lia. }
  open_bind H as cerr w1 Hclear.
  assert (W1 : (writes w0 <= writes w1 <= writes w0 + (if useANSICodes c then 0 else 1))%nat).
  { destruct (useANSICodes c); cbn [negb] in Hclear.
    - same_world Hclear. lia.
    - apply clearProgressBar_writes in Hclear. destruct (maxLineWidth s =? 0); lia. }
  destruct cerr as [e|].
  { same_world H. destruct (useANSICodes c); lia. }
  open_bind H as s3 w3 Hfin.
  assert (W3 : (writes w1 <= writes w3 <= writes w1 + (if clearOnFinish c then 0 else 1))%nat /\
               (finished s3 = false -> writes w3 = writes w1)).
  { destruct (negb (finished s) && (max c <=? currentNum s)) eqn:Hcond.
    - open_bind Hfin as s2 w2 Hdraw.
      assert (W2 : (writes w1 <= writes w2 <= writes w1 + (if clearOnFinish c then 0 else 1))%nat /\
                   finished s2 = true).
      { destruct (clearOnFinish c); cbn [negb] in Hdraw.
        - apply Done_inj in Hdraw. destruct Hdraw as [<- <-]. split; [lia | reflexivity].
        - open_bind Hdraw as r wr Hr. destruct r as [r sr].
          pose proof (renderProgressBar_writes _ _ _ _ _ _ Hr) as Wr.
          apply renderProgressBar_undrawn in Hr. unfold undrawn in Hr.
          apply Done_inj in Hdraw. destruct Hdraw as [<- <-]. cbn [snd].
          split; [lia|]. cbn [finished set_finished] in Hr. congruence. }
      destruct W2 as [W2 Hf2].
      destruct (onCompletion c); apply Done_inj in Hfin; destruct Hfin as [<- <-];
        cbn [writes log_event]; (split; [lia | congruence]).
    - apply Done_inj in Hfin. destruct Hfin as [<- <-].
      split; [destruct (clearOnFinish c); lia | reflexivity]. }
  destruct W3 as [W3 W3'].
  destruct (finished s3) eqn:Hf3.
  - destruct (useANSICodes c) eqn:Ha; destruct (clearOnFinish c) eqn:Hc; cbn [andb] in H.
    + open_bind H as e4 w4 Hc4. apply clearProgressBar_writes in Hc4.
      same_world H. destruct (maxLineWidth s3 =? 0); lia.
    + same_world H. lia.
    + same_world H. lia.
    + same_world H. lia.
  - open_bind H as r w4 Hdraw. destruct r as [[w_ derr] s4].
    apply renderProgressBar_writes in Hdraw.
    pose proof (W3' eq_refl) as W3''.
    assert (W5 : writes w' = writes w4).
    { destruct derr as [e|].
      - same_world H. reflexivity.
      - open_bind H as now w5 Hnow. unfold time_Now in Hnow.
        apply Done_inj in Hnow. destruct Hnow as [<- _]. same_world H. reflexivity. }
    destruct (useANSICodes c); lia.
Qed.

(** What the bookkeeping of a call leaves alone. *)
Lemma Add64_prelude_display c num s w s1 w1 :
  roll_rates E (counted c num s) w = Done s1 w1 ->
  display (fst (percent_step c s1)) = display s /\
  trace w1 = trace w /\ writes w1 = writes w.
Proof.
  unfold roll_rates, time_Since, time_Now. cbn [bind].
  assert (Hd : display (counted c num s) = display s).
  { unfold counted, count_step.
    destruct (currentNum s <? max c); [destruct (ignoreLength c)|]; reflexivity. }
  destruct (ltb half _); cbn [bind]; intros H;
    apply Done_inj in H; destruct H as [<- <-];
    (split; [rewrite <- Hd; reflexivity | split; reflexivity]).
Qed.

(** One call of [Add64] writes to the sink at most twice (the blanking
    and the line) and runs the callback at most once. *)
Theorem Add64_writes_at_most_twice c num s w err s' w' :
  Add64 E c num s w = Done (err, s') w' ->
  (writes w <= writes w' <= writes w + 2)%nat /\
  (completions w <= completions w' <= completions w + 1)%nat.
Proof.
  intros H.
  pose proof (Lifecycle.Add64_due E _ _ _ _ _ _ _ H) as [C Hk].
  assert (Hc : (completions w <= completions w' <= completions w + 1)%nat).
  { unfold due in C.
    destruct (finished s); [rewrite (Hk eq_refl) in C | destruct (finished s')];
      destruct (onCompletion c); lia. }
  split; [|exact Hc]. clear C Hc Hk.
  destruct (exit s) eqn:Hx.
  { rewrite Add64_halted in H by exact Hx. same_world H. lia. }
  destruct (Z.eq_dec (max c) 0) as [Hm|Hm].
  { rewrite Add64_max_zero in H by assumption. same_world H. lia. }
  rewrite Add64_unfold in H by assumption.
  open_bind H as s1 w1 Hroll. cbv zeta in H.
  destruct (Add64_prelude_display _ _ _ _ _ _ Hroll) as (_ & _ & W1).
  destruct (max c <? currentNum (fst (percent_step c s1))).
  { same_world H. lia. }
  destruct (snd (percent_step c s1) || showIterationsCount c).
  - apply render_writes in H. lia.
  - same_world H. lia.
Qed.

Lemma display_fields s1 s2 :
  display s1 = display s2 ->
  rendered s1 = rendered s2 /\ maxLineWidth s1 = maxLineWidth s2 /\
  finished s1 = finished s2 /\ lastShown s1 = lastShown s2 /\ exit s1 = exit s2.
Proof. unfold display. intros H. inversion H. auto. Qed.

(** A render of a finished bar, with ANSI mode off: the line on record
    is blanked, and nothing is drawn or changed. *)
Lemma render_finished c s w err s' w' :
  render E c s w = Done (err, s') w' ->
  finished s = true -> max c <= currentNum s -> useANSICodes c = false ->
  s' = s /\
  trace w' = (trace w ++ (if maxLineWidth s =? 0 then []
                          else [write_event err (blank_text s)]))%list.
Proof.
  unfold render. intros H Hf Hge Ha.
  open_bind H as since w0 Hsince. apply time_Since_trace in Hsince.
  destruct Hsince as [T0 _].
  destruct (Z.ltb_spec (currentNum s) (max c)) as [Hlt|_]; [lia|].
  rewrite andb_false_r in H. rewrite Ha in H. cbn [negb andb] in H.
  open_bind H as cerr w1 Hclear.
  assert (Hz : maxLineWidth s = 0 -> cerr = None).
  { intros Hz. unfold clearProgressBar in Hclear. rewrite Hz in Hclear.
    cbn [Z.eqb] in Hclear. apply Done_inj in Hclear. destruct Hclear as [_ <-].
    reflexivity. }
  apply clearProgressBar_trace in Hclear. rewrite Ha, T0 in Hclear.
  destruct cerr as [e|].
  { apply Done_pair_inj in H. destruct H as (<- & <- & <-). split; [reflexivity|].
    exact Hclear. }
  rewrite Hf in H. cbn [negb andb bind] in H. rewrite Hf in H.
  apply Done_pair_inj in H. destruct H as (<- & <- & <-). split; [reflexivity|].
  exact Hclear.
Qed.

(** Once a bar is finished at its maximum, a further [Add64] draws no
    line: the count, the rendered text, the blanking width and the
    finished flag stay, and all the call can send to the sink is the
    blanking of the line on record, which it does send whenever the
    iteration count is shown. *)
Theorem finished_bar_is_blanked_not_redrawn c num s w err s' w' :
  Add64 E c num s w = Done (err, s') w' ->
  finished s = true -> currentNum s = max c -> useANSICodes c = false ->
  display s' = display s /\ currentNum s' = max c /\
  (trace w' = trace w \/
   (maxLineWidth s <> 0 /\
    trace w' = (trace w ++ [write_event err (blank_text s)])%list)) /\
  (showIterationsCount c = true -> exit s = false -> max c <> 0 ->
   maxLineWidth s <> 0 ->
   trace w' = (trace w ++ [write_event err (blank_text s)])%list).
Proof.
  intros H Hf Heq Ha.
  destruct (exit s) eqn:Hx.
  { rewrite Add64_halted in H by exact Hx.
    apply Done_pair_inj in H. destruct H as (_ & <- & <-).
    repeat split; auto. discriminate. }
  destruct (Z.eq_dec (max c) 0) as [Hm|Hm].
  { rewrite Add64_max_zero in H by assumption.
    apply Done_pair_inj in H. destruct H as (_ & <- & <-).
    repeat split; auto. intros _ _ Hne. contradiction. }
  rewrite Add64_unfold in H by assumption.
  open_bind H as s1 w1 Hroll. cbv zeta in H.
  destruct (Add64_prelude_display _ _ _ _ _ _ Hroll) as (Hd & T1 & _).
  destruct (roll_rates_frame E _ _ _ _ Hroll) as (Rn & _).
  destruct (percent_step_frame c s1) as (Pn & _).
  assert (Hn : currentNum (fst (percent_step c s1)) = max c).
  { rewrite Pn, Rn. unfold counted, count_step. cbn [currentNum set_currentBytes
      set_counterNumSinceLast].
    destruct (Z.ltb_spec (currentNum s) (max c)); [lia | exact Heq]. }
  destruct (display_fields _ _ Hd) as (D1 & D2 & D3 & D4 & D5).
  destruct (Z.ltb_spec (max c) (currentNum (fst (percent_step c s1)))) as [Hgt|_]; [lia|].
  destruct (snd (percent_step c s1) || showIterationsCount c) eqn:Hgo.
  - apply render_finished in H; [| congruence | lia | exact Ha].
    destruct H as [-> Ht]. rewrite D2, T1 in Ht.
    assert (Hb : blank_text (fst (percent_step c s1)) = blank_text s)
      by (unfold blank_text; rewrite D2; reflexivity).
    rewrite Hb in Ht.
    split; [exact Hd|]. split; [exact Hn|]. split.
    + destruct (Z.eqb_spec (maxLineWidth s) 0) as [Hz|Hz].
      * left. rewrite Ht, app_nil_r. reflexivity.
      * right. split; [exact Hz | exact Ht].
    + intros _ _ _ Hz. destruct (Z.eqb_spec (maxLineWidth s) 0); [contradiction | exact Ht].
  - apply Done_pair_inj in H. destruct H as (_ & <- & <-).
    split; [exact Hd|]. split; [exact Hn|]. split; [left; exact T1|].
    intros Hs. rewrite Hs, orb_true_r in Hgo. discriminate.
Qed.

(** [renderProgressBar] returns the display width of the line it stored. *)
Lemma renderProgressBar_width c s w w_ err s' w' :
  renderProgressBar E c s w = Done (w_, err, s') w' ->
  w_ = getStringWidth E c (rendered s') false.
Proof.
  unfold renderProgressBar. intros H.
  inv_bind H.
  destruct (trailing_info c s a) as [sb|]; [|discriminate].
  inv_bind H. destruct a0 as [l rb].
  destruct (fit_width E c s sb l rb) as [cw s1].
  destruct (saucer_parts c cw s1) as [[sa sh] s2].
  inv_bind H. inv_bind H.
  apply Done_inj in H. destruct H as [_ H].
  injection H as <- _ <-. reflexivity.
Qed.

(** The width [render] keeps for blanking never shrinks, and after a
    line is drawn on an unfinished bar it is the larger of the old width
    and the width of that line: the next blanking covers the line. *)
Theorem blanking_width_covers_drawn_line c s w err s' w' :
  render E c s w = Done (err, s') w' ->
  maxLineWidth s <= maxLineWidth s' /\
  (err = None -> finished s' = false ->
   (s' = s /\ trace w' = trace w) \/
   (maxLineWidth s' = Z.max (maxLineWidth s) (getStringWidth E c (rendered s') false) /\
    exists evs, trace w' = (trace w ++ evs ++ [Wrote (rendered s')])%list)).
Proof.
  unfold render. intros H.
  open_bind H as since w0 Hsince. apply time_Since_trace in Hsince.
  destruct Hsince as [T0 _].
  destruct ((Nanoseconds since <? Nanoseconds (throttleDuration c)) && (currentNum s <? max c)).
  { apply Done_pair_inj in H. destruct H as (_ & <- & <-).
    split; [lia|]. intros _ _. left. split; [reflexivity | exact T0]. }
  open_bind H as cerr w1 Hclear.
  assert (T1 : exists evs, trace w1 = (trace w ++ evs)%list).
  { destruct (negb (useANSICodes c)).
    - apply clearProgressBar_trace in Hclear. rewrite T0 in Hclear. eauto.
    - same_world Hclear. exists []. rewrite app_nil_r. exact T0. }
  destruct T1 as [evs T1].
  destruct cerr as [e|].
  { apply Done_pair_inj in H. destruct H as (<- & <- & _).
    split; [lia|]. discriminate. }
  open_bind H as s3 w3 Hfin.
  assert (H3 : maxLineWidth s3 = maxLineWidth s /\
               (finished s3 = false -> s3 = s /\ w3 = w1)).
  { destruct (negb (finished s) && (max c <=? currentNum s)).
    - open_bind Hfin as s2 w2 Hdraw.
      assert (H2 : maxLineWidth s2 = maxLineWidth s /\ finished s2 = true).
      { destruct (negb (clearOnFinish c)).
        - open_bind Hdraw as r wr Hr. destruct r as [r sr].
          apply renderProgressBar_undrawn in Hr. unfold undrawn in Hr.
          apply Done_inj in Hdraw. destruct Hdraw as [_ <-]. cbn [snd].
          cbn [finished maxLineWidth set_finished] in Hr. split; congruence.
        - apply Done_inj in Hdraw. destruct Hdraw as [_ <-]. auto. }
      destruct H2 as [M2 F2].
      destruct (onCompletion c); apply Done_inj in Hfin; destruct Hfin as [_ <-];
        (split; [exact M2 | congruence]).
    - apply Done_inj in Hfin. destruct Hfin as [<- <-]. auto. }
  destruct H3 as [M3 U3].
  destruct (finished s3) eqn:Hf3.
  - assert (Hs : s' = s3).
    { destruct (useANSICodes c && clearOnFinish c).
      - open_bind H as e4 w4 Hc4. apply Done_pair_inj in H. destruct H as (_ & <- & _).
        reflexivity.
      - apply Done_pair_inj in H. destruct H as (_ & <- & _). reflexivity. }
    subst s'. split; [lia|]. intros _ Hf. congruence.
  - destruct (U3 eq_refl) as [-> ->].
    open_bind H as r w4 Hdraw. destruct r as [[w_ derr] s4].
    pose proof (renderProgressBar_width _ _ _ _ _ _ _ Hdraw) as Hw.
    pose proof (renderProgressBar_trace E _ _ _ _ _ _ _ Hdraw) as T4.
    apply renderProgressBar_undrawn in Hdraw. unfold undrawn in Hdraw.
    assert (M4 : maxLineWidth s4 = maxLineWidth s) by congruence.
    destruct derr as [e|].
    + apply Done_pair_inj in H. destruct H as (<- & <- & _).
      split; [lia|]. discriminate.
    + open_bind H as now w5 Hnow. unfold time_Now in Hnow.
      apply Done_inj in Hnow. destruct Hnow as [<- _].
      apply Done_pair_inj in H. destruct H as (_ & <- & <-).
      cbn [maxLineWidth rendered trace set_lastShown].
      destruct (Z.ltb_spec (maxLineWidth s4) w_) as [Hlt|Hge];
        cbn [maxLineWidth rendered set_maxLineWidth].
      * split; [lia|]. intros _ _. right. split; [lia|].
        exists evs. rewrite T4, T1, <- app_assoc. reflexivity.
      * split; [lia|]. intros _ _. right. split; [lia|].
        exists evs. rewrite T4, T1, <- app_assoc. reflexivity.
Qed.

Lemma assemble_starts_with_CR c s sa sh ra sb l r w str w' :
  assemble E c s sa sh ra sb l r w = Done str w' -> exists body, str = CR ++ body.
Proof.
  unfold assemble. destruct (ignoreLength c).
  - intros H. inv_bind H. apply Done_inj in H. destruct H as [_ <-].
    destruct (elapsedTime c); destruct (showDescriptionAtLineEnd c); eexists; reflexivity.
  - destruct (r =? "")%string; intros H; apply Done_inj in H; destruct H as [_ <-];
      destruct (showDescriptionAtLineEnd c); eexists; reflexivity.
Qed.

(** With colour markup off, the line [renderProgressBar] draws starts
    with a carriage return, is what [String] returns afterwards, is the
    one text sent to the sink, and the width returned is that of the
    line without its carriage returns. *)
Theorem drawn_line_is_kept_and_starts_with_CR c s w w_ err s' w' :
  renderProgressBar E c s w = Done (w_, err, s') w' ->
  colorCodes c = false ->
  (exists body, String_ s' = CR ++ body) /\
  trace w' = (trace w ++ [write_event err (String_ s')])%list /\
  w_ = StringWidth E (drop_CR (String_ s')).
Proof.
  intros H Hc.
  pose proof (renderProgressBar_trace E _ _ _ _ _ _ _ H) as T.
  pose proof (renderProgressBar_width _ _ _ _ _ _ _ H) as Hw.
  unfold getStringWidth in Hw. rewrite Hc in Hw.
  split; [|split; [exact T | exact Hw]].
  unfold renderProgressBar in H.
  inv_bind H.
  destruct (trailing_info c s a) as [sb|]; [|discriminate].
  inv_bind H. destruct a0 as [l rb].
  destruct (fit_width E c s sb l rb) as [cw s1].
  destruct (saucer_parts c cw s1) as [[sa sh] s2].
  inv_bind H. apply assemble_starts_with_CR in Hm1. destruct Hm1 as [body ->].
  inv_bind H. apply Done_inj in H. destruct H as [_ H].
  injection H as _ _ <-. rewrite Hc. exists body. reflexivity.
Qed.

(** A render that is not throttled, of an unfinished bar below its
    maximum with no line on record, is one write: the new line. *)
Lemma render_first_line c s w err s' w' :
  render E c s w = Done (err, s') w' ->
  finished s = false -> currentNum s < max c -> maxLineWidth s = 0 ->
  (Sub (clock E (ticks w)) (lastShown s) <? throttleDuration c) = false ->
  trace w' = (trace w ++ [write_event err (rendered s')])%list.
Proof.
  unfold render. intros H Hf Hlt Hz Hthr.
  unfold time_Since, time_Now in H. cbn [bind] in H.
  unfold Nanoseconds in H. rewrite Hthr in H. cbn [andb] in H.
  open_bind H as cerr w1 Hclear.
  assert (Hc : cerr = None /\ trace w1 = trace w).
  { destruct (negb (useANSICodes c)).
    - unfold clearProgressBar in Hclear. rewrite Hz in Hclear. cbn [Z.eqb] in Hclear.
      apply Done_inj in Hclear. destruct Hclear as [<- <-]. auto.
    - apply Done_inj in Hclear. destruct Hclear as [<- <-]. auto. }
  destruct Hc as [-> T1]. rewrite Hf in H.
  destruct (Z.leb_spec (max c) (currentNum s)) as [Hge|_]; [lia|].
  cbn [negb andb bind] in H. rewrite Hf in H.
  open_bind H as r w2 Hdraw. destruct r as [[w_ derr] s2].
  apply renderProgressBar_trace in Hdraw. rewrite T1 in Hdraw.
  destruct derr as [e|].
  - apply Done_pair_inj in H. destruct H as (<- & <- & <-). exact Hdraw.
  - apply Done_inj in H. destruct H as [<- H]. injection H as <- <-.
    cbn [trace rendered set_lastShown].
    destruct (maxLineWidth s2 <? w_); exact Hdraw.
Qed.

(** From the zero time every clock reading is the longest duration
    away, which no throttle exceeds. *)
Lemma since_zero_time_is_not_throttled (now throttle : Z) :
  Int64.in_range now = true -> Int64.in_range throttle = true ->
  (Sub now zero_Time <? throttle) = false.
Proof.
  unfold Int64.in_range, Int64.min_int, Int64.max_int. intros Hn Ht.
  apply andb_true_iff in Hn. destruct Hn as [N1 N2].
  apply andb_true_iff in Ht. destruct Ht as [T1 T2].
  apply Z.leb_le in N1, N2, T1, T2.
  apply Z.ltb_ge. unfold Sub, zero_Time, Int64.min_int, Int64.max_int. lia.
Qed.

(** [RenderBlank] on a bar whose count is 0 is never throttled, however
    long the throttle: it resets the time of the last draw to the zero
    time, from which every clock reading is the longest duration away.
    On a fresh, unfinished bar it writes the line. *)
Theorem RenderBlank_at_zero_is_never_throttled c s w err s' w' :
  RenderBlank E c s w = Done (err, s') w' ->
  currentNum s = 0 -> 0 < max c -> finished s = false -> maxLineWidth s = 0 ->
  Int64.in_range (clock E (ticks w)) = true ->
  Int64.in_range (throttleDuration c) = true ->
  trace w' = (trace w ++ [write_event err (rendered s')])%list.
Proof.
  unfold RenderBlank. intros H Hn Hpos Hf Hz Hclock Hthr.
  rewrite Hn in H. cbn [Z.eqb] in H.
  apply render_first_line in H; try assumption.
  - cbn [currentNum set_lastShown]. lia.
  - cbn [lastShown set_lastShown].
    apply since_zero_time_is_not_throttled; assumption.
Qed.

End WithEnv.

Lemma Add64_writes_at_most_twice_witness :
  exists c s0 w1 err s w,
    NewOptions64 env0 100 [OptionShowCount] new_world = Done (c, s0) w1 /\
    Add64 env0 c 1 s0 w1 = Done (err, s) w /\
    writes w1 = 0%nat /\ writes w = 1%nat /\
    (writes w1 <= writes w <= writes w1 + 2)%nat /\
    (completions w1 <= completions w <= completions w1 + 1)%nat.
Proof.
  let r := eval vm_compute in (NewOptions64 env0 100 [OptionShowCount] new_world) in
  lazymatch r with
  | Done (?c, ?s0) ?w1 =>
      let r2 := eval vm_compute in (Add64 env0 c 1 s0 w1) in
      lazymatch r2 with
      | Done (?err, ?s) ?w =>
          exists c, s0, w1, err, s, w;
          split; [vm_compute; reflexivity|];
          split; [vm_compute; reflexivity|];
          split; [reflexivity|]; split; [reflexivity|];
          refine (Add64_writes_at_most_twice env0 c 1 s0 w1 err s w _);
          vm_compute; reflexivity
      end
  end.
Defined.

Lemma finished_bar_is_blanked_not_redrawn_witness :
  exists c s0 w1 errs s w err s' w',
    NewOptions64 env0 3 [OptionShowCount] new_world = Done (c, s0) w1 /\
    AddAll env0 c [1; 1; 1] s0 w1 = Done (errs, s) w /\
    Add64 env0 c 1 s w = Done (err, s') w' /\
    finished s = true /\ currentNum s = max c /\ useANSICodes c = false /\
    err = None /\
    trace w' = (trace w ++ [write_event err (blank_text s)])%list.
Proof.
  let r := eval vm_compute in (NewOptions64 env0 3 [OptionShowCount] new_world) in
  lazymatch r with
  | Done (?c, ?s0) ?w1 =>
      let r2 := eval vm_compute in (AddAll env0 c [1; 1; 1] s0 w1) in
      lazymatch r2 with
      | Done (?errs, ?s) ?w =>
          let r3 := eval vm_compute in (Add64 env0 c 1 s w) in
          lazymatch r3 with
          | Done (?err, ?s') ?w' =>
              exists c, s0, w1, errs, s, w, err, s', w';
              split; [vm_compute; reflexivity|];
              split; [vm_compute; reflexivity|];
              split; [vm_compute; reflexivity|];
              split; [reflexivity|]; split; [reflexivity|]; split; [reflexivity|];
              split; [reflexivity|];
              refine (proj2 (proj2 (proj2
                        (finished_bar_is_blanked_not_redrawn env0 c 1 s w err s' w'
                           _ _ _ _))) _ _ _ _);
              [vm_compute; reflexivity | reflexivity | reflexivity | reflexivity
              | reflexivity | reflexivity | discriminate | vm_compute; discriminate]
          end
      end
  end.
Defined.

Lemma blanking_width_covers_drawn_line_witness :
  exists c s0 w1 err s w err' s' w',
    NewOptions64 env0 100 [OptionShowCount] new_world = Done (c, s0) w1 /\
    Add64 env0 c 1 s0 w1 = Done (err, s) w /\
    render env0 c s w = Done (err', s') w' /\
    maxLineWidth s = 64 /\ maxLineWidth s' = 64 /\
    maxLineWidth s <= maxLineWidth s'.
Proof.
  let r := eval vm_compute in (NewOptions64 env0 100 [OptionShowCount] new_world) in
  lazymatch r with
  | Done (?c, ?s0) ?w1 =>
      let r2 := eval vm_compute in (Add64 env0 c 1 s0 w1) in
      lazymatch r2 with
      | Done (?err, ?s) ?w =>
          let r3 := eval vm_compute in (render env0 c s w) in
          lazymatch r3 with
          | Done (?err', ?s') ?w' =>
              exists c, s0, w1, err, s, w, err', s', w';
              split; [vm_compute; reflexivity|];
              split; [vm_compute; reflexivity|];
              split; [vm_compute; reflexivity|];
              split; [reflexivity|]; split; [reflexivity|];
              refine (proj1 (blanking_width_covers_drawn_line env0 c s w err' s' w' _));
              vm_compute; reflexivity
          end
      end
  end.
Defined.

Lemma drawn_line_is_kept_and_starts_with_CR_witness :
  exists c s0 w1 w_ err s' w',
    NewOptions64 env0 100 [] new_world = Done (c, s0) w1 /\
    renderProgressBar env0 c s0 w1 = Done (w_, err, s') w' /\
    colorCodes c = false /\
    (exists body, String_ s' = CR ++ body) /\
    trace w' = (trace w1 ++ [write_event err (String_ s')])%list /\
    w_ = StringWidth env0 (drop_CR (String_ s')).
Proof.
  let r := eval vm_compute in (NewOptions64 env0 100 [] new_world) in
  lazymatch r with
  | Done (?c, ?s0) ?w1 =>
      let r2 := eval vm_compute in (renderProgressBar env0 c s0 w1) in
      lazymatch r2 with
      | Done (?w_, ?err, ?s') ?w' =>
          exists c, s0, w1, w_, err, s', w';
          split; [vm_compute; reflexivity|];
          split; [vm_compute; reflexivity|];
          split; [reflexivity|];
          refine (drawn_line_is_kept_and_starts_with_CR env0 c s0 w1 w_ err s' w' _ _);
          [vm_compute; reflexivity | reflexivity]
      end
  end.
Defined.

Lemma RenderBlank_at_zero_is_never_throttled_witness :
  exists c s0 w1 err s' w',
    NewOptions64 env0 10 [OptionThrottle (3600 * Second)] new_world = Done (c, s0) w1 /\
    RenderBlank env0 c s0 w1 = Done (err, s') w' /\
    throttleDuration c = 3600 * Second /\
    trace w' = (trace w1 ++ [write_event err (rendered s')])%list.
Proof.
  let r := eval vm_compute in
    (NewOptions64 env0 10 [OptionThrottle (3600 * Second)] new_world) in
  lazymatch r with
  | Done (?c, ?s0) ?w1 =>
      let r2 := eval vm_compute in (RenderBlank env0 c s0 w1) in
      lazymatch r2 with
      | Done (?err, ?s') ?w' =>
          exists c, s0, w1, err, s', w';
          split; [vm_compute; reflexivity|];
          split; [vm_compute; reflexivity|];
          split; [reflexivity|];
          refine (RenderBlank_at_zero_is_never_throttled env0 c s0 w1 err s' w'
                    _ _ _ _ _ _ _);
          [vm_compute; reflexivity | reflexivity | reflexivity | reflexivity
          | reflexivity | vm_compute; reflexivity | vm_compute; reflexivity]
      end
  end.
Defined.

End Output.

(** ** What the constructor hands out *)

Module Constructor.

Import F64 Go Progressbar Notions Frame Tracker Renderer Demo.

(** No option assigns these four fields. *)
Lemma options_keep_fixed opts c :
  useANSICodes (fold_left apply_option opts c) = useANSICodes c /\
  clearOnFinish (fold_left apply_option opts c) = clearOnFinish c /\
  showDescriptionAtLineEnd (fold_left apply_option opts c) = showDescriptionAtLineEnd c /\
  elapsedTime (fold_left apply_option opts c) = elapsedTime c.
Proof.
  revert c. induction opts as [|o opts IH]; intros c; cbn [fold_left]; [tauto|].
  destruct (IH (apply_option c o)) as (H1 & H2 & H3 & H4).
  rewrite H1, H2, H3, H4. destruct o; cbn; tauto.
Qed.

(** The last spinner option decides the spinner type. *)
Lemma last_spinner_option_wins opts k c :
  spinnerType (fold_left apply_option (opts ++ [OptionSpinnerType k]) c) = k.
Proof. rewrite fold_left_app. reflexivity. Qed.

Section WithEnv.

Variable E : env.

(** Whatever options are given, the tracker the constructor returns has
    ANSI mode off, keeps its line when it finishes, puts the description
    first and shows the elapsed time: no option reaches these settings. *)
Theorem constructor_never_enables_ansi
    (max_ : Z) (options : list Option) (w0 : world) (c : config) (s0 : state) (w1 : world) :
  NewOptions64 E max_ options w0 = Done (c, s0) w1 ->
  useANSICodes c = false /\ clearOnFinish c = false /\
  showDescriptionAtLineEnd c = false /\ elapsedTime c = true.
Proof.
  unfold NewOptions64. intros H. open_bind H as sb wb Hb.
  match type of H with context [fold_left apply_option options ?c0] =>
    destruct (options_keep_fixed options c0) as (H1 & H2 & H3 & H4);
    set (c1 := fold_left apply_option options c0) in *
  end.
  cbn in H1, H2, H3, H4.
  destruct ((spinnerType c1 <? 0) || (75 <? spinnerType c1)); [discriminate|].
  match type of H with context [humanizeBytes ?x] =>
    destruct (humanizeBytes x) as [[h suf]|] end; [|discriminate].
  match type of H with context [renderWithBlankState ?c2] =>
    assert (Hc : c = c2) end.
  { destruct (renderWithBlankState _).
    - open_bind H as r wr Hr. apply Done_pair_inj in H. destruct H as (<- & _ & _).
      reflexivity.
    - apply Done_pair_inj in H. destruct H as (<- & _ & _). reflexivity. }
  rewrite Hc. destruct (max c1 =? -1); cbn; auto.
Qed.

(** An option list that ends by choosing a spinner type outside 0..75
    makes the constructor panic, whatever else is configured and before
    anything is written. *)
Theorem invalid_spinner_type_panics
    (max_ : Z) (options : list Option) (k : Z) (w0 : world) :
  k < 0 \/ 75 < k ->
  exists w1,
    NewOptions64 E max_ (options ++ [OptionSpinnerType k]) w0 = Panic w1 /\
    trace w1 = trace w0 /\ writes w1 = writes w0.
Proof.
  intros Hk. unfold NewOptions64, getBasicState, time_Now. cbn [bind].
  rewrite last_spinner_option_wins.
  assert (Hb : (k <? 0) || (75 <? k) = true).
  { apply orb_true_iff. destruct Hk; [left; apply Z.ltb_lt | right; apply Z.ltb_lt]; lia. }
  rewrite Hb. eexists. split; [reflexivity|]. split; reflexivity.
Qed.

(** Without the blank-state option the constructor writes nothing and
    leaves [String] empty; with it, on a bar of positive length, it
    writes exactly one text, the line [String] returns, however long
    the throttle. *)
Theorem constructor_writes_the_blank_state_only
    (max_ : Z) (options : list Option) (w0 : world) (c : config) (s0 : state) (w1 : world) :
  NewOptions64 E max_ options w0 = Done (c, s0) w1 ->
  (renderWithBlankState c = false ->
   trace w1 = trace w0 /\ writes w1 = writes w0 /\ String_ s0 = "") /\
  (renderWithBlankState c = true -> 0 < max c ->
   Int64.in_range (clock E (S (ticks w0))) = true ->
   Int64.in_range (throttleDuration c) = true ->
   exists err, trace w1 = (trace w0 ++ [write_event err (String_ s0)])%list).
Proof.
  unfold NewOptions64. intros H. open_bind H as sb wb Hb.
  assert (Hticks : ticks wb = S (ticks w0)).
  { unfold getBasicState, time_Now in Hb. cbn [bind] in Hb.
    apply Done_inj in Hb. destruct Hb as [<- _]. reflexivity. }
  assert (Hwrites : writes wb = writes w0).
  { unfold getBasicState, time_Now in Hb. cbn [bind] in Hb.
    apply Done_inj in Hb. destruct Hb as [<- _]. reflexivity. }
  assert (Hr0 : rendered sb = "").
  { unfold getBasicState, time_Now in Hb. cbn [bind] in Hb.
    apply Done_inj in Hb. destruct Hb as [_ <-]. reflexivity. }
  apply getBasicState_fresh in Hb.
  destruct Hb as (F1 & _ & _ & _ & _ & F6 & F7 & F8).
  destruct ((spinnerType _ <? 0) || (75 <? spinnerType _)); [discriminate|].
  match type of H with context [humanizeBytes ?x] =>
    destruct (humanizeBytes x) as [[h suf]|] end; [|discriminate].
  match type of H with context [renderWithBlankState ?c2] => set (cc := c2) in * end.
  destruct (renderWithBlankState cc) eqn:Hblank.
  - open_bind H as r wr Hr. destruct r as [e sr].
    apply Done_pair_inj in H. destruct H as (<- & <- & <-). cbn [snd].
    split; [intros Hn; congruence|].
    intros _ Hpos Hclock Hthr. exists e. rewrite <- F8.
    unfold RenderBlank in Hr. rewrite F1 in Hr. cbn [Z.eqb] in Hr.
    apply Output.render_first_line in Hr; try assumption.
    + cbn [currentNum set_lastShown]. lia.
    + cbn [lastShown set_lastShown].
      apply Output.since_zero_time_is_not_throttled; [|exact Hthr].
      rewrite Hticks. exact Hclock.
  - apply Done_pair_inj in H. destruct H as (<- & <- & <-).
    split; [auto | intros Hn; congruence].
Qed.

End WithEnv.

Lemma constructor_never_enables_ansi_witness :
  exists c s0 w1,
    Default env0 50 ["files"] new_world = Done (c, s0) w1 /\
    useANSICodes c = false /\ clearOnFinish c = false /\
    showDescriptionAtLineEnd c = false /\ elapsedTime c = true.
Proof.
  let r := eval vm_compute in (Default env0 50 ["files"] new_world) in
  lazymatch r with
  | Done (?c, ?s0) ?w1 =>
      exists c, s0, w1;
      split; [vm_compute; reflexivity|];
      refine (constructor_never_enables_ansi env0 50
                [ OptionSetDescription "files"; OptionSetWriter (Stderr env0);
                  OptionShowBytes true; OptionSetWidth 10;
                  OptionThrottle (65 * Millisecond); OptionShowCount;
                  OptionOnCompletion newline_callback; OptionSpinnerType 14;
                  OptionFullWidth; OptionSetRenderBlankState true ]
                new_world c s0 w1 _);
      vm_compute; reflexivity
  end.
Defined.

Lemma invalid_spinner_type_panics_witness :
  exists w1,
    NewOptions64 env0 10 ([OptionSetWidth 20] ++ [OptionSpinnerType 76]) new_world
      = Panic w1 /\
    trace w1 = trace new_world /\ writes w1 = writes new_world.
Proof.
  refine (invalid_spinner_type_panics env0 10 [OptionSetWidth 20] 76 new_world _).
  right. reflexivity.
Defined.

Lemma constructor_writes_the_blank_state_only_witness :
  exists c s0 w1,
    NewOptions64 env0 10 [OptionSetRenderBlankState true] new_world = Done (c, s0) w1 /\
    renderWithBlankState c = true /\
    exists err, trace w1 = (trace new_world ++ [write_event err (String_ s0)])%list.
Proof.
  let r := eval vm_compute in
    (NewOptions64 env0 10 [OptionSetRenderBlankState true] new_world) in
  lazymatch r with
  | Done (?c, ?s0) ?w1 =>
      exists c, s0, w1;
      split; [vm_compute; reflexivity|];
      split; [reflexivity|];
      refine (proj2 (constructor_writes_the_blank_state_only env0 10
                       [OptionSetRenderBlankState true] new_world c s0 w1 _) _ _ _ _);
      [vm_compute; reflexivity | reflexivity | reflexivity
      | vm_compute; reflexivity | vm_compute; reflexivity]
  end.
Defined.

End Constructor.

(** ** What the counters add up to, and which calls are sure to return *)

Module Accounting.

Import F64 Go Progressbar Notions Frame Tracker Demo.

Section WithEnv.

Variable E : env.

Lemma AddAll_bytes c nums : forall s w errs s' w',
  exit s = false -> max c <> 0 ->
  AddAll E c nums s w = Done (errs, s') w' ->
  currentBytes s' = fold_left (fun b num => add b (of_int num)) nums (currentBytes s).
Proof.
  induction nums as [|n nums IH]; intros s w errs s' w' Hx Hm H.
  - cbn [AddAll] in H. apply Done_pair_inj in H. destruct H as (_ & <- & _). reflexivity.
  - apply AddAll_cons in H. destruct H as (e & s1 & w1 & errs1 & Ha & Hr & _).
    destruct (Add64_effect E _ _ _ _ _ _ _ Hx Hm Ha) as (_ & Hb & Hx1 & _).
    rewrite (IH _ _ _ _ _ Hx1 Hm Hr), Hb. reflexivity.
Qed.

(** The byte total of a tracker whose maximum is not zero is the float
    sum of every delta passed to [Add64], in call order: also of the
    deltas the count ignores because it is at or above the maximum, of
    those it wraps in a spinner, and of the calls that returned an
    error. *)
Theorem byte_total_adds_every_delta
    (max_ : Z) (options : list Option) (w0 : world) (c : config) (s0 : state) (w1 : world)
    (nums : list Z) (errs : list (option error)) (s : state) (w : world) :
  NewOptions64 E max_ options w0 = Done (c, s0) w1 ->
  max c <> 0 ->
  AddAll E c nums s0 w1 = Done (errs, s) w ->
  currentBytes s = fold_left (fun b num => add b (of_int num)) nums zero.
Proof.
  intros Hnew Hm Hrun.
  destruct (NewOptions64_fresh E _ _ _ _ _ _ Hnew) as (_ & _ & Hx & Hb & _).
  rewrite (AddAll_bytes _ _ _ _ _ _ _ Hx Hm Hrun), Hb. reflexivity.
Qed.

(** No call on a tracker of known length that shows no byte counts can
    panic: whatever the deltas, the clock, the terminal and the sink do,
    every run of [Add64] calls returns. *)
Theorem known_length_calls_never_panic
    (max_ : Z) (options : list Option) (w0 : world) (c : config) (s0 : state) (w1 : world)
    (nums : list Z) :
  NewOptions64 E max_ options w0 = Done (c, s0) w1 ->
  max_ <> -1 -> showBytes c = false ->
  exists errs s w, AddAll E c nums s0 w1 = Done (errs, s) w.
Proof.
  intros Hnew Hne Hb.
  destruct (NewOptions64_fresh E _ _ _ _ _ _ Hnew) as (_ & _ & _ & _ & _ & Hk & _).
  destruct (Hk Hne) as [_ Hkn].
  pose proof (Totality.NewOptions64_drawable E _ _ _ _ _ _ Hnew Hb Hkn) as Hd.
  destruct (Totality.AddAll_returns E c nums s0 w1 Hd) as (errs & s & w & H & _).
  eauto.
Qed.

End WithEnv.

Lemma byte_total_adds_every_delta_witness :
  exists c s0 w1 errs s w,
    NewOptions64 env0 5 [] new_world = Done (c, s0) w1 /\
    AddAll env0 c [3; 4; 2; -1] s0 w1 = Done (errs, s) w /\
    currentNum s = 7 /\
    currentBytes s = of_int 8 /\
    currentBytes s = fold_left (fun b num => add b (of_int num)) [3; 4; 2; -1] zero.
Proof.
  let r := eval vm_compute in (NewOptions64 env0 5 [] new_world) in
  lazymatch r with
  | Done (?c, ?s0) ?w1 =>
      let r2 := eval vm_compute in (AddAll env0 c [3; 4; 2; -1] s0 w1) in
      lazymatch r2 with
      | Done (?errs, ?s) ?w =>
          exists c, s0, w1, errs, s, w;
          split; [vm_compute; reflexivity|];
          split; [vm_compute; reflexivity|];
          split; [reflexivity|];
          split; [vm_compute; reflexivity|];
          refine (byte_total_adds_every_delta env0 5 [] new_world c s0 w1
                    [3; 4; 2; -1] errs s w _ _ _);
          [vm_compute; reflexivity | discriminate | vm_compute; reflexivity]
      end
  end.
Defined.

Lemma known_length_calls_never_panic_witness :
  exists c s0 w1,
    NewOptions64 env0 5 [OptionShowCount] new_world = Done (c, s0) w1 /\
    exists errs s w, AddAll env0 c [3; 4; 2; -1] s0 w1 = Done (errs, s) w.
Proof.
  let r := eval vm_compute in (NewOptions64 env0 5 [OptionShowCount] new_world) in
  lazymatch r with
  | Done (?c, ?s0) ?w1 =>
      exists c, s0, w1;
      split; [vm_compute; reflexivity|];
      refine (known_length_calls_never_panic env0 5 [OptionShowCount] new_world c s0 w1
                [3; 4; 2; -1] _ _ _);
      [vm_compute; reflexivity | discriminate | reflexivity]
  end.
Defined.

End Accounting.

(** ** The measured width of a line *)

Module Width.

Import F64 Go Progressbar Notions Frame Demo.

(** A letter is neither a digit nor a semicolon. *)
Lemma letter_is_not_param a : is_letter a = true -> is_param a = false.
Proof.
  destruct a as [b0 b1 b2 b3 b4 b5 b6 b7].
  destruct b0, b1, b2, b3, b4, b5, b6, b7; intros H; try reflexivity; discriminate H.
Qed.

Lemma strip_plain_app s1 s2 :
  plain s1 = true -> strip_ansi Outside (s1 ++ s2) = s1 ++ strip_ansi Outside s2.
Proof.
  induction s1 as [|a s1 IH]; intros H; [reflexivity|].
  cbn [plain] in H. apply andb_true_iff in H. destruct H as [Ha Hs].
  apply negb_true_iff in Ha.
  cbn [append strip_ansi]. rewrite Ha, (IH Hs). reflexivity.
Qed.

Lemma strip_plain s : plain s = true -> strip_ansi Outside s = s.
Proof.
  induction s as [|a s IH]; intros H; [reflexivity|].
  cbn [plain] in H. apply andb_true_iff in H. destruct H as [Ha Hs].
  apply negb_true_iff in Ha.
  cbn [strip_ansi]. rewrite Ha, (IH Hs). reflexivity.
Qed.

Lemma strip_params ps l rest : forall held,
  all_params ps = true -> is_letter l = true ->
  strip_ansi (InParams held) (ps ++ String l rest) = strip_ansi Outside rest.
Proof.
  induction ps as [|a ps IH]; intros held Hp Hl.
  - cbn [append strip_ansi]. rewrite (letter_is_not_param l Hl), Hl. reflexivity.
  - cbn [all_params] in Hp. apply andb_true_iff in Hp. destruct Hp as [Ha Hps].
    cbn [append strip_ansi]. rewrite Ha. apply IH; assumption.
Qed.

Lemma append_assoc (a b c : string) : (a ++ b) ++ c = a ++ b ++ c.
Proof. induction a as [|x a IH]; cbn; [|rewrite IH]; reflexivity. Qed.

Lemma strip_escape_sequence ps l rest :
  all_params ps = true -> is_letter l = true ->
  strip_ansi Outside (escape_sequence ps l ++ rest) = strip_ansi Outside rest.
Proof.
  intros Hp Hl. unfold escape_sequence, ESC.
  cbn [append strip_ansi Ascii.eqb Bool.eqb ascii_of_nat ascii_of_pos
       Pos.of_succ_nat Pos.succ].
  change (strip_ansi (InParams (ESC ++ "[")) ((ps ++ String l "") ++ rest)
          = strip_ansi Outside rest).
  rewrite append_assoc. cbn [append]. apply strip_params; assumption.
Qed.

Lemma drop_CR_app s1 s2 : drop_CR (s1 ++ s2) = drop_CR s1 ++ drop_CR s2.
Proof.
  induction s1 as [|a s1 IH]; [reflexivity|].
  cbn [append drop_CR]. destruct (Ascii.eqb a (ascii_of_nat 13)); cbn [append];
    rewrite IH; reflexivity.
Qed.

Lemma drop_CR_plain s : plain s = true -> plain (drop_CR s) = true.
Proof.
  induction s as [|a s IH]; intros H; [reflexivity|].
  cbn [plain] in H. apply andb_true_iff in H. destruct H as [Ha Hs].
  cbn [drop_CR]. destruct (Ascii.eqb a (ascii_of_nat 13)); [exact (IH Hs)|].
  cbn [plain]. rewrite Ha, (IH Hs). reflexivity.
Qed.

(** Digits and semicolons are no carriage returns. *)
Lemma drop_CR_params ps : all_params ps = true -> drop_CR ps = ps.
Proof.
  induction ps as [|a ps IH]; intros H; [reflexivity|].
  cbn [all_params] in H. apply andb_true_iff in H. destruct H as [Ha Hs].
  cbn [drop_CR]. rewrite (IH Hs).
  assert (Hne : Ascii.eqb a (ascii_of_nat 13) = false).
  { destruct (Ascii.eqb_spec a (ascii_of_nat 13)) as [->|]; [discriminate Ha | reflexivity]. }
  rewrite Hne. reflexivity.
Qed.

Lemma drop_CR_escape_sequence ps l :
  all_params ps = true -> is_letter l = true ->
  drop_CR (escape_sequence ps l) = escape_sequence ps l.
Proof.
  intros Hp Hl. unfold escape_sequence, ESC.
  cbn [append drop_CR Ascii.eqb Bool.eqb ascii_of_nat ascii_of_pos
       Pos.of_succ_nat Pos.succ].
  rewrite drop_CR_app, (drop_CR_params ps Hp). cbn [drop_CR].
  assert (Hne : Ascii.eqb l (ascii_of_nat 13) = false).
  { destruct (Ascii.eqb_spec l (ascii_of_nat 13)) as [->|]; [discriminate Hl | reflexivity]. }
  rewrite Hne. reflexivity.
Qed.

(** The replacement of [ansiRegex] removes an escape sequence (the
    escape character, a bracket, digits and semicolons, a letter) that
    follows text without escape characters, keeps that text, and goes on
    with what follows; text without escape characters is left as it is. *)
Theorem escape_sequences_are_removed s1 ps l rest :
  plain s1 = true -> all_params ps = true -> is_letter l = true ->
  strip_ansi Outside (s1 ++ escape_sequence ps l ++ rest) = s1 ++ strip_ansi Outside rest /\
  strip_ansi Outside s1 = s1.
Proof.
  intros Hs Hp Hl. split.
  - rewrite (strip_plain_app _ _ Hs), (strip_escape_sequence _ _ _ Hp Hl). reflexivity.
  - apply strip_plain. exact Hs.
Qed.

Section WithEnv.

Variable E : env.

(** With colour codes on, a colour escape sequence and the carriage
    returns of a line take no width: the width measured for a line that
    holds such a sequence is the width of the line without it (here for
    a line the colour translation leaves as it is, and a sequence that
    follows text without escape characters). *)
Theorem colour_sequences_have_no_width c s1 ps l s2 b :
  colorCodes c = true ->
  Color E (CR ++ s1 ++ escape_sequence ps l ++ s2) = CR ++ s1 ++ escape_sequence ps l ++ s2 ->
  Color E (s1 ++ s2) = s1 ++ s2 ->
  plain s1 = true -> all_params ps = true -> is_letter l = true ->
  getStringWidth E c (CR ++ s1 ++ escape_sequence ps l ++ s2) b
    = getStringWidth E c (s1 ++ s2) b.
Proof.
  intros Hc Hcol1 Hcol2 Hs Hp Hl. unfold getStringWidth.
  rewrite Hc, Hcol1, Hcol2. f_equal.
  change (CR ++ s1 ++ escape_sequence ps l ++ s2)
    with (String (ascii_of_nat 13) (s1 ++ escape_sequence ps l ++ s2)).
  cbn [drop_CR]. rewrite Ascii.eqb_refl.
  rewrite !drop_CR_app, (drop_CR_escape_sequence _ _ Hp Hl).
  pose proof (drop_CR_plain _ Hs) as Hs'.
  rewrite (strip_plain_app (drop_CR s1) (escape_sequence ps l ++ drop_CR s2) Hs').
  rewrite (strip_escape_sequence _ _ _ Hp Hl).
  rewrite (strip_plain_app (drop_CR s1) (drop_CR s2) Hs'). reflexivity.
Qed.

End WithEnv.

Lemma escape_sequences_are_removed_witness :
  strip_ansi Outside ("ab" ++ escape_sequence "1;31" "m" ++ "cd") = "ab" ++ strip_ansi Outside "cd" /\
  strip_ansi Outside "ab" = "ab".
Proof.
  refine (escape_sequences_are_removed "ab" "1;31" "m" "cd" _ _ _); reflexivity.
Defined.

Lemma colour_sequences_have_no_width_witness :
  exists c s0 w1,
    NewOptions64 env0 10 [OptionEnableColorCodes true] new_world = Done (c, s0) w1 /\
    colorCodes c = true /\
    getStringWidth env0 c (CR ++ " 10% |#" ++ escape_sequence "33" "m" ++ ">   |") false = 12 /\
    getStringWidth env0 c (CR ++ " 10% |#" ++ escape_sequence "33" "m" ++ ">   |") false
      = getStringWidth env0 c (" 10% |#" ++ ">   |") false.
Proof.
  let r := eval vm_compute in
    (NewOptions64 env0 10 [OptionEnableColorCodes true] new_world) in
  lazymatch r with
  | Done (?c, ?s0) ?w1 =>
      exists c, s0, w1;
      split; [vm_compute; reflexivity|];
      split; [reflexivity|];
      split; [vm_compute; reflexivity|];
      refine (colour_sequences_have_no_width env0 c " 10% |#" "33" "m" ">   |" false
                _ _ _ _ _ _);
      reflexivity
  end.
Defined.

End Width.

(** ** The bar between its two ends *)

Module Geometry.

Import F64 Go Progressbar Notions Frame Demo.

Lemma len_app (a b : string) : len (a ++ b) = len a + len b.
Proof.
  unfold len. induction a as [|x a IH]; cbn [append String.length]; [reflexivity|].
  rewrite !Nat2Z.inj_succ. lia.
Qed.

Lemma len_repeat_nat (s : string) (n : nat) : len (repeat_nat s n) = Z.of_nat n * len s.
Proof.
  induction n as [|n IH]; cbn [repeat_nat]; [reflexivity|].
  rewrite len_app, IH, Nat2Z.inj_succ. lia.
Qed.

Lemma len_Repeat (s : string) (count : Z) : 0 <= count -> len (Repeat s count) = count * len s.
Proof. intros H. unfold Repeat. rewrite len_repeat_nat, Z2Nat.id by exact H. reflexivity. Qed.

(** With a theme whose pieces are one byte each (an empty head stands
    for the fill character), the track of a bar of known length, which
    is the fill, its head and the padding, is exactly as long as the
    bar is wide, whenever the fill length lies between 0 and the width:
    the bar does not change length as it fills. *)
Theorem bar_track_has_constant_length (c : config) (cwidth : Z) (s : state) :
  ignoreLength c = false ->
  len (Saucer (theme c)) = 1 -> len (SaucerPadding (theme c)) = 1 ->
  SaucerHead (theme c) = "" \/ len (SaucerHead (theme c)) = 1 ->
  AltSaucerHead (theme c) = "" \/ len (AltSaucerHead (theme c)) = 1 ->
  0 <= currentSaucerSize s <= cwidth -> cwidth <= Int64.max_int ->
  let '(saucer, saucerHead, s') := saucer_parts c cwidth s in
  let repeatAmount := Int64.sub cwidth (currentSaucerSize s') in
  len (saucer ++ saucerHead
         ++ Repeat (SaucerPadding (theme c)) (if repeatAmount <? 0 then 0 else repeatAmount))
    = cwidth.
Proof.
  intros Hk Hs Hp Hh Ha Hsize Hmax.
  assert (Hsub : Int64.sub cwidth (currentSaucerSize s) = cwidth - currentSaucerSize s).
  { unfold Int64.sub. apply Int64Facts.wrap_small.
    unfold Int64.min_int, Int64.max_int in *. lia. }
  unfold saucer_parts. rewrite Hk.
  destruct (Z.ltb_spec 0 (currentSaucerSize s)) as [Hpos|Hzero].
  - assert (Hfill : len (Repeat (Saucer (theme c)) (currentSaucerSize s - 1))
                    = currentSaucerSize s - 1)
      by (rewrite len_Repeat, Hs; lia).
    destruct (negb (AltSaucerHead (theme c) =? "")%string && isAltSaucerHead s) eqn:Halt;
      [|destruct ((SaucerHead (theme c) =? "")%string || (currentSaucerSize s =? cwidth))
          eqn:Hhead];
      cbn [currentSaucerSize set_isAltSaucerHead]; cbv zeta; rewrite Hsub;
      (destruct (Z.ltb_spec (cwidth - currentSaucerSize s) 0); [lia|]);
      rewrite !len_app, Hfill, len_Repeat, Hp by lia.
    + apply andb_true_iff in Halt. destruct Halt as [Hne _].
      apply negb_true_iff in Hne. apply String.eqb_neq in Hne.
      destruct Ha as [Ha|Ha]; [contradiction | lia].
    + lia.
    + apply orb_false_iff in Hhead. destruct Hhead as [Hne _].
      apply String.eqb_neq in Hne.
      destruct Hh as [Hh|Hh]; [contradiction | lia].
  - cbv zeta. rewrite Hsub.
    destruct (Z.ltb_spec (cwidth - currentSaucerSize s) 0); [lia|].
    cbn [append]. rewrite len_Repeat, Hp by lia. lia.
Qed.

Lemma bar_track_has_constant_length_witness :
  exists c s0 w1 err s w,
    NewOptions64 env0 200
      [OptionSetWidth 20;
       OptionSetTheme {| Saucer := "="; AltSaucerHead := ""; SaucerHead := ">";
                         SaucerPadding := "."; BarStart := "["; BarEnd := "]" |}]
      new_world = Done (c, s0) w1 /\
    Add64 env0 c 70 s0 w1 = Done (err, s) w /\
    currentSaucerSize s = 7 /\
    saucer_parts c 20 s = ("======", ">", set_isAltSaucerHead true s) /\
    let '(saucer, saucerHead, s') := saucer_parts c 20 s in
    let repeatAmount := Int64.sub 20 (currentSaucerSize s') in
    len (saucer ++ saucerHead
           ++ Repeat (SaucerPadding (theme c)) (if repeatAmount <? 0 then 0 else repeatAmount))
      = 20.
Proof.
  let r := eval vm_compute in
    (NewOptions64 env0 200
       [OptionSetWidth 20;
        OptionSetTheme {| Saucer := "="; AltSaucerHead := ""; SaucerHead := ">";
                          SaucerPadding := "."; BarStart := "["; BarEnd := "]" |}]
       new_world) in
  lazymatch r with
  | Done (?c, ?s0) ?w1 =>
      let r2 := eval vm_compute in (Add64 env0 c 70 s0 w1) in
      lazymatch r2 with
      | Done (?err, ?s) ?w =>
          exists c, s0, w1, err, s, w;
          split; [vm_compute; reflexivity|];
          split; [vm_compute; reflexivity|];
          split; [reflexivity|];
          split; [vm_compute; reflexivity|];
          refine (bar_track_has_constant_length c 20 s _ _ _ _ _ _ _);
          [reflexivity | reflexivity | reflexivity | right; reflexivity | left; reflexivity
          | split; discriminate | discriminate]
      end
  end.
Defined.

End Geometry.
